(** * Progress orchestration and reconciliation of the receipt dashboard

    A shallow embedding of [src/components/Dashboard.tsx]: the component
    state, the progress simulator [simulateAgentProgress], the narration
    effect, [handleFileSelect] and [handleAnalyze] with its two settlement
    paths (the success branch and the [catch] block).

    Conventions of the embedding.
    - A JavaScript string is the list of the bytes of its UTF-8 encoding
      ([string]); [toLowerCase] folds the letters A-Z.  Outside ASCII,
      JavaScript lower-cases only U+0130 and U+212A into ASCII letters (an
      [i] followed by U+0307, and [k]); neither can be part of an
      occurrence of [meta], [privacy] or [vision], so on the three
      identifiers of the dashboard the test
      [ba.name.toLowerCase().includes(a.id)] is the one computed here.
    - A React state variable is a field of [State]; [setX(prev => f prev)]
      applies [f] to the field, [setX(v)] overwrites it.  Updates are applied
      in program order, as React's update queue does.  React runs an
      updater when it renders, after the code that queued it has returned;
      the one updater that reads a variable assigned after the call, the
      counter of the narration, sees the new value.
    - An [async] function is a coroutine: its program counter is a value
      ([SimPc], [ReqPc]) and every stretch of code between two [await]s is
      one atomic transition of [step], because JavaScript runs it to
      completion.  The platform supplies the inputs of a transition: the
      reading of [Date.now()] (one reading serves the whole stretch), the
      draws of [Math.random()] and the settlement of [fetch].
    - Runs share the component state and [isAnalyzingRef]; a simulator of
      an earlier run that has not yet returned stays in the world.
    - The body of a response is what [response.json()] and
      [response.text()] make of it.  The [detail] of an error payload is a
      JSON value of any kind, tested and converted to a string as
      JavaScript does; the [agents], [logs] and [analysis] of a success
      payload have the types the dashboard declares for them.

    The other handlers of the dashboard ([handleDrop], [loadSampleReceipt],
    the parts of the render that compute) are embedded after the event
    loop, and, in modules of their own, the tour in front of the dashboard
    ([Onboarding.tsx], [page.tsx]), the dot grid of the background
    ([ParticleDots.tsx]) and the clock of the overlay ([HudOverlay.tsx]). *)

From Stdlib Require Import ZArith QArith Qround Qabs String Ascii List
  DecimalString DecimalNat Lia Lqa.
From stdpp Require Import base relations list strings.

Open Scope string_scope.
Open Scope list_scope.
Open Scope Z_scope.

(** ** Data model (lines 7-30) *)

Inductive Status := pending | running | complete | error.

Record Agent := mkAgent {
  id : string;
  icon : string;
  name : string;
  status : Status;
  logs : list string;
  thinkingText : string
}.

Record Flag := mkFlag {
  layer : string;
  severity : string;
  description : string;
  confidence : Q
}.

Record AnalysisResult := mkAnalysisResult {
  risk_score : Q;
  verdict : string;
  flags : list Flag;
  explanation : string;
  software_detected : option string;
  is_edited : bool;
  font_consistency_score : Q;
  alignment_score : Q
}.

(** The [File] chosen by the user; only its presence is ever inspected. *)
Record File := mkFile { file_name : string; file_type : string }.

(** The body of the POST request built at lines 190-193. *)
Record FormData := mkFormData {
  image : File;
  claimed_amount : string;
  expected_bank : string
}.

(** ** The response as the code observes it (lines 195-213) *)

(** One record of [data.agents]; [ba.logs] may be missing ([ba.logs || []]). *)
Record BackendAgent := mkBackendAgent {
  ba_name : string;
  ba_logs : option (list string)
}.

(** A JSON value.  A number is given by the text [String] makes of it,
    which determines it: [0] for zero, [5], [-1.5], [1e+21]. *)
#[warnings="-register-all"] Inductive Json :=
| JNull
| JBool (b : bool)
| JNumber (text : string)
| JString (s : string)
| JArray (items : list Json)
| JObject (members : list (string * Json)).

(** The object a JSON body parses to, seen through the properties the
    code reads: [detail], [agents], [logs], [analysis].  A property that
    is missing reads as [undefined]: [None].  [detail] is written by
    whoever answers the request and can be any JSON value. *)
Record Payload := mkPayload {
  data_detail : option Json;
  data_agents : option (list BackendAgent);
  data_logs : option (list string);
  data_analysis : option AnalysisResult
}.

(** What [await response.json()] does: it rejects with a [SyntaxError],
    or resolves to [null], or to an object, or to another value (a string,
    a number, a boolean or an array), on which every property the code
    reads is [undefined]. *)
Inductive JsonResult :=
| JsonThrows (message : string)
| JsonNull
| JsonObject (data : Payload)
| JsonOther.

(** What the code reads from a value that has none of the properties. *)
Definition no_properties : Payload := mkPayload None None None None.

(** A response whose body has arrived: [response.json()] settles as
    [resp_json] says and [response.text()] resolves to [resp_text]. *)
Record Response := mkResponse {
  resp_status : N;
  resp_statusText : string;
  resp_json : JsonResult;
  resp_text : string
}.

(** [response.ok]: the status is in the range 200-299. *)
Definition ok (r : Response) : bool :=
  ((200 <=? resp_status r) && (resp_status r <=? 299))%N.

(** [await fetch(...)]: rejects (transport failure) or resolves. *)
Inductive FetchOutcome :=
| FetchRejects (message : string)
| FetchResolves (r : Response).

(** ** Component state (lines 59-72 and 141) *)

Record State := mkState {
  file : option File;
  claimedAmount : string;
  expectedBank : string;
  isAnalyzing : bool;
  isAnalyzingRef : bool;
  result : option AnalysisResult;
  agents : list Agent;
  allLogs : list string;
  currentAgentIndex : Z
}.

Definition setFile (v : option File) (s : State) : State :=
  mkState v (claimedAmount s) (expectedBank s) (isAnalyzing s)
    (isAnalyzingRef s) (result s) (agents s) (allLogs s) (currentAgentIndex s).

Definition setIsAnalyzing (v : bool) (s : State) : State :=
  mkState (file s) (claimedAmount s) (expectedBank s) v
    (isAnalyzingRef s) (result s) (agents s) (allLogs s) (currentAgentIndex s).

Definition set_isAnalyzingRef (v : bool) (s : State) : State :=
  mkState (file s) (claimedAmount s) (expectedBank s) (isAnalyzing s)
    v (result s) (agents s) (allLogs s) (currentAgentIndex s).

Definition setResult (v : option AnalysisResult) (s : State) : State :=
  mkState (file s) (claimedAmount s) (expectedBank s) (isAnalyzing s)
    (isAnalyzingRef s) v (agents s) (allLogs s) (currentAgentIndex s).

Definition setAgents (f : list Agent -> list Agent) (s : State) : State :=
  mkState (file s) (claimedAmount s) (expectedBank s) (isAnalyzing s)
    (isAnalyzingRef s) (result s) (f (agents s)) (allLogs s)
    (currentAgentIndex s).

Definition setAllLogs (f : list string -> list string) (s : State) : State :=
  mkState (file s) (claimedAmount s) (expectedBank s) (isAnalyzing s)
    (isAnalyzingRef s) (result s) (agents s) (f (allLogs s))
    (currentAgentIndex s).

Definition setCurrentAgentIndex (v : Z) (s : State) : State :=
  mkState (file s) (claimedAmount s) (expectedBank s) (isAnalyzing s)
    (isAnalyzingRef s) (result s) (agents s) (allLogs s) v.

(** The object spread [{ ...a, status, logs, thinkingText }]. *)
Definition agent_with (st : Status) (lg : list string) (tt : string)
    (a : Agent) : Agent :=
  mkAgent (id a) (icon a) (name a) st lg tt.

(** The initial value of [agents] (lines 63-67). *)
Definition initial_agents : list Agent :=
  [ mkAgent "meta" "🕵️" "Agent Meta" pending [] "";
    mkAgent "privacy" "🔒" "Agent Privacy" pending [] "";
    mkAgent "vision" "🧠" "Agent Vision" pending [] "" ].

Definition initial_state : State :=
  mkState None "" "unknown" false false None initial_agents [] (-1).

(** ** Stage registry (lines 32-54 and 153) *)

Definition AGENT_THINKING (agentId : string) : option (list string) :=
  if String.eqb agentId "meta" then
    Some [ "Extracting EXIF metadata...";
           "Checking for editing software signatures...";
           "Analyzing device information...";
           "Verifying image authenticity markers...";
           "Scanning for Photoshop/GIMP traces..." ]
  else if String.eqb agentId "privacy" then
    Some [ "Running OCR text extraction...";
           "Detecting sensitive information patterns...";
           "Identifying account numbers...";
           "Applying privacy redaction...";
           "Preparing sanitized image..." ]
  else if String.eqb agentId "vision" then
    Some [ "Connecting to Gemini AI...";
           "Analyzing font consistency...";
           "Checking text alignment patterns...";
           "Detecting visual artifacts...";
           "Evaluating receipt authenticity..." ]
  else None.

(** [agentNames[agentId]] inside a template literal: a missing key
    prints as [undefined]. *)
Definition agentNames (agentId : string) : string :=
  if String.eqb agentId "meta" then "Agent Meta"
  else if String.eqb agentId "privacy" then "Agent Privacy"
  else if String.eqb agentId "vision" then "Agent Vision"
  else "undefined".

Definition API_URL : string := "/api/py".

Definition DONE_MARKER : string := "✓ Analysis Complete".
Definition FAILED_MARKER : string := "Analysis Failed".
Definition AGENT_FAILURE_LINE : string :=
  "❌ Agent process terminated unexpectedly.".

(** The delay of the [setTimeout] at line 164, in milliseconds. *)
Definition POLL_MS : Z := 100.

(** ** Strings: [toLowerCase] and [includes] (line 221) *)

Definition lower_ascii (c : ascii) : ascii :=
  let n := nat_of_ascii c in
  if ((65 <=? n) && (n <=? 90))%nat then ascii_of_nat (n + 32) else c.

Fixpoint toLowerCase (s : string) : string :=
  match s with
  | EmptyString => EmptyString
  | String c rest => String (lower_ascii c) (toLowerCase rest)
  end.

(** [s.includes(sub)]: [sub] occurs in [s] at some position. *)
Fixpoint includes (s sub : string) : bool :=
  if String.prefix sub s then true
  else match s with
       | EmptyString => false
       | String _ rest => includes rest sub
       end.

(** ** The progress simulator (lines 143-175) *)

(** Where [simulateAgentProgress] is suspended: inside the [await] of
    line 164 during the dwell of stage [stage] (with the [start] and
    [waitTime] of that stage and the time [armed] at which the pending
    [setTimeout] was set), or not running at all. *)
Inductive SimPc :=
| SimDwell (stage : nat) (start : Z) (waitTime : Q) (armed : Z)
| SimIdle.

(** [2000 + Math.random() * 1000], for the draw [r] of [Math.random()]. *)
Definition waitTimeOf (r : Q) : Q := (2000 + r * 1000)%Q.

(** The loop test [Date.now() - start < waitTime] (line 162). *)
Definition dwelling (now start : Z) (waitTime : Q) : bool :=
  if Qlt_le_dec (inject_Z (now - start)) waitTime then true else false.

(** The template literals of lines 157 and 172.  [agents[i]] is read from
    the array captured by the closure; [id] and [icon] are never written,
    so the current array gives the same text. *)
Definition stage_line (i : nat) (suffix : string) (s : State) : string :=
  match agents s !! i with
  | Some a => icon a +:+ " " +:+ agentNames (id a) +:+ suffix
  | None => ""
  end.

(** Lines 147-157: stage [i] starts. *)
Definition stage_begin (i : nat) (s : State) : State :=
  let s1 := setCurrentAgentIndex (Z.of_nat i) s in
  let s2 := setAgents (imap (fun idx a =>
              if (idx =? i)%nat
              then agent_with running (logs a) (thinkingText a) a
              else a)) s1 in
  setAllLogs (fun prev => prev ++ [stage_line i " initialized..." s]) s2.

(** Lines 169-172: stage [i] is marked complete. *)
Definition stage_complete (i : nat) (s : State) : State :=
  let s1 := setAgents (imap (fun idx a =>
              if (idx =? i)%nat
              then agent_with complete (logs a) DONE_MARKER a
              else a)) s in
  setAllLogs (fun prev => prev ++ [stage_line i " task completed." s]) s1.

(** Line 174, reached by every [break] and by the end of the loop. *)
Definition sim_exit (s : State) : State * SimPc :=
  (setCurrentAgentIndex (-1) s, SimIdle).

(** Lines 162-172 from the loop test of the [while] on: either the
    simulator suspends again, or it leaves the [for] loop, or it completes
    stage [i] and goes on with [next], the rest of the [for] loop. *)
Definition sim_while (i : nat) (start : Z) (waitTime : Q) (now : Z)
    (next : State -> State * SimPc) (s : State) : State * SimPc :=
  if dwelling now start waitTime then
    if negb (isAnalyzingRef s) then sim_exit s
    else (s, SimDwell i start waitTime now)
  else
    if negb (isAnalyzingRef s) then sim_exit s
    else next (stage_complete i s).

(** The [for] loop over the stage indices still to visit; [rnd i] is the
    draw of [Math.random()] made for stage [i]. *)
Fixpoint sim_stages (idxs : list nat) (now : Z) (rnd : nat -> Q)
    (s : State) : State * SimPc :=
  match idxs with
  | [] => sim_exit s
  | i :: rest =>
      if negb (isAnalyzingRef s) then sim_exit s
      else sim_while i now (waitTimeOf (rnd i)) now
             (sim_stages rest now rnd) (stage_begin i s)
  end.

(** The indices [i+1 .. agents.length-1]. *)
Definition stages_after (i : nat) (s : State) : list nat :=
  seq (S i) (length (agents s) - S i).

(** The call at line 187: the code up to the first [await]. *)
Definition simulateAgentProgress (now : Z) (rnd : nat -> Q) (s : State)
    : State * SimPc :=
  sim_stages (seq 0 (length (agents s))) now rnd s.

(** The continuation when the timer of line 164 fires. *)
Definition sim_wake (i : nat) (start : Z) (waitTime : Q) (now : Z)
    (rnd : nat -> Q) (s : State) : State * SimPc :=
  sim_while i start waitTime now
    (sim_stages (stages_after i s) now rnd) s.

(** ** The narration effect (lines 83-100) *)

(** One firing of the 800 ms interval, [k] being [thoughtIndex] when the
    callback starts.  The callback hands React the updater of lines 91-95
    and increments [thoughtIndex] (line 96); React runs the updater when
    it renders, after the callback has returned, and the updater reads the
    variable then: the text shown is entry [k + 1] of the list, modulo its
    length.  The effect installs no interval when [currentAgentIndex] is
    out of range. *)
Definition narrate (k : nat) (s : State) : option State :=
  let c := currentAgentIndex s in
  if (c <? 0) || (Z.of_nat (length (agents s)) <=? c) then None
  else
    match agents s !! Z.to_nat c with
    | Some cur =>
        match AGENT_THINKING (id cur) with
        | Some thoughts =>
            Some (setAgents (imap (fun idx a =>
                    if (idx =? Z.to_nat c)%nat
                    then agent_with (status a) (logs a)
                           (nth (S k mod length thoughts) thoughts "") a
                    else a)) s)
        | None => None
        end
    | None => None
    end.

(** ** [handleFileSelect] (lines 102-107) *)

Definition handleFileSelect (selectedFile : File) (s : State) : State :=
  setAgents (map (agent_with pending [] ""))
    (setCurrentAgentIndex (-1)
      (setAllLogs (fun _ => [])
        (setResult None (setFile (Some selectedFile) s)))).

(** ** [handleAnalyze] (lines 177-250) *)

(** Lines 180-184. *)
Definition handleAnalyze_reset (s : State) : State :=
  setAgents (map (agent_with pending [] ""))
    (setAllLogs (fun _ => [])
      (setResult None
        (set_isAnalyzingRef true (setIsAnalyzing true s)))).

(** Line 201. *)
Definition generic_message (r : Response) : string :=
  "HTTP Error " +:+ NilZero.string_of_uint (N.to_uint (resp_status r))
    +:+ ": " +:+ resp_statusText r.

(** The message of the [TypeError] raised by reading a property of
    [null], as V8 words it. *)
Definition null_deref_message (prop : string) : string :=
  "Cannot read properties of null (reading '" +:+ prop +:+ "')".

(** JavaScript truthiness of an optional string ([if (text)]). *)
Definition truthy (v : option string) : option string :=
  match v with
  | Some EmptyString => None
  | Some s => Some s
  | None => None
  end.

(** JavaScript truthiness of a JSON value ([if (errorData.detail)]): an
    array or an object is truthy, also when it is empty. *)
Definition truthy_json (v : Json) : bool :=
  match v with
  | JNull => false
  | JBool b => b
  | JNumber text => negb (String.eqb text "0")
  | JString s => negb (String.eqb s "")
  | JArray _ | JObject _ => true
  end.

(** The object has a member of its own with the key [k]. *)
Definition has_member (k : string) (members : list (string * Json)) : bool :=
  existsb (fun kv => String.eqb (fst kv) k) members.

(** [String(v)], the conversion [new Error(v)] applies to its argument
    (line 210).  An array is its elements joined by commas, [null] among
    them giving the empty text.  An object is a fixed text, unless it has
    a member [toString] of its own: that member is no function, and the
    conversion throws a [TypeError] ([None]). *)
Fixpoint ToString (v : Json) : option string :=
  match v with
  | JNull => Some "null"
  | JBool b => Some (if b then "true" else "false")
  | JNumber text => Some text
  | JString s => Some s
  | JArray items =>
      (fix join (l : list Json) : option string :=
         match l with
         | [] => Some ""
         | x :: rest =>
             match match x with JNull => Some "" | _ => ToString x end with
             | Some t =>
                 match rest with
                 | [] => Some t
                 | _ => option_map (fun u => t +:+ "," +:+ u) (join rest)
                 end
             | None => None
             end
         end) items
  | JObject members =>
      if has_member "toString" members then None
      else Some "[object Object]"
  end.

(** The message of the error that [throw new Error(v)] throws (line
    210): that of the new [Error], or that of the [TypeError], as V8 words
    it, when the conversion of [v] throws. *)
Definition thrown_message (v : Json) : string :=
  default "Cannot convert object to primitive value" (ToString v).

(** The [catch] block, lines 236-245, for a thrown [Error] with the
    given message. *)
Definition catch_block (message : string) (s : State) : State :=
  setAgents (map (fun a =>
      agent_with error (logs a ++ [AGENT_FAILURE_LINE]) FAILED_MARKER a))
    (setAllLogs (fun prev => prev ++ ["❌ Error: " +:+ message])
      (set_isAnalyzingRef false s)).

(** The [finally] block, lines 246-249. *)
Definition finally_block (s : State) : State :=
  set_isAnalyzingRef false (setIsAnalyzing false s).

(** Line 221: the first record whose lower-cased name includes the id. *)
Definition find_backendAgent (bas : list BackendAgent) (a : Agent)
    : option BackendAgent :=
  find (fun ba => includes (toLowerCase (ba_name ba)) (id a)) bas.

(** Lines 220-228: the updater passed to [setAgents]. *)
Definition reconcile_agent (bas : list BackendAgent) (a : Agent) : Agent :=
  match find_backendAgent bas a with
  | Some ba => agent_with complete (default [] (ba_logs ba)) DONE_MARKER a
  | None => a
  end.

(** Lines 216-235, for the parsed object [data]. *)
Definition success_block (data : Payload) (s : State) : State :=
  let s1 := set_isAnalyzingRef false s in
  let s2 := match data_agents data with
            | Some bas => setAgents (map (reconcile_agent bas)) s1
            | None => s1
            end in
  let s3 := match data_logs data with
            | Some l => setAllLogs (fun _ => l) s2
            | None => s2
            end in
  setResult (data_analysis data) s3.

(** Where [handleAnalyze] is suspended: at [await fetch] (line 195), at
    [await clonedResponse.json()] (204), at [await response.text()] (207),
    at [await response.json()] (213), or not running. *)
Inductive ReqPc :=
| AwaitFetch
| AwaitErrorJson (r : Response)
| AwaitErrorText (r : Response)
| AwaitJson (r : Response)
| ReqIdle.

(** How a continuation of [handleAnalyze] ends: at the next [await], or
    in the success branch, or in the [catch] block. *)
Inductive Settlement :=
| Suspends (pc : ReqPc)
| Succeeds (data : Payload)
| Fails (message : string).

(** The continuation after [await fetch] (lines 195-213). *)
Definition after_fetch (o : FetchOutcome) : Settlement :=
  match o with
  | FetchRejects m => Fails m
  | FetchResolves r =>
      if ok r then Suspends (AwaitJson r) else Suspends (AwaitErrorJson r)
  end.

(** The continuation after [await clonedResponse.json()] (lines 204-210).
    Reading [detail] throws on [null] only; on a string, a number, a
    boolean or an array it gives [undefined]. *)
Definition after_error_json (r : Response) : Settlement :=
  match resp_json r with
  | JsonObject errorData =>
      match data_detail errorData with
      | Some detail =>
          if truthy_json detail then Fails (thrown_message detail)
          else Fails (generic_message r)
      | None => Fails (generic_message r)
      end
  | JsonOther => Fails (generic_message r)
  | JsonNull => Suspends (AwaitErrorText r)
  | JsonThrows _ => Suspends (AwaitErrorText r)
  end.

(** The continuation after [await response.text()] (lines 207-210). *)
Definition after_error_text (r : Response) : Settlement :=
  match truthy (Some (resp_text r)) with
  | Some text => Fails text
  | None => Fails (generic_message r)
  end.

(** The continuation after [await response.json()] (lines 213-219).
    Reading [agents] throws on [null] only. *)
Definition after_json (r : Response) : Settlement :=
  match resp_json r with
  | JsonObject data => Succeeds data
  | JsonOther => Succeeds no_properties
  | JsonNull => Fails (null_deref_message "agents")
  | JsonThrows m => Fails m
  end.

(** The effect of a continuation on the component state. *)
Definition settle (o : Settlement) (s : State) : State * ReqPc :=
  match o with
  | Suspends pc => (s, pc)
  | Succeeds data => (finally_block (success_block data s), ReqIdle)
  | Fails m => (finally_block (catch_block m s), ReqIdle)
  end.

(** ** The event loop *)

(** The component together with its coroutines: every call of
    [simulateAgentProgress] made so far (one per run, in the order of the
    calls), the one call of [handleAnalyze] that can be in flight, the
    counter of the narration effect, the time of the last transition and
    the requests sent so far. *)
Record World := mkWorld {
  st : State;
  sims : list SimPc;
  req : ReqPc;
  thoughtIndex : nat;
  clock : Z;
  sent : list FormData
}.

Definition initial_world : World :=
  mkWorld initial_state [] ReqIdle 0 0 [].

Definition setClaimedAmount (v : string) (s : State) : State :=
  mkState (file s) v (expectedBank s) (isAnalyzing s)
    (isAnalyzingRef s) (result s) (agents s) (allLogs s) (currentAgentIndex s).

Definition setExpectedBank (v : string) (s : State) : State :=
  mkState (file s) (claimedAmount s) v (isAnalyzing s)
    (isAnalyzingRef s) (result s) (agents s) (allLogs s) (currentAgentIndex s).

Definition with_st (s : State) (w : World) : World :=
  mkWorld s (sims w) (req w) (thoughtIndex w) (clock w) (sent w).

(** [handleAnalyze] up to its first [await] (lines 177-198): the guard,
    the reset, the synchronous part of [simulateAgentProgress] and the
    call of [fetch].  The simulator started here joins those of earlier
    runs that have not returned yet: they share [isAnalyzingRef]. *)
Definition handleAnalyze (now : Z) (rnd : nat -> Q) (w : World) : World :=
  match file (st w) with
  | None => w
  | Some f =>
      if String.eqb (claimedAmount (st w)) "" then w
      else
        let s1 := handleAnalyze_reset (st w) in
        let '(s2, pc) := simulateAgentProgress now rnd s1 in
        mkWorld s2 (sims w ++ [pc]) AwaitFetch (thoughtIndex w) (clock w)
          (sent w ++ [mkFormData f (claimedAmount (st w))
                                   (expectedBank (st w))])
  end.

(** What the event loop can deliver.  [EvSimWake k] is the timer of the
    [k]-th simulator; [EvAnalyze] is a click on the button. *)
Inductive Event :=
| EvSetClaimedAmount (v : string)
| EvSetExpectedBank (v : string)
| EvFileSelect (f : File)
| EvAnalyze (rnd : nat -> Q)
| EvSimWake (k : nat) (rnd : nat -> Q)
| EvNarrTick
| EvFetch (o : FetchOutcome)
| EvBody.

(** The events that run code of a simulator: its timer and the
    narration interval. *)
Definition sim_driven (e : Event) : bool :=
  match e with
  | EvSimWake _ _ | EvNarrTick => true
  | _ => false
  end.

Definition is_analyze (e : Event) : bool :=
  match e with
  | EvAnalyze _ => true
  | _ => false
  end.

(** The continuation of [handleAnalyze] that an event resumes. *)
Definition resume (e : Event) (pc : ReqPc) : option Settlement :=
  match e, pc with
  | EvFetch o, AwaitFetch => Some (after_fetch o)
  | EvBody, AwaitErrorJson r => Some (after_error_json r)
  | EvBody, AwaitErrorText r => Some (after_error_text r)
  | EvBody, AwaitJson r => Some (after_json r)
  | _, _ => None
  end.

(** The code run by event [e] at time [now]; [None] when the event
    cannot occur in [w].  A timer set at [armed] fires no earlier than
    [armed + POLL_MS].  The button is disabled while [isAnalyzing]
    (line 400), so that no request is in flight when [handleAnalyze]
    runs. *)
Definition transition (now : Z) (e : Event) (w : World) : option World :=
  match e with
  | EvSetClaimedAmount v => Some (with_st (setClaimedAmount v (st w)) w)
  | EvSetExpectedBank v => Some (with_st (setExpectedBank v (st w)) w)
  | EvFileSelect f => Some (with_st (handleFileSelect f (st w)) w)
  | EvAnalyze rnd =>
      if isAnalyzing (st w) then None else Some (handleAnalyze now rnd w)
  | EvSimWake k rnd =>
      match sims w !! k with
      | Some (SimDwell i start waitTime armed) =>
          if armed + POLL_MS <=? now then
            let '(s', pc) := sim_wake i start waitTime now rnd (st w) in
            Some (mkWorld s' (<[k := pc]> (sims w)) (req w)
                    (thoughtIndex w) (clock w) (sent w))
          else None
      | _ => None
      end
  | EvNarrTick =>
      match narrate (thoughtIndex w) (st w) with
      | Some s' =>
          Some (mkWorld s' (sims w) (req w) (S (thoughtIndex w)) (clock w)
                  (sent w))
      | None => None
      end
  | EvFetch _ | EvBody =>
      match resume e (req w) with
      | Some o =>
          let '(s', pc) := settle o (st w) in
          Some (mkWorld s' (sims w) pc (thoughtIndex w) (clock w) (sent w))
      | None => None
      end
  end.

(** After the transition React commits: the narration effect is set up
    again, with [thoughtIndex = 0], when [currentAgentIndex] has changed. *)
Definition commit (now : Z) (old : World) (w : World) : World :=
  mkWorld (st w) (sims w) (req w)
    (if currentAgentIndex (st w) =? currentAgentIndex (st old)
     then thoughtIndex w else 0%nat)
    now (sent w).

(** One turn of the event loop at time [now]; time does not go back. *)
Definition step (now : Z) (e : Event) (w : World) : option World :=
  if now <? clock w then None
  else option_map (commit now w) (transition now e w).

(** A sequence of timed events. *)
Fixpoint exec (tr : list (Z * Event)) (w : World) : option World :=
  match tr with
  | [] => Some w
  | (now, e) :: rest =>
      match step now e w with
      | Some w' => exec rest w'
      | None => None
      end
  end.

(** The stage a simulator dwells on, and the stages of the simulators
    that have not returned. *)
Definition dwell_stage (pc : SimPc) : option nat :=
  match pc with
  | SimDwell i _ _ _ => Some i
  | SimIdle => None
  end.

Definition live (l : list SimPc) : list nat := omap dwell_stage l.

(** The timer of a sleeping simulator has not passed its deadline
    [armed + POLL_MS] at time [now]. *)
Definition on_time (now : Z) (pc : SimPc) : bool :=
  match pc with
  | SimDwell _ _ _ armed => now <=? armed + POLL_MS
  | SimIdle => true
  end.

(** Timers are punctual in [w] at time [now]: a turn of the event loop
    taken while a simulator sleeps is taken no later than the deadline of
    its timer. *)
Definition punctual (now : Z) (w : World) : bool :=
  forallb (on_time now) (sims w).

(** [exec] under punctual timers. *)
Fixpoint exec_punctual (tr : list (Z * Event)) (w : World) : option World :=
  match tr with
  | [] => Some w
  | (now, e) :: rest =>
      if punctual now w then
        match step now e w with
        | Some w' => exec_punctual rest w'
        | None => None
        end
      else None
  end.

(** Runs are isolated: the button is pressed only when every simulator
    started before has returned. *)
Definition isolated (e : Event) (w : World) : bool :=
  if is_analyze e then
    match live (sims w) with
    | [] => true
    | _ => false
    end
  else true.

(** [exec] for isolated runs. *)
Fixpoint exec_isolated (tr : list (Z * Event)) (w : World) : option World :=
  match tr with
  | [] => Some w
  | (now, e) :: rest =>
      if isolated e w then
        match step now e w with
        | Some w' => exec_isolated rest w'
        | None => None
        end
      else None
  end.

(** ** Vocabulary of the properties *)

(** The per-stage statuses and logs, in stage order. *)
Definition statuses (s : State) : list Status := status <$> agents s.
Definition stage_logs (s : State) : list (list string) := logs <$> agents s.

(** No stage other than stage [i] has status [running]. *)
Definition only_running (i : nat) (l : list Agent) : Prop :=
  forall j a, l !! j = Some a -> status a = running -> j = i.

(** At most one stage has status [running]. *)
Definition at_most_one_running (l : list Agent) : Prop :=
  forall j k a b,
    l !! j = Some a -> l !! k = Some b ->
    status a = running -> status b = running -> j = k.

(** A stage freshly reset by [handleAnalyze]. *)
Definition fresh (a : Agent) : Prop :=
  status a = pending /\ logs a = [] /\ thinkingText a = "".

(** [s'] shows the same statuses, stage logs, global log and result as [s]. *)
Definition same_verdict (s s' : State) : Prop :=
  statuses s' = statuses s /\ stage_logs s' = stage_logs s /\
  allLogs s' = allLogs s /\ result s' = result s.

(** Every event of the trace runs code of the simulator. *)
Definition all_sim_driven (tr : list (Z * Event)) : Prop :=
  Forall (fun te => sim_driven (snd te) = true) tr.

(** [sub] occurs in [s]: the meaning of [includes]. *)
Definition occurs_in (sub s : string) : Prop :=
  exists pre post, s = pre +:+ sub +:+ post.

(** The stage identifier occurs in the record's name hint when letter
    case is ignored on both sides. *)
Definition name_matches (hint stageId : string) : Prop :=
  occurs_in (toLowerCase stageId) (toLowerCase hint).

(** The message with which [handleAnalyze] throws for a response whose
    status is not a success (lines 200-211): the composition of the
    continuations [after_error_json] and [after_error_text]. *)
Definition http_error_message (r : Response) : option string :=
  match after_error_json r with
  | Fails m => Some m
  | Suspends (AwaitErrorText r') =>
      match after_error_text r' with
      | Fails m => Some m
      | _ => None
      end
  | _ => None
  end.

(** The raw text of the body, and the generic string if it is empty. *)
Definition text_or_generic (r : Response) : string :=
  if String.eqb (resp_text r) "" then generic_message r else resp_text r.

(** The precedence as the specification words it: the [detail] field of
    the parsed body if present; otherwise the raw text; the generic string
    only if that text is empty. *)
Definition claimed_error_message (r : Response) : string :=
  match resp_json r with
  | JsonObject errorData =>
      match data_detail errorData with
      | Some detail => thrown_message detail
      | None => text_or_generic r
      end
  | _ => text_or_generic r
  end.

(** The precedence the code implements.  The body parses to a value
    other than [null]: the [detail] of that value, converted to a string,
    when it has one that is truthy; the generic string when it has none,
    or one that is falsy (the empty string, 0, [false], [null]), and so
    for every body that is a string, a number, a boolean or an array.
    The body does not parse, or is [null]: the raw text, and the generic
    string if that text is empty. *)
Definition settled_error_message (r : Response) : string :=
  match resp_json r with
  | JsonObject errorData =>
      match data_detail errorData with
      | Some detail =>
          if truthy_json detail then thrown_message detail
          else generic_message r
      | None => generic_message r
      end
  | JsonOther => generic_message r
  | JsonNull | JsonThrows _ => text_or_generic r
  end.

(** The outcomes of the request that are failures, each with its
    message: [fetch] rejects (the reason given); the status is not a
    success (the message of the error payload); the status is a success
    and the body does not parse (the parser's message) or is [null] (the
    [TypeError] of line 219).  [None] for the other outcomes. *)
Definition failure_message (o : FetchOutcome) : option string :=
  match o with
  | FetchRejects m => Some m
  | FetchResolves r =>
      if ok r then
        match resp_json r with
        | JsonThrows m => Some m
        | JsonNull => Some (null_deref_message "agents")
        | JsonObject _ | JsonOther => None
        end
      else Some (settled_error_message r)
  end.

(** The outcomes that are successes, each with what the code reads from
    its body: the status is a success and the body parses to a value
    other than [null]. *)
Definition success_payload (o : FetchOutcome) : option Payload :=
  match o with
  | FetchRejects _ => None
  | FetchResolves r =>
      if ok r then
        match resp_json r with
        | JsonObject data => Some data
        | JsonOther => Some no_properties
        | JsonNull | JsonThrows _ => None
        end
      else None
  end.

(** The body of an error response has the shape the dashboard expects, or
    is no object at all: a [detail], if there is one, is a string. *)
Definition expected_error_payload (r : Response) : bool :=
  match resp_json r with
  | JsonObject errorData =>
      match data_detail errorData with
      | Some (JString _) | None => true
      | Some _ => false
      end
  | _ => true
  end.

(** The request is suspended at a read of the body of the response that
    [fetch] resolved with in [o]. *)
Definition reading (o : FetchOutcome) (pc : ReqPc) : Prop :=
  match o, pc with
  | FetchResolves r, AwaitJson r' => ok r = true /\ r' = r
  | FetchResolves r, AwaitErrorJson r' => ok r = false /\ r' = r
  | FetchResolves r, AwaitErrorText r' =>
      ok r = false /\ r' = r /\
      after_error_json r = Suspends (AwaitErrorText r)
  | _, _ => False
  end.

(** One turn of simulator code on the component state: a firing of a
    simulator's timer or of the narration interval. *)
Definition sim_turn (s s' : State) : Prop :=
  (exists i start wt now rnd pc, sim_wake i start wt now rnd s = (s', pc)) \/
  (exists k, narrate k s = Some s').

(** The events between the settlement of [fetch] and the end of the
    request: reads of the body, and turns of simulator code. *)
Definition awaiting_body (tr : list (Z * Event)) : Prop :=
  Forall (fun te => snd te = EvBody \/ sim_driven (snd te) = true) tr.

(** ** Invariants of the event loop *)

Definition none_running (l : list Agent) : Prop :=
  forall j a, l !! j = Some a -> status a <> running.

(** With one simulator alive, dwelling on stage [i], only that stage can
    be [running]; with none alive at most one stage is. *)
Definition discipline_of (alive : list nat) (l : list Agent) : Prop :=
  match alive with
  | [] => at_most_one_running l
  | [i] => only_running i l
  | _ => False
  end.

Definition stage_discipline (w : World) : Prop :=
  discipline_of (live (sims w)) (agents (st w)).

(** The timer of a sleeping simulator was set no later than [t]. *)
Definition armed_by (t : Z) (pc : SimPc) : Prop :=
  match pc with
  | SimDwell _ _ _ armed => armed <= t
  | SimIdle => True
  end.

(** Pending timers were set in the past; without a simulator alive no
    stage is active. *)
Definition timer_discipline (w : World) : Prop :=
  Forall (armed_by (clock w)) (sims w) /\
  (live (sims w) = [] -> currentAgentIndex (st w) = -1).

(** No event of the trace starts a new run. *)
Definition no_new_run (tr : list (Z * Event)) : Prop :=
  Forall (fun te => is_analyze (snd te) = false) tr.

(** After cancellation: the flag is cleared, the simulators still alive
    sleep on timers set no later than [t], and without a simulator alive
    no stage is active. *)
Definition winding_down (t : Z) (w : World) : Prop :=
  isAnalyzingRef (st w) = false /\
  Forall (armed_by t) (sims w) /\
  (live (sims w) = [] -> currentAgentIndex (st w) = -1).

(** ** Sample runs *)

Definition receipt : File := mkFile "receipt.png" "image/png".

(** Every draw of [Math.random()] is 1/2: each dwell lasts 2500 ms. *)
Definition steady : nat -> Q := fun _ => (1 # 2)%Q.

(** [n] firings of the simulator's timer, 100 ms apart, after [t0]. *)
Fixpoint polls (t0 : Z) (n : nat) : list (Z * Event) :=
  match n with
  | O => []
  | S k => (t0 + POLL_MS, EvSimWake 0 steady) :: polls (t0 + POLL_MS) k
  end.

(** The user picks a file, types an amount and presses the button. *)
Definition start_run : list (Z * Event) :=
  [ (0, EvFileSelect receipt);
    (1, EvSetClaimedAmount "5000");
    (2, EvAnalyze steady) ].

Definition world_after (tr : list (Z * Event)) : World :=
  default initial_world (exec tr initial_world).

(** A run whose request is rejected at 2510 ms, while the simulator
    sleeps in the dwell of stage 1. *)
Definition interrupted_run : list (Z * Event) :=
  start_run ++ polls 2 25
    ++ [ (2510, EvFetch (FetchRejects "Failed to fetch")) ].

Definition dq : string := String (ascii_of_nat 34) "".

(** A 200 response whose body is an object with a [logs] array only. *)
Definition logs_only_response : Response :=
  mkResponse 200 "OK"
    (JsonObject (mkPayload None None (Some ["Scan complete"]) None))
    ("{" +:+ dq +:+ "logs" +:+ dq +:+ ":[" +:+ dq +:+ "Scan complete"
       +:+ dq +:+ "]}").

(** A run whose request resolves with that response at 500 ms. *)
Definition logs_only_run : list (Z * Event) :=
  start_run ++ polls 2 4
    ++ [ (500, EvFetch (FetchResolves logs_only_response)) ].

(** A 500 response whose body is the empty JSON object. *)
Definition empty_object_response : Response :=
  mkResponse 500 "Internal Server Error"
    (JsonObject (mkPayload None None None None)) "{}".

(** A 422 response whose [detail] is an array holding one object. *)
Definition validation_error_response : Response :=
  mkResponse 422 "Unprocessable Entity"
    (JsonObject (mkPayload
       (Some (JArray [ JObject [ ("loc", JArray [JString "body";
                                                 JString "image"]);
                                 ("msg", JString "Field required");
                                 ("type", JString "missing") ] ]))
       None None None))
    ("{" +:+ dq +:+ "detail" +:+ dq +:+ ":[{"
         +:+ dq +:+ "loc" +:+ dq +:+ ":["
         +:+ dq +:+ "body" +:+ dq +:+ "," +:+ dq +:+ "image" +:+ dq +:+ "],"
         +:+ dq +:+ "msg" +:+ dq +:+ ":" +:+ dq +:+ "Field required" +:+ dq
         +:+ ","
         +:+ dq +:+ "type" +:+ dq +:+ ":" +:+ dq +:+ "missing" +:+ dq
         +:+ "}]}").

(** A 500 response whose [detail] is the empty array. *)
Definition empty_detail_response : Response :=
  mkResponse 500 "Internal Server Error"
    (JsonObject (mkPayload (Some (JArray [])) None None None))
    ("{" +:+ dq +:+ "detail" +:+ dq +:+ ":[]}").

(** A 500 response whose [detail] is an array of mixed values, and one
    whose [detail] is an object with a member [toString]. *)
Definition mixed_detail_response : Response :=
  mkResponse 500 "Internal Server Error"
    (JsonObject (mkPayload
       (Some (JArray [ JNumber "1"; JNull; JArray [JBool true; JString "a"];
                       JObject [] ]))
       None None None))
    ("{" +:+ dq +:+ "detail" +:+ dq +:+ ":[1,null,[true,"
         +:+ dq +:+ "a" +:+ dq +:+ "],{}]}").

Definition shadowing_detail_response : Response :=
  mkResponse 500 "Internal Server Error"
    (JsonObject (mkPayload (Some (JObject [("toString", JNumber "1")]))
       None None None))
    ("{" +:+ dq +:+ "detail" +:+ dq +:+ ":{"
         +:+ dq +:+ "toString" +:+ dq +:+ ":1}}").

(** A 400 response whose [detail] is the empty string. *)
Definition blank_detail_response : Response :=
  mkResponse 400 "Bad Request"
    (JsonObject (mkPayload (Some (JString "")) None None None))
    ("{" +:+ dq +:+ "detail" +:+ dq +:+ ":" +:+ dq +:+ dq +:+ "}").

(** A 502 response whose body is the number 5, one whose body is
    [null], and a 504 response whose body is no JSON text. *)
Definition number_body_response : Response :=
  mkResponse 502 "Bad Gateway" JsonOther "5".

Definition null_body_response : Response :=
  mkResponse 500 "Internal Server Error" JsonNull "null".

Definition plain_text_response : Response :=
  mkResponse 504 "Gateway Timeout"
    (JsonThrows "Unexpected token 'u'") "upstream timed out".

(** Two 200 responses: one with an empty body, which does not parse, and
    one whose body is the number 5. *)
Definition unparsable_response : Response :=
  mkResponse 200 "OK" (JsonThrows "Unexpected end of JSON input") "".

Definition number_response : Response :=
  mkResponse 200 "OK" JsonOther "5".

(** The run up to the turn at 2402 ms (stage 0 still dwelling), up to the
    turn at 2502 ms (stage 0 complete, stage 1 running), and what follows
    the rejection: a narration tick, then the simulator's timer. *)
Definition stage0_run : list (Z * Event) := start_run ++ polls 2 24.
Definition stage1_run : list (Z * Event) := start_run ++ polls 2 25.
Definition wind_down : list (Z * Event) :=
  [ (2550, EvNarrTick); (2602, EvSimWake 0 steady) ].

(** The 422 response arrives at 2510 ms, while the simulator dwells on
    stage 1; its body is read at 2560 ms, after a narration tick, and the
    simulator's timer fires at 2602 ms. *)
Definition late_error_tail : list (Z * Event) :=
  [ (2550, EvNarrTick); (2560, EvBody); (2602, EvSimWake 0 steady) ].

Definition late_error_run : list (Z * Event) :=
  stage1_run
    ++ (2510, EvFetch (FetchResolves validation_error_response))
    :: late_error_tail.

Definition quoted (s : string) : string := dq +:+ s +:+ dq.
Definition member (k v : string) : string := quoted k +:+ ":" +:+ v.

Definition sample_analysis : AnalysisResult :=
  mkAnalysisResult 85 "HIGH RISK" [] "Edited receipt" None true 40 55.

Definition sample_analysis_json : string :=
  "{" +:+ member "risk_score" "85" +:+ ","
      +:+ member "verdict" (quoted "HIGH RISK") +:+ ","
      +:+ member "flags" "[]" +:+ ","
      +:+ member "explanation" (quoted "Edited receipt") +:+ ","
      +:+ member "is_edited" "true" +:+ ","
      +:+ member "font_consistency_score" "40" +:+ ","
      +:+ member "alignment_score" "55" +:+ "}".

(** A 200 response with records for the privacy and the vision stage. *)
Definition records_response : Response :=
  mkResponse 200 "OK"
    (JsonObject (mkPayload None
       (Some [ mkBackendAgent "Agent Privacy" (Some ["No PII found"]);
               mkBackendAgent "AGENT VISION v2" (Some ["Fonts differ"]) ])
       None (Some sample_analysis)))
    ("{" +:+ member "analysis" sample_analysis_json +:+ ","
         +:+ member "agents"
               ("[{" +:+ member "name" (quoted "Agent Privacy") +:+ ","
                     +:+ member "logs" ("[" +:+ quoted "No PII found" +:+ "]")
                +:+ "},{"
                     +:+ member "name" (quoted "AGENT VISION v2") +:+ ","
                     +:+ member "logs" ("[" +:+ quoted "Fonts differ" +:+ "]")
                +:+ "}]")
         +:+ "}").

Definition records_run : list (Z * Event) :=
  start_run ++ polls 2 4
    ++ [ (500, EvFetch (FetchResolves records_response)) ].

(** A 200 response with the analysis only. *)
Definition analysis_only_response : Response :=
  mkResponse 200 "OK"
    (JsonObject (mkPayload None None None (Some sample_analysis)))
    ("{" +:+ member "analysis" sample_analysis_json +:+ "}").

Definition analysis_only_run : list (Z * Event) :=
  start_run ++ polls 2 4
    ++ [ (500, EvFetch (FetchResolves analysis_only_response)) ].

(** A run whose request resolves at 300 ms with the 500 response. *)
Definition error_status_run : list (Z * Event) :=
  start_run ++ [ (300, EvFetch (FetchResolves empty_object_response)) ].

(** The button pressed again at 2520 ms, ten milliseconds after the
    rejection, while the first simulator still sleeps. *)
Definition restarted_run : list (Z * Event) :=
  interrupted_run ++ [ (2520, EvAnalyze steady) ].

(** [n] rounds of both timers, each 100 ms after it was set. *)
Fixpoint polls_both (t0 : Z) (n : nat) : list (Z * Event) :=
  match n with
  | O => []
  | S k =>
      (t0 + POLL_MS, EvSimWake 0 steady)
        :: (t0 + POLL_MS + 18, EvSimWake 1 steady)
        :: polls_both (t0 + POLL_MS) k
  end.

(** The restarted run up to 5002 ms, when the dwell that the first
    simulator began at 2502 ms is over. *)
Definition overlapping_run : list (Z * Event) :=
  restarted_run ++ polls_both 2502 24 ++ [ (5002, EvSimWake 0 steady) ].

(** The same run before its last turn, and the part of it that follows
    the rejection of 2510 ms. *)
Definition stale_dwell_run : list (Z * Event) :=
  restarted_run ++ polls_both 2502 24.

Definition after_rejection : list (Z * Event) :=
  (2520, EvAnalyze steady) :: polls_both 2502 24.

(** ** Other ways to select a file (lines 117-135 and 314) *)

(** [s.startsWith(p)]. *)
Definition startsWith (s p : string) : bool := String.prefix p s.

(** [handleDrop], for the list [e.dataTransfer.files]: a missing first
    file is [undefined], which is falsy. *)
Definition handleDrop (files : list File) (s : State) : State :=
  match files !! 0%nat with
  | Some droppedFile =>
      if startsWith (file_type droppedFile) "image/"
      then handleFileSelect droppedFile s
      else s
  | None => s
  end.

(** The [onChange] handler of the file input (line 314);
    [e.target.files] may be [null]. *)
Definition handleChange (files : option (list File)) (s : State) : State :=
  match files with
  | Some l =>
      match l !! 0%nat with
      | Some f => handleFileSelect f s
      | None => s
      end
  | None => s
  end.

(** The argument of [loadSampleReceipt]. *)
Inductive SampleType := original | edited.

Definition sample_type_text (type : SampleType) : string :=
  match type with
  | original => "original"
  | edited => "edited"
  end.

(** Line 118. *)
Definition sample_filename (type : SampleType) : string :=
  match type with
  | original => "/original_receipt.png"
  | edited => "/edited_receipt.png"
  end.

(** Line 122: [new File([blob], `${type}_receipt.png`, { type: 'image/png' })]. *)
Definition sample_file (type : SampleType) : File :=
  mkFile (sample_type_text type +:+ "_receipt.png") "image/png".

(** How the two [await]s of [loadSampleReceipt] end: [fetch] rejects, or
    [response.blob()] rejects, or the blob arrives.  The status of the
    response is not inspected. *)
Inductive SampleOutcome :=
| SampleFetchRejects
| SampleBlobRejects
| SampleBlobResolves (r : Response).

(** [loadSampleReceipt] (lines 117-127), on the state in which its
    continuation runs; the [catch] block only writes to the console. *)
Definition loadSampleReceipt (type : SampleType) (o : SampleOutcome)
    (s : State) : State :=
  match o with
  | SampleBlobResolves _ => handleFileSelect (sample_file type) s
  | SampleFetchRejects | SampleBlobRejects => s
  end.

(** ** What the render shows (lines 252-256, 400, 454-466, 494-499 and
    521-528) *)

(** The [disabled] attribute of the Analyze button (line 400). *)
Definition analyze_disabled (s : State) : bool :=
  match file s with
  | None => true
  | Some _ => String.eqb (claimedAmount s) "" || isAnalyzing s
  end.

(** The text of a stage card (lines 456-464); the narration is shown,
    beside a spinner, only while the stage is running. *)
Definition card_text (a : Agent) : string :=
  match status a with
  | pending => "Standby..."
  | running => thinkingText a
  | complete => "✓ Complete"
  | error => "✕ Failed"
  end.

(** [getRiskColor] (lines 252-256). *)
Definition getRiskColor (score : Q) : string :=
  if Qle_bool score 20 then "border-green-500 text-green-600 bg-green-50"
  else if Qle_bool score 75 then "border-amber-500 text-amber-600 bg-amber-50"
  else "border-red-500 text-red-600 bg-red-50".

(** [a > b] on numbers. *)
Definition Qgt_bool (a b : Q) : bool := negb (Qle_bool a b).

(** The class of the score ring (line 523) and of the score digits
    (line 526). *)
Definition score_ring (score : Q) : string :=
  if Qgt_bool score 75 then "border-red-100"
  else if Qgt_bool score 20 then "border-amber-100"
  else "border-green-100".

Definition score_digits (score : Q) : string :=
  if Qgt_bool score 75 then "text-red-500"
  else if Qgt_bool score 20 then "text-amber-500"
  else "text-green-500".

(** [String(i)] for an array index. *)
Definition String_of_index (i : nat) : string :=
  NilZero.string_of_uint (Nat.to_uint i).

(** [n] copies of [p], one after the other. *)
Fixpoint repeat_string (n : nat) (p : string) : string :=
  match n with
  | O => ""
  | S k => p +:+ repeat_string k p
  end.

(** [s.padStart(targetLength, padString)]: [s] itself when it is long
    enough or the filler is empty; otherwise the filler, repeated and cut
    to the missing length, followed by [s]. *)
Definition padStart (targetLength : nat) (padString : string) (s : string)
    : string :=
  let fillLen := (targetLength - String.length s)%nat in
  if (fillLen =? 0)%nat || String.eqb padString "" then s
  else String.substring 0 fillLen (repeat_string fillLen padString) +:+ s.

(** The label of line [i] of the execution log (line 496). *)
Definition log_label (i : nat) : string :=
  "[" +:+ padStart 3 "0" (String_of_index i) +:+ "]".

(** The rows of the execution log (lines 494-499). *)
Definition log_rows (l : list string) : list (string * string) :=
  imap (fun i log => (log_label i, log)) l.

(** ** Vocabulary of the further properties *)

(** No stage has status [error]; every stage has. *)
Definition none_error (s : State) : Prop :=
  Forall (fun a => status a <> error) (agents s).

Definition all_error (s : State) : Prop :=
  Forall (fun a => status a = error) (agents s).

(** The simulator reads the run flags and the result but never writes
    them, and it gives no stage the status [error]. *)
Definition sim_frame (s s' : State) : Prop :=
  isAnalyzing s' = isAnalyzing s /\ isAnalyzingRef s' = isAnalyzingRef s /\
  result s' = result s /\ file s' = file s /\
  claimedAmount s' = claimedAmount s /\ expectedBank s' = expectedBank s /\
  (none_error s -> none_error s').

(** The run flags, the request and the stage verdicts of a reachable
    world. *)
Definition run_state (s : State) (r : ReqPc) : Prop :=
  isAnalyzingRef s = isAnalyzing s /\
  (isAnalyzing s = true <-> r <> ReqIdle) /\
  (isAnalyzing s = true -> result s = None /\ none_error s) /\
  (all_error s \/ none_error s).

(** The identity of a stage: what no code of the component writes. *)
Definition identity (a : Agent) : string * string * string :=
  (id a, icon a, name a).

(** The active index after a stretch of the simulator over stages below
    [N]: unchanged, or none, or one of those stages. *)
Definition index_below (N : nat) (s s' : State) : Prop :=
  currentAgentIndex s' = currentAgentIndex s \/
  -1 <= currentAgentIndex s' < Z.of_nat N.

(** The stages are the three of the dashboard and the active index is
    none or one of them. *)
Definition stages_in_place (s : State) : Prop :=
  identity <$> agents s = identity <$> initial_agents /\
  -1 <= currentAgentIndex s < 3.

(** The failure narration is only on stages marked [error], and on none
    while the simulator's flag is set. *)
Definition failure_hidden (s : State) : Prop :=
  (isAnalyzingRef s = true ->
   Forall (fun a => thinkingText a <> FAILED_MARKER) (agents s)) /\
  Forall (fun a => thinkingText a = FAILED_MARKER -> status a = error)
    (agents s).

(** The simulator writes the done marker at most, and to a stage it marks
    [complete]. *)
Definition sim_keeps_hidden (s s' : State) : Prop :=
  isAnalyzingRef s' = isAnalyzingRef s /\
  (Forall (fun a => thinkingText a <> FAILED_MARKER) (agents s) ->
   Forall (fun a => thinkingText a <> FAILED_MARKER) (agents s')).

(** The user has picked a file and typed an amount. *)
Definition ready_run : list (Z * Event) :=
  [ (0, EvFileSelect receipt); (1, EvSetClaimedAmount "5000") ].

(** Another file is selected at 2510 ms, while the run is in progress. *)
Definition other_file : File := mkFile "other.png" "image/png".

Definition reselect_run : list (Z * Event) :=
  stage1_run ++ [ (2510, EvFileSelect other_file) ].

(** [n] firings of the timer of simulator [k], the first at
    [t0 + POLL_MS] and each [POLL_MS] after the one before. *)
Fixpoint ticks (k : nat) (rnd : nat -> Q) (t0 : Z) (n : nat)
    : list (Z * Event) :=
  match n with
  | O => []
  | S m => (t0 + POLL_MS, EvSimWake k rnd) :: ticks k rnd (t0 + POLL_MS) m
  end.

(** ** The tour in front of the dashboard ([Onboarding.tsx], [page.tsx]) *)

Module Onboarding.

Record SlideAgent := mkSlideAgent {
  icon : string;
  name : string;
  role : string
}.

(** A slide of the tour; a property that a literal of [slides] leaves
    out reads as [undefined], here [None]. *)
Record Slide := mkSlide {
  title : string;
  subtitle : string;
  description : string;
  slide_icon : option string;
  agents : option (list SlideAgent);
  isFinal : option bool
}.

(** [Onboarding.tsx], lines 11-41. *)
Definition slides : list Slide :=
  [ mkSlide "Deriv P2P Sentinel" "AI-Powered Receipt Fraud Detection"
      "Protect your P2P trades with multi-agent intelligence."
      (Some "🛡️") None None;
    mkSlide "The Problem" "Fake Screenshots Are Everywhere"
      "Scammers upload photoshopped bank receipts to steal your money. Manual review is slow and error-prone."
      (Some "⚠️") None None;
    mkSlide "Meet the Agents" "Three Specialized AI Investigators"
      "Each agent analyzes a different aspect of the receipt — metadata, privacy, and visual forensics."
      None
      (Some [ mkSlideAgent "🕵️" "Agent Meta" "Metadata Forensics";
              mkSlideAgent "🔒" "Agent Privacy" "PII Redaction";
              mkSlideAgent "🧠" "Agent Vision" "Visual Analysis" ])
      None;
    mkSlide "Try It Now" "Upload a Receipt to Analyze"
      "See real-time forensic analysis with risk scoring."
      (Some "🚀") None (Some true) ].

(** The state of [Home] ([page.tsx], line 8) and of the [Onboarding] it
    renders ([Onboarding.tsx], line 44). *)
Record Home := mkHome {
  showDashboard : bool;
  currentSlide : nat
}.

Definition initial_home : Home := mkHome false 0.

(** The callback [() => setShowDashboard(true)] ([page.tsx], line 11). *)
Definition onComplete (h : Home) : Home := mkHome true (currentSlide h).

(** [nextSlide] and [prevSlide] ([Onboarding.tsx], lines 47-59). *)
Definition nextSlide (h : Home) : Home :=
  if (currentSlide h <? length slides - 1)%nat
  then mkHome (showDashboard h) (currentSlide h + 1)
  else onComplete h.

Definition prevSlide (h : Home) : Home :=
  if (0 <? currentSlide h)%nat
  then mkHome (showDashboard h) (currentSlide h - 1)
  else h.

(** [const slide = slides[currentSlide]] (line 45). *)
Definition slide (h : Home) : option Slide := slides !! currentSlide h.

(** Truthiness of [slide.isFinal]. *)
Definition is_final (s : Slide) : bool := default false (isFinal s).

(** The three controls of the tour. *)
Inductive Control := Next | Back | Skip.

(** Whether a control is on the page: [Home] renders the tour until
    [showDashboard] is set ([page.tsx], lines 10-14); the tour renders
    the Back button from the second slide on (line 112), the Next button
    always (line 117) and the Skip link except on the final slide
    (line 124).
    Reading a property of a missing slide would throw. *)
Definition rendered (c : Control) (h : Home) : option bool :=
  if showDashboard h then Some false
  else
    match slide h with
    | None => None
    | Some s =>
        Some match c with
             | Next => true
             | Back => (0 <? currentSlide h)%nat
             | Skip => negb (is_final s)
             end
    end.

(** The caption of the Next button (line 118). *)
Definition next_caption (s : Slide) : string :=
  if is_final s then "Start Analysis →" else "Next →".

(** A click on a control that is on the page. *)
Definition click (c : Control) (h : Home) : option Home :=
  match rendered c h with
  | Some true =>
      Some match c with
           | Next => nextSlide h
           | Back => prevSlide h
           | Skip => onComplete h
           end
  | _ => None
  end.

Fixpoint clicks (cs : list Control) (h : Home) : option Home :=
  match cs with
  | [] => Some h
  | c :: rest =>
      match click c h with
      | Some h' => clicks rest h'
      | None => None
      end
  end.

End Onboarding.

(** ** The dot grid of the background ([ParticleDots.tsx], lines 6-53) *)

Module ParticleDots.

(** Numbers are rationals here; the canvas sizes are unsigned integers,
    on which the divisions and products of the grid are exact. *)
Record Particle := mkParticle {
  x : Q;
  y : Q;
  baseX : Q;
  baseY : Q;
  size : Q;
  opacity : Q;
  speed : Q
}.

Definition spacing : Q := 70.

(** [Math.ceil(n / spacing)], the number of columns or of rows for a
    canvas [n] pixels wide or high (lines 37-38). *)
Definition cells (n : N) : nat :=
  Z.to_nat (Qceiling (inject_Z (Z.of_N n) / spacing)).

(** The object pushed for column [i] and row [j] (lines 42-50); [r1] and
    [r2] are the two draws of [Math.random()], in the order of the
    literal. *)
Definition particle (i j : nat) (r1 r2 : Q) : Particle :=
  let px := (inject_Z (Z.of_nat i) * spacing + spacing / 2)%Q in
  let py := (inject_Z (Z.of_nat j) * spacing + spacing / 2)%Q in
  mkParticle px py px py (12 # 10)
    ((8 # 100) + r1 * (4 # 100))%Q ((2 # 100) + r2 * (2 # 100))%Q.

(** [initParticles] (lines 34-53) for a canvas of the given size: the
    array it leaves in [particlesRef.current]; [rnd k] is the draw number
    [k] of [Math.random()] made by the call. *)
Definition initParticles (width height : N) (rnd : nat -> Q)
    : list Particle :=
  let cols := cells width in
  let rows := cells height in
  flat_map (fun i =>
    map (fun j => particle i j (rnd (2 * (i * rows + j))%nat)
                               (rnd (2 * (i * rows + j) + 1)%nat))
        (seq 0 rows))
    (seq 0 cols).

End ParticleDots.

(** ** The clock of the overlay ([HudOverlay.tsx], lines 11-14) *)

Module HudOverlay.

(** [s.split(sep)] for a separator of one character: the pieces of [s]
    between the occurrences of [sep], in order; at least one piece. *)
Fixpoint split (sep : ascii) (s : string) : list string :=
  match s with
  | EmptyString => [EmptyString]
  | String c rest =>
      if Ascii.eqb c sep then EmptyString :: split sep rest
      else match split sep rest with
           | piece :: pieces => String c piece :: pieces
           | [] => [String c EmptyString]
           end
  end.

(** A [Date] is its time value, the milliseconds since the epoch.  The
    time of day in UTC. *)
Definition HourFromTime (t : Z) : Z := (t / 3600000) mod 24.
Definition MinFromTime (t : Z) : Z := (t / 60000) mod 60.
Definition SecFromTime (t : Z) : Z := (t / 1000) mod 60.
Definition msFromTime (t : Z) : Z := t mod 1000.

(** The day number of [t] and the civil date (year, month, day of the
    month) of a day number in the proleptic Gregorian calendar. *)
Definition Day (t : Z) : Z := t / 86400000.

Definition civil (day : Z) : Z * Z * Z :=
  let z := day + 719468 in
  let era := z / 146097 in
  let doe := z - era * 146097 in
  let yoe := (doe - doe / 1460 + doe / 36524 - doe / 146096) / 365 in
  let doy := doe - (365 * yoe + yoe / 4 - yoe / 100) in
  let mp := (5 * doy + 2) / 153 in
  let d := doy - (153 * mp + 2) / 5 + 1 in
  let m := if mp <? 10 then mp + 3 else mp - 9 in
  (if m <=? 2 then yoe + era * 400 + 1 else yoe + era * 400, m, d).

(** A number in decimal, padded with zeros to [width] digits. *)
Definition digits (width : nat) (n : Z) : string :=
  padStart width "0" (String_of_index (Z.to_nat n)).

(** The year of an ISO string: four digits from 0 to 9999, otherwise
    a sign and six digits. *)
Definition year_text (y : Z) : string :=
  if (0 <=? y) && (y <=? 9999) then digits 4 y
  else (if y <? 0 then "-" else "+") +:+ digits 6 (Z.abs y).

(** [date.toISOString()]: [YYYY-MM-DDTHH:mm:ss.sssZ]. *)
Definition toISOString (t : Z) : string :=
  let '(y, m, d) := civil (Day t) in
  year_text y +:+ "-" +:+ digits 2 m +:+ "-" +:+ digits 2 d +:+ "T"
    +:+ digits 2 (HourFromTime t) +:+ ":" +:+ digits 2 (MinFromTime t)
    +:+ ":" +:+ digits 2 (SecFromTime t) +:+ "." +:+ digits 3 (msFromTime t)
    +:+ "Z".

(** [updateTime] (lines 11-14), for the time value [t] of [new Date()]:
    the text passed to [setTime]; [None] stands for the [TypeError] of
    calling [split] on a missing array entry. *)
Definition updateTime (t : Z) : option string :=
  match split "T" (toISOString t) !! 1%nat with
  | Some rest =>
      match split "." rest !! 0%nat with
      | Some hms => Some (hms +:+ " UTC")
      | None => None
      end
  | None => None
  end.

End HudOverlay.

(** ** Vocabulary of the properties of the clock *)

(** [c] does not occur in [s]. *)
Fixpoint free_of (c : ascii) (s : string) : bool :=
  match s with
  | EmptyString => true
  | String a rest => negb (Ascii.eqb a c) && free_of c rest
  end.

(** [c] is none of the characters of an ISO date, digits and signs. *)
Definition iso_free (c : ascii) : Prop := free_of c "0123456789-+" = true.

(** The text between the [T] and the dot of an ISO string. *)
Definition hms (t : Z) : string :=
  HudOverlay.digits 2 (HudOverlay.HourFromTime t) +:+ ":"
    +:+ HudOverlay.digits 2 (HudOverlay.MinFromTime t) +:+ ":"
    +:+ HudOverlay.digits 2 (HudOverlay.SecFromTime t).

(** * Properties *)

Section Strings.

Lemma prefix_occurs sub : forall s,
  String.prefix sub s = true <-> exists post, s = sub +:+ post.
Proof.
  induction sub as [|c sub IH]; intros s.
  - split; [intros _; by exists s | by destruct s].
  - destruct s as [|d s]; cbn.
    + split; [done | intros [post [=]]].
    + destruct (Ascii.ascii_dec c d) as [->|Hne].
      * rewrite IH. split; intros [post Hp]; exists post; [by rewrite Hp | by injection Hp].
      * split; [done | intros [post [= ? ?]]; congruence].
Qed.

Lemma includes_unfold s sub :
  includes s sub =
  if String.prefix sub s then true
  else match s with
       | EmptyString => false
       | String _ rest => includes rest sub
       end.
Proof. by destruct s. Qed.

Lemma includes_occurs sub : forall s,
  includes s sub = true <-> occurs_in sub s.
Proof.
  unfold occurs_in.
  induction s as [|c s IH]; rewrite includes_unfold;
    destruct (String.prefix sub _) eqn:Hp.
  - apply prefix_occurs in Hp as [post Hp]. split; [|done]. intros _.
    by exists "", post.
  - split; [done|]. intros (pre & post & H).
    destruct pre; cbn in H; [|done].
    assert (String.prefix sub "" = true) as Hq; [|congruence].
    apply prefix_occurs. by exists post.
  - apply prefix_occurs in Hp as [post Hp]. split; [|done]. intros _.
    by exists "", post.
  - rewrite IH. split.
    + intros (pre & post & ->). by exists (String c pre), post.
    + intros (pre & post & H). destruct pre as [|d pre]; cbn in H.
      * assert (String.prefix sub (String c s) = true) as Hq; [|congruence].
        apply prefix_occurs. by exists post.
      * injection H as -> ->. by exists pre, post.
Qed.

Lemma includes_name_matches hint stageId :
  toLowerCase stageId = stageId ->
  includes (toLowerCase hint) stageId = true <-> name_matches hint stageId.
Proof. intros H. unfold name_matches. rewrite H. apply includes_occurs. Qed.

End Strings.

Section Frames.

Lemma statuses_imap (f : nat -> Agent -> Agent) (l : list Agent) :
  (forall i a, status (f i a) = status a) ->
  status <$> imap f l = status <$> l.
Proof.
  intros Hf. apply list_eq. intros i.
  rewrite !list_lookup_fmap, list_lookup_imap.
  destruct (l !! i) as [a|]; simpl; [by rewrite Hf | done].
Qed.

Lemma logs_imap (f : nat -> Agent -> Agent) (l : list Agent) :
  (forall i a, logs (f i a) = logs a) ->
  logs <$> imap f l = logs <$> l.
Proof.
  intros Hf. apply list_eq. intros i.
  rewrite !list_lookup_fmap, list_lookup_imap.
  destruct (l !! i) as [a|]; simpl; [by rewrite Hf | done].
Qed.

Lemma sim_while_cancelled i start wt now next s :
  isAnalyzingRef s = false ->
  sim_while i start wt now next s = sim_exit s.
Proof. intros H. unfold sim_while. rewrite H. simpl. by destruct (dwelling _ _ _). Qed.

Lemma sim_wake_cancelled i start wt now rnd s :
  isAnalyzingRef s = false ->
  sim_wake i start wt now rnd s = (setCurrentAgentIndex (-1) s, SimIdle).
Proof. intros H. unfold sim_wake. by rewrite sim_while_cancelled. Qed.

Lemma narrate_frame k s s' :
  narrate k s = Some s' ->
  statuses s' = statuses s /\ stage_logs s' = stage_logs s /\
  allLogs s' = allLogs s /\ result s' = result s /\
  isAnalyzingRef s' = isAnalyzingRef s /\
  currentAgentIndex s' = currentAgentIndex s /\
  length (agents s') = length (agents s).
Proof.
  unfold narrate. case_match; [done|].
  destruct (agents s !! _) as [cur|]; [|done].
  destruct (AGENT_THINKING _) as [th|]; [|done].
  intros [= <-]. unfold statuses, stage_logs. cbn.
  rewrite length_imap.
  split_and!; try done.
  - apply statuses_imap. intros i a. by case_match.
  - apply logs_imap. intros i a. by case_match.
Qed.

End Frames.

Section Frozen.

Lemma step_inv now e w w' :
  step now e w = Some w' ->
  exists w1, transition now e w = Some w1 /\ w' = commit now w w1 /\ clock w <= now.
Proof.
  unfold step. case_match eqn:Hc; [done|].
  destruct (transition now e w) as [w1|]; [|done].
  intros [= <-]. exists w1. split_and!; try done. lia.
Qed.

Lemma step_frozen now e w w' :
  isAnalyzingRef (st w) = false ->
  sim_driven e = true ->
  step now e w = Some w' ->
  same_verdict (st w) (st w') /\ isAnalyzingRef (st w') = false /\
  req w' = req w /\ sent w' = sent w.
Proof.
  intros Hflag Hsd (w1 & Htr & -> & _)%step_inv.
  destruct e; try discriminate Hsd; cbn in Htr.
  - destruct (sims w !! k) as [[i start wt armed|]|]; try done.
    case_match; [|done].
    rewrite sim_wake_cancelled in Htr by done.
    injection Htr as <-. by cbn.
  - destruct (narrate _ _) as [s'|] eqn:Hn; [|done].
    injection Htr as <-. cbn.
    apply narrate_frame in Hn as (?&?&?&?&?&?&?).
    unfold same_verdict. split_and!; congruence.
Qed.

Lemma exec_frozen tr : forall w w',
  isAnalyzingRef (st w) = false ->
  all_sim_driven tr ->
  exec tr w = Some w' ->
  same_verdict (st w) (st w') /\ isAnalyzingRef (st w') = false /\
  req w' = req w /\ sent w' = sent w.
Proof.
  induction tr as [|[now e] tr IH]; intros w w' Hflag Hall Hex.
  - injection Hex as <-. by unfold same_verdict.
  - cbn in Hex. destruct (step now e w) as [w1|] eqn:Hs; [|done].
    inversion Hall as [|? ? He Hrest]; subst. cbn in He.
    destruct (step_frozen _ _ _ _ Hflag He Hs) as ((?&?&?&?)&?&?&?).
    destruct (IH _ _ ltac:(done) Hrest Hex) as ((?&?&?&?)&?&?&?).
    unfold same_verdict. split_and!; congruence.
Qed.

End Frozen.

Section Settlement.

Lemma step_settles now e w w' o :
  resume e (req w) = Some o ->
  step now e w = Some w' ->
  st w' = fst (settle o (st w)) /\ req w' = snd (settle o (st w)) /\
  sims w' = sims w /\ sent w' = sent w.
Proof.
  intros Hr (w1 & Htr & -> & _)%step_inv.
  destruct e; try discriminate Hr;
    cbv beta iota delta [transition] in Htr; rewrite Hr in Htr;
    destruct (settle o (st w)) as [s' pc]; by injection Htr as <-.
Qed.

Lemma catch_block_spec m s :
  statuses (finally_block (catch_block m s)) = (fun _ => error) <$> agents s /\
  stage_logs (finally_block (catch_block m s))
    = (fun a => logs a ++ [AGENT_FAILURE_LINE]) <$> agents s /\
  thinkingText <$> agents (finally_block (catch_block m s))
    = (fun _ => FAILED_MARKER) <$> agents s /\
  allLogs (finally_block (catch_block m s))
    = allLogs s ++ ["❌ Error: " +:+ m] /\
  result (finally_block (catch_block m s)) = result s /\
  isAnalyzingRef (finally_block (catch_block m s)) = false /\
  isAnalyzing (finally_block (catch_block m s)) = false.
Proof.
  unfold statuses, stage_logs. cbn.
  split_and!; try done; by rewrite <- list_fmap_compose.
Qed.

End Settlement.

Section Success.

Lemma success_block_spec data s :
  agents (finally_block (success_block data s))
    = match data_agents data with
      | Some bas => reconcile_agent bas <$> agents s
      | None => agents s
      end /\
  allLogs (finally_block (success_block data s))
    = default (allLogs s) (data_logs data) /\
  result (finally_block (success_block data s)) = data_analysis data /\
  isAnalyzingRef (finally_block (success_block data s)) = false /\
  isAnalyzing (finally_block (success_block data s)) = false /\
  currentAgentIndex (finally_block (success_block data s))
    = currentAgentIndex s.
Proof.
  unfold success_block.
  destruct (data_agents data), (data_logs data); by cbn.
Qed.

Lemma find_backendAgent_Some bas a ba :
  toLowerCase (id a) = id a ->
  find_backendAgent bas a = Some ba ->
  ba ∈ bas /\ name_matches (ba_name ba) (id a).
Proof.
  intros Hid [Hin Hm]%find_some. split.
  - by apply list_elem_of_In.
  - by apply includes_name_matches.
Qed.

Lemma find_backendAgent_None bas a ba :
  toLowerCase (id a) = id a ->
  find_backendAgent bas a = None ->
  ba ∈ bas -> ~ name_matches (ba_name ba) (id a).
Proof.
  intros Hid Hf Hin Hm.
  apply list_elem_of_In in Hin.
  pose proof (find_none _ _ Hf _ Hin) as Hn. cbn in Hn.
  apply includes_name_matches in Hm; [congruence | done].
Qed.

Lemma find_backendAgent_first bas a ba :
  find_backendAgent bas a = Some ba ->
  exists before after,
    bas = before ++ ba :: after /\
    Forall (fun b => includes (toLowerCase (ba_name b)) (id a) = false) before.
Proof.
  unfold find_backendAgent.
  induction bas as [|b bas IH]; cbn; [done|].
  destruct (includes _ _) eqn:Hb.
  - intros [= ->]. by exists [], bas.
  - intros (before & after & -> & Hall)%IH.
    exists (b :: before), after. split; [done|]. by constructor.
Qed.

End Success.

(** C2. When the request settles with a payload that has a per-stage
    record list, then in the state left by the settlement and in every
    state the simulator's remaining events lead to: a stage whose
    identifier occurs, case ignored, in the name hint of some record has
    status [complete] and the logs of the first such record; a stage that
    no record matches keeps the status and the logs it had when the
    payload arrived. *)
Theorem success_completes_matching_stages w now r data bas w1 tr w2 i a :
  req w = AwaitJson r ->
  resp_json r = JsonObject data ->
  data_agents data = Some bas ->
  step now EvBody w = Some w1 ->
  all_sim_driven tr ->
  exec tr w1 = Some w2 ->
  agents (st w) !! i = Some a ->
  toLowerCase (id a) = id a ->
  ((exists ba, ba ∈ bas /\ name_matches (ba_name ba) (id a)) ->
   exists ba,
     find_backendAgent bas a = Some ba /\
     ba ∈ bas /\ name_matches (ba_name ba) (id a) /\
     statuses (st w2) !! i = Some complete /\
     stage_logs (st w2) !! i = Some (default [] (ba_logs ba))) /\
  ((forall ba, ba ∈ bas -> ~ name_matches (ba_name ba) (id a)) ->
   statuses (st w2) !! i = Some (status a) /\
   stage_logs (st w2) !! i = Some (logs a)).
Proof.
  intros Hreq Hjson Hbas Hs Hall Hex Hi Hid.
  assert (resume EvBody (req w) = Some (Succeeds data)) as Hr.
  { rewrite Hreq. cbn. unfold after_json. by rewrite Hjson. }
  destruct (step_settles _ _ _ _ _ Hr Hs) as (Hst & _). cbn in Hst.
  destruct (success_block_spec data (st w)) as (H1 & _ & _ & H4 & _).
  rewrite <- Hst, Hbas in H1. rewrite <- Hst in H4.
  destruct (exec_frozen _ _ _ H4 Hall Hex) as ((E1 & E2 & _) & _).
  rewrite E1, E2. unfold statuses, stage_logs.
  rewrite H1, !list_lookup_fmap, Hi. cbn. unfold reconcile_agent.
  destruct (find_backendAgent bas a) as [ba|] eqn:Hf.
  - split.
    + intros _. exists ba.
      destruct (find_backendAgent_Some _ _ _ Hid Hf). by split_and!.
    + intros Hno. destruct (find_backendAgent_Some _ _ _ Hid Hf) as [Hin Hm].
      by destruct (Hno _ Hin).
  - split; [|done].
    intros (ba & Hin & Hm).
    by destruct (find_backendAgent_None _ _ _ Hid Hf Hin).
Qed.

Lemma success_completes_matching_stages_witness :
  req (world_after records_run) = AwaitJson records_response /\
  step 501 EvBody (world_after records_run)
    = Some (world_after (records_run ++ [(501, EvBody)])) /\
  exec [(502, EvSimWake 0 steady)]
    (world_after (records_run ++ [(501, EvBody)]))
    = Some (world_after
              (records_run ++ [(501, EvBody); (502, EvSimWake 0 steady)])) /\
  (exists ba,
     find_backendAgent
       [ mkBackendAgent "Agent Privacy" (Some ["No PII found"]);
         mkBackendAgent "AGENT VISION v2" (Some ["Fonts differ"]) ]
       (mkAgent "vision" "🧠" "Agent Vision" pending [] "") = Some ba /\
     ba ∈ [ mkBackendAgent "Agent Privacy" (Some ["No PII found"]);
            mkBackendAgent "AGENT VISION v2" (Some ["Fonts differ"]) ] /\
     name_matches (ba_name ba) "vision" /\
     statuses (st (world_after
        (records_run ++ [(501, EvBody); (502, EvSimWake 0 steady)]))) !! 2%nat
       = Some complete /\
     stage_logs (st (world_after
        (records_run ++ [(501, EvBody); (502, EvSimWake 0 steady)]))) !! 2%nat
       = Some (default [] (ba_logs ba))) /\
  (statuses (st (world_after
      (records_run ++ [(501, EvBody); (502, EvSimWake 0 steady)]))) !! 0%nat
     = Some running /\
   stage_logs (st (world_after
      (records_run ++ [(501, EvBody); (502, EvSimWake 0 steady)]))) !! 0%nat
     = Some []).
Proof.
  set (bas := [ mkBackendAgent "Agent Privacy" (Some ["No PII found"]);
                mkBackendAgent "AGENT VISION v2" (Some ["Fonts differ"]) ]).
  set (data := mkPayload None (Some bas) None (Some sample_analysis)).
  set (vision := mkAgent "vision" "🧠" "Agent Vision" pending [] "").
  set (meta := mkAgent "meta" "🕵️" "Agent Meta" running [] "").
  assert (req (world_after records_run) = AwaitJson records_response)
    as H1 by (vm_compute; reflexivity).
  assert (resp_json records_response = JsonObject data)
    as H2 by reflexivity.
  assert (data_agents data = Some bas) as H3 by reflexivity.
  assert (step 501 EvBody (world_after records_run)
            = Some (world_after (records_run ++ [(501, EvBody)])))
    as H4 by (vm_compute; reflexivity).
  assert (all_sim_driven [(502, EvSimWake 0 steady)]) as H5
    by (repeat constructor).
  assert (exec [(502, EvSimWake 0 steady)]
            (world_after (records_run ++ [(501, EvBody)]))
          = Some (world_after
              (records_run ++ [(501, EvBody); (502, EvSimWake 0 steady)])))
    as H6 by (vm_compute; reflexivity).
  assert (agents (st (world_after records_run)) !! 2%nat = Some vision)
    as H7 by (vm_compute; reflexivity).
  assert (agents (st (world_after records_run)) !! 0%nat = Some meta)
    as H7' by (vm_compute; reflexivity).
  assert (toLowerCase (id vision) = id vision) as H8 by reflexivity.
  assert (toLowerCase (id meta) = id meta) as H8' by reflexivity.
  assert (exists ba, ba ∈ bas /\ name_matches (ba_name ba) (id vision))
    as Hmatch.
  { exists (mkBackendAgent "AGENT VISION v2" (Some ["Fonts differ"])).
    split; [apply list_elem_of_further, list_elem_of_here|].
    exists "agent ", " v2". reflexivity. }
  assert (forall ba, ba ∈ bas -> ~ name_matches (ba_name ba) (id meta))
    as Hnone.
  { intros ba. apply find_backendAgent_None; reflexivity. }
  exact (conj H1 (conj H4 (conj H6 (conj
    (proj1 (success_completes_matching_stages _ _ _ _ _ _ _ _ _ _
              H1 H2 H3 H4 H5 H6 H7 H8) Hmatch)
    (proj2 (success_completes_matching_stages _ _ _ _ _ _ _ _ _ _
              H1 H2 H3 H4 H5 H6 H7' H8') Hnone))))).
Defined.

(** C9. When the request settles with a payload that has no per-stage
    record list, the settlement leaves the stages as they are and stores
    the payload's analysis; the simulator's remaining events change no
    status and no stage log, so a stage that was [running] stays
    [running]. *)
Theorem success_without_records_leaves_stages w now r data w1 tr w2 :
  req w = AwaitJson r ->
  resp_json r = JsonObject data ->
  data_agents data = None ->
  step now EvBody w = Some w1 ->
  all_sim_driven tr ->
  exec tr w1 = Some w2 ->
  agents (st w1) = agents (st w) /\
  result (st w1) = data_analysis data /\
  statuses (st w2) = statuses (st w) /\
  stage_logs (st w2) = stage_logs (st w) /\
  result (st w2) = data_analysis data /\
  (forall i, statuses (st w) !! i = Some running ->
             statuses (st w2) !! i = Some running).
Proof.
  intros Hreq Hjson Hbas Hs Hall Hex.
  assert (resume EvBody (req w) = Some (Succeeds data)) as Hr.
  { rewrite Hreq. cbn. unfold after_json. by rewrite Hjson. }
  destruct (step_settles _ _ _ _ _ Hr Hs) as (Hst & _). cbn in Hst.
  destruct (success_block_spec data (st w)) as (H1 & _ & H3 & H4 & _).
  rewrite <- Hst, Hbas in H1. rewrite <- Hst in H3, H4.
  destruct (exec_frozen _ _ _ H4 Hall Hex) as ((E1 & E2 & _ & E4) & _).
  unfold statuses, stage_logs in *. rewrite H1 in E1, E2.
  split_and!; congruence.
Qed.

Lemma success_without_records_leaves_stages_witness :
  req (world_after analysis_only_run) = AwaitJson analysis_only_response /\
  step 501 EvBody (world_after analysis_only_run)
    = Some (world_after (analysis_only_run ++ [(501, EvBody)])) /\
  exec [(550, EvNarrTick); (602, EvSimWake 0 steady)]
    (world_after (analysis_only_run ++ [(501, EvBody)]))
    = Some (world_after (analysis_only_run ++
              [(501, EvBody); (550, EvNarrTick); (602, EvSimWake 0 steady)])) /\
  statuses (st (world_after analysis_only_run))
    = [running; pending; pending] /\
  agents (st (world_after (analysis_only_run ++ [(501, EvBody)])))
    = agents (st (world_after analysis_only_run)) /\
  result (st (world_after (analysis_only_run ++ [(501, EvBody)])))
    = Some sample_analysis /\
  statuses (st (world_after (analysis_only_run ++
      [(501, EvBody); (550, EvNarrTick); (602, EvSimWake 0 steady)])))
    = statuses (st (world_after analysis_only_run)) /\
  stage_logs (st (world_after (analysis_only_run ++
      [(501, EvBody); (550, EvNarrTick); (602, EvSimWake 0 steady)])))
    = stage_logs (st (world_after analysis_only_run)) /\
  result (st (world_after (analysis_only_run ++
      [(501, EvBody); (550, EvNarrTick); (602, EvSimWake 0 steady)])))
    = Some sample_analysis /\
  (forall i,
     statuses (st (world_after analysis_only_run)) !! i = Some running ->
     statuses (st (world_after (analysis_only_run ++
       [(501, EvBody); (550, EvNarrTick); (602, EvSimWake 0 steady)]))) !! i
       = Some running).
Proof.
  set (data := mkPayload None None None (Some sample_analysis)).
  assert (req (world_after analysis_only_run)
            = AwaitJson analysis_only_response)
    as H1 by (vm_compute; reflexivity).
  assert (resp_json analysis_only_response = JsonObject data)
    as H2 by reflexivity.
  assert (data_agents data = None) as H3 by reflexivity.
  assert (step 501 EvBody (world_after analysis_only_run)
            = Some (world_after (analysis_only_run ++ [(501, EvBody)])))
    as H4 by (vm_compute; reflexivity).
  assert (all_sim_driven [(550, EvNarrTick); (602, EvSimWake 0 steady)]) as H5
    by (repeat constructor).
  assert (exec [(550, EvNarrTick); (602, EvSimWake 0 steady)]
            (world_after (analysis_only_run ++ [(501, EvBody)]))
          = Some (world_after (analysis_only_run ++
              [(501, EvBody); (550, EvNarrTick); (602, EvSimWake 0 steady)])))
    as H6 by (vm_compute; reflexivity).
  assert (statuses (st (world_after analysis_only_run))
            = [running; pending; pending])
    as H7 by (vm_compute; reflexivity).
  exact (conj H1 (conj H4 (conj H6 (conj H7
    (success_without_records_leaves_stages _ _ _ _ _ _ _
       H1 H2 H3 H4 H5 H6))))).
Defined.

Section Simulator.

Variables (now : Z) (rnd : nat -> Q).

(** A relation that holds across the elementary updates of the simulator
    holds across a whole synchronous stretch of it. *)
Lemma sim_stages_rel (R : State -> State -> Prop) (idxs : list nat) :
  (forall s, R s s) ->
  (forall a b c, R a b -> R b c -> R a c) ->
  (forall s, R s (setCurrentAgentIndex (-1) s)) ->
  (forall i s, i ∈ idxs -> R s (stage_begin i s)) ->
  (forall i s, i ∈ idxs -> R s (stage_complete i s)) ->
  forall s s' pc, sim_stages idxs now rnd s = (s', pc) -> R s s'.
Proof.
  intros Hrefl Htrans Hexit.
  induction idxs as [|i rest IH]; intros Hb Hc s s' pc; cbn.
  - intros [= <- <-]. apply Hexit.
  - destruct (isAnalyzingRef s) eqn:Hflag; cbn.
    2: { intros [= <- <-]. apply Hexit. }
    unfold sim_while. cbn. rewrite Hflag. cbn.
    destruct (dwelling _ _ _).
    + intros [= <- <-]. apply Hb. by left.
    + intros Hrec. eapply Htrans; [apply Hb; by left|].
      eapply Htrans; [apply Hc; by left|].
      eapply IH; [| |exact Hrec]; intros; [apply Hb|apply Hc]; by right.
Qed.

Lemma sim_wake_rel (R : State -> State -> Prop) i start wt :
  (forall s, R s s) ->
  (forall a b c, R a b -> R b c -> R a c) ->
  (forall s, R s (setCurrentAgentIndex (-1) s)) ->
  (forall j s, R s (stage_begin j s)) ->
  (forall j s, R s (stage_complete j s)) ->
  forall s s' pc, sim_wake i start wt now rnd s = (s', pc) -> R s s'.
Proof.
  intros Hrefl Htrans Hexit Hb Hc s s' pc.
  unfold sim_wake, sim_while.
  destruct (dwelling _ _ _), (isAnalyzingRef s); cbn;
    try (intros [= <- <-]; apply Hexit || apply Hrefl).
  intros Hrec. eapply Htrans; [apply Hc|].
  eapply sim_stages_rel; eauto.
Qed.

Lemma sim_stages_idle idxs : forall s s' pc,
  sim_stages idxs now rnd s = (s', pc) ->
  pc = SimIdle -> currentAgentIndex s' = -1.
Proof.
  induction idxs as [|i rest IH]; intros s s' pc; cbn.
  - by intros [= <- <-].
  - destruct (isAnalyzingRef s) eqn:Hflag; cbn; [|by intros [= <- <-]].
    unfold sim_while. cbn. rewrite Hflag. cbn.
    destruct (dwelling _ _ _); [by intros [= <- <-]|]. apply IH.
Qed.

End Simulator.

Section Dwell.

Lemma stage_begin_lookup i s j :
  agents (stage_begin i s) !! j
  = (fun a => if (j =? i)%nat
              then agent_with running (logs a) (thinkingText a) a else a)
    <$> agents s !! j.
Proof. cbn. by rewrite list_lookup_imap. Qed.

Lemma stage_complete_lookup i s j :
  agents (stage_complete i s) !! j
  = (fun a => if (j =? i)%nat
              then agent_with complete (logs a) DONE_MARKER a else a)
    <$> agents s !! j.
Proof. cbn. by rewrite list_lookup_imap. Qed.

Lemma stage_begin_other i s j :
  j <> i -> agents (stage_begin i s) !! j = agents s !! j.
Proof.
  intros Hne. rewrite stage_begin_lookup.
  destruct (Nat.eqb_spec j i); [done|]. by destruct (agents s !! j).
Qed.

Lemma stage_complete_other i s j :
  j <> i -> agents (stage_complete i s) !! j = agents s !! j.
Proof.
  intros Hne. rewrite stage_complete_lookup.
  destruct (Nat.eqb_spec j i); [done|]. by destruct (agents s !! j).
Qed.

Lemma sim_stages_untouched now rnd idxs j s s' pc :
  j ∉ idxs ->
  sim_stages idxs now rnd s = (s', pc) ->
  agents s' !! j = agents s !! j.
Proof.
  intros Hj.
  apply (sim_stages_rel now rnd
           (fun s s' => agents s' !! j = agents s !! j)); try done.
  - intros a b c. congruence.
  - intros i s0 Hi. apply stage_begin_other. intros ->. done.
  - intros i s0 Hi. apply stage_complete_other. intros ->. done.
Qed.

Lemma sim_stages_appends now rnd idxs s s' pc :
  sim_stages idxs now rnd s = (s', pc) ->
  allLogs s `prefix_of` allLogs s'.
Proof.
  apply (sim_stages_rel now rnd
           (fun s s' => allLogs s `prefix_of` allLogs s')); try done.
  - intros a b c. apply transitivity.
  - intros i s0 _. cbn. by apply prefix_app_r.
  - intros i s0 _. cbn. by apply prefix_app_r.
Qed.

End Dwell.

(** What the simulator does when its timer fires during the dwell of
    stage [i], by the value the shared flag has at that moment.  If the
    flag is cleared it leaves the loop: no stage and no log line changes,
    and [currentAgentIndex] becomes -1.  If it is set, and the dwell is not
    over, it sleeps again and changes nothing.  If it is set, and the
    dwell is over, stage [i] becomes [complete] with the done marker as
    narration and its completion line is appended to the global log; when
    [i] is the last stage the loop ends.  Whenever the simulator stops,
    [currentAgentIndex] is -1. *)
Lemma dwell_wake_reads_the_flag i start wt now rnd s s' pc :
  sim_wake i start wt now rnd s = (s', pc) ->
  (isAnalyzingRef s = false ->
   s' = setCurrentAgentIndex (-1) s /\ pc = SimIdle /\
   agents s' = agents s /\ allLogs s' = allLogs s /\
   currentAgentIndex s' = -1) /\
  (isAnalyzingRef s = true -> dwelling now start wt = true ->
   s' = s /\ pc = SimDwell i start wt now) /\
  (isAnalyzingRef s = true -> dwelling now start wt = false ->
   (forall a, agents s !! i = Some a ->
      agents s' !! i = Some (agent_with complete (logs a) DONE_MARKER a)) /\
   (allLogs s ++ [stage_line i " task completed." s])
     `prefix_of` allLogs s' /\
   (length (agents s) <= S i -> pc = SimIdle)%nat) /\
  (pc = SimIdle -> currentAgentIndex s' = -1).
Proof.
  intros Hw. split_and!.
  - intros Hflag. rewrite sim_wake_cancelled in Hw by done.
    by injection Hw as <- <-.
  - intros Hflag Hd. unfold sim_wake, sim_while in Hw.
    rewrite Hd, Hflag in Hw. by injection Hw as <- <-.
  - intros Hflag Hd. unfold sim_wake, sim_while in Hw.
    rewrite Hd, Hflag in Hw. cbn in Hw. split_and!.
    + intros a Ha.
      assert (i ∉ stages_after i s) as Hi.
      { unfold stages_after. rewrite elem_of_seq. lia. }
      rewrite (sim_stages_untouched _ _ _ i _ _ _ Hi Hw).
      rewrite stage_complete_lookup, Ha. cbn. by rewrite Nat.eqb_refl.
    + by apply sim_stages_appends in Hw.
    + intros Hlast. unfold stages_after in Hw.
      replace (length (agents s) - S i)%nat with 0%nat in Hw by lia.
      cbn in Hw. by injection Hw as <- <-.
  - intros ->. unfold sim_wake, sim_while in Hw.
    destruct (dwelling _ _ _), (isAnalyzingRef s); cbn in Hw;
      try by injection Hw as <-.
    by eapply sim_stages_idle.
Qed.

Lemma dwell_wake_reads_the_flag_example :
  (* the timer fires after the rejection: the simulator leaves the loop *)
  sim_wake 1 2502 (5000 # 2) 2602 steady (st (world_after interrupted_run))
    = (setCurrentAgentIndex (-1) (st (world_after interrupted_run)), SimIdle)
  /\
  isAnalyzingRef (st (world_after interrupted_run)) = false /\
  (* the timer fires at 2502 ms in the run that is not cancelled *)
  sim_wake 0 2 (5000 # 2) 2502 steady (st (world_after stage0_run))
    = (st (world_after stage1_run), SimDwell 1 2502 (5000 # 2) 2502) /\
  isAnalyzingRef (st (world_after stage0_run)) = true /\
  dwelling 2502 2 (5000 # 2) = false /\
  (* and at 2402 ms, before the dwell is over *)
  sim_wake 0 2 (5000 # 2) 2402 steady (st (world_after stage0_run))
    = (st (world_after stage0_run), SimDwell 0 2 (5000 # 2) 2402) /\
  dwelling 2402 2 (5000 # 2) = true /\
  (agents (setCurrentAgentIndex (-1) (st (world_after interrupted_run)))
     = agents (st (world_after interrupted_run)) /\
   allLogs (setCurrentAgentIndex (-1) (st (world_after interrupted_run)))
     = allLogs (st (world_after interrupted_run)) /\
   currentAgentIndex
     (setCurrentAgentIndex (-1) (st (world_after interrupted_run))) = -1) /\
  (agents (st (world_after stage1_run)) !! 0%nat
     = Some (agent_with complete [] DONE_MARKER
               (mkAgent "meta" "🕵️" "Agent Meta" running [] "")) /\
   (allLogs (st (world_after stage0_run))
      ++ [stage_line 0 " task completed." (st (world_after stage0_run))])
     `prefix_of` allLogs (st (world_after stage1_run))).
Proof.
  set (meta := mkAgent "meta" "🕵️" "Agent Meta" running [] "").
  assert (sim_wake 1 2502 (5000 # 2) 2602 steady
            (st (world_after interrupted_run))
          = (setCurrentAgentIndex (-1) (st (world_after interrupted_run)),
             SimIdle))
    as H1 by (vm_compute; reflexivity).
  assert (isAnalyzingRef (st (world_after interrupted_run)) = false)
    as H2 by (vm_compute; reflexivity).
  assert (sim_wake 0 2 (5000 # 2) 2502 steady (st (world_after stage0_run))
          = (st (world_after stage1_run), SimDwell 1 2502 (5000 # 2) 2502))
    as H3 by (vm_compute; reflexivity).
  assert (isAnalyzingRef (st (world_after stage0_run)) = true)
    as H4 by (vm_compute; reflexivity).
  assert (dwelling 2502 2 (5000 # 2) = false)
    as H5 by (vm_compute; reflexivity).
  assert (sim_wake 0 2 (5000 # 2) 2402 steady (st (world_after stage0_run))
          = (st (world_after stage0_run), SimDwell 0 2 (5000 # 2) 2402))
    as H6 by (vm_compute; reflexivity).
  assert (dwelling 2402 2 (5000 # 2) = true)
    as H7 by (vm_compute; reflexivity).
  assert (agents (st (world_after stage0_run)) !! 0%nat = Some meta)
    as H8 by (vm_compute; reflexivity).
  pose proof (dwell_wake_reads_the_flag _ _ _ _ _ _ _ _ H1)
    as (Hcancel & _).
  pose proof (dwell_wake_reads_the_flag _ _ _ _ _ _ _ _ H3)
    as (_ & _ & Hdone & _).
  destruct (Hcancel H2) as (_ & _ & Ha & Hl & Hi).
  destruct (Hdone H4 H5) as (Hc & Hp & _).
  exact (conj H1 (conj H2 (conj H3 (conj H4 (conj H5 (conj H6 (conj H7
    (conj (conj Ha (conj Hl Hi)) (conj (Hc _ H8) Hp))))))))).
Defined.

(** C4 fails on the code.  In [overlapping_run] the simulator dwells on
    stage 1, from 2502 ms and for 2500 ms, when the rejection of 2510 ms
    requests cancellation.  The click of 2520 ms sets the shared flag
    again (line 181) before the simulator's timer fires, so the checks of
    lines 163 and 167 find it set: at 2602 ms the simulator sleeps on, and
    at 5002 ms, the dwell over, it marks stage 1 complete with the done
    marker, appends the completion line of stage 1, goes on to stage 2
    and makes it the active stage. *)
Lemma cancelled_dwell_completes_after_restart :
  sims (world_after interrupted_run) = [SimDwell 1 2502 (5000 # 2) 2502] /\
  dwelling 2510 2502 (5000 # 2) = true /\
  isAnalyzingRef (st (world_after stage1_run)) = true /\
  isAnalyzingRef (st (world_after interrupted_run)) = false /\
  isAnalyzingRef (st (world_after restarted_run)) = true /\
  sim_wake 1 2502 (5000 # 2) 2602 steady (st (world_after restarted_run))
    = (st (world_after restarted_run), SimDwell 1 2502 (5000 # 2) 2602) /\
  sim_wake 1 2502 (5000 # 2) 5002 steady (st (world_after stale_dwell_run))
    = (st (world_after overlapping_run), SimDwell 2 5002 (5000 # 2) 5002) /\
  agents (st (world_after stale_dwell_run)) !! 1%nat
    = Some (mkAgent "privacy" "🔒" "Agent Privacy" pending [] "") /\
  agents (st (world_after overlapping_run)) !! 1%nat
    = Some (mkAgent "privacy" "🔒" "Agent Privacy" complete [] DONE_MARKER) /\
  allLogs (st (world_after overlapping_run))
    = allLogs (st (world_after stale_dwell_run))
        ++ [ "🔒 Agent Privacy task completed.";
             "🧠 Agent Vision initialized..." ] /\
  statuses (st (world_after overlapping_run)) !! 2%nat = Some running /\
  currentAgentIndex (st (world_after overlapping_run)) = 2.
Proof. vm_compute. by split_and!. Qed.

(** C10. With no file selected, or with an empty amount, [handleAnalyze]
    returns at once: the component state, the simulator, the request and
    the list of requests sent are what they were. *)
Theorem analyze_without_input_is_noop now rnd w :
  file (st w) = None \/ claimedAmount (st w) = "" ->
  handleAnalyze now rnd w = w /\
  (forall w', step now (EvAnalyze rnd) w = Some w' ->
     st w' = st w /\ sims w' = sims w /\ req w' = req w /\
     sent w' = sent w).
Proof.
  intros Hguard.
  assert (handleAnalyze now rnd w = w) as Hn.
  { unfold handleAnalyze. destruct Hguard as [-> | ->]; [done|].
    by destruct (file (st w)). }
  split; [done|].
  intros w' (w1 & Htr & -> & _)%step_inv. cbn in Htr.
  rewrite Hn in Htr. destruct (isAnalyzing (st w)); [done|].
  by injection Htr as <-.
Qed.

Lemma analyze_without_input_is_noop_witness :
  file (st initial_world) = None /\
  handleAnalyze 0 steady initial_world = initial_world.
Proof.
  assert (file (st initial_world) = None \/
          claimedAmount (st initial_world) = "") as H1 by (left; reflexivity).
  exact (conj eq_refl
    (proj1 (analyze_without_input_is_noop 0 steady initial_world H1))).
Defined.

Section Reset.

Lemma handleAnalyze_reset_agents s :
  agents (handleAnalyze_reset s) = agent_with pending [] "" <$> agents s.
Proof. reflexivity. Qed.

End Reset.

(** C5, as the code has it.  The reset of [handleAnalyze] (lines
    180-184) leaves every stage [pending] with empty logs and empty
    narration, empties the global log and the stored result, whatever the
    state before; it keeps the stages' identities and does not write
    [currentAgentIndex]. *)
Theorem analyze_reset_clears_stages s :
  Forall fresh (agents (handleAnalyze_reset s)) /\
  id <$> agents (handleAnalyze_reset s) = id <$> agents s /\
  allLogs (handleAnalyze_reset s) = [] /\
  result (handleAnalyze_reset s) = None /\
  isAnalyzingRef (handleAnalyze_reset s) = true /\
  currentAgentIndex (handleAnalyze_reset s) = currentAgentIndex s.
Proof.
  rewrite handleAnalyze_reset_agents. split_and!; try done.
  - apply Forall_fmap, Forall_true. intros a. by unfold fresh.
  - by rewrite <- list_fmap_compose.
Qed.

(** C5 fails as stated.  After the rejected run, the button is pressed
    again before the old simulator has woken: [currentAgentIndex] is 1 at
    the click, the reset leaves it at 1, and the synchronous start of the
    simulator then sets it to 0 with stage 0 [running] and one line in the
    global log.  The first run shows the same first state after the
    click: stage 0 [running] and [currentAgentIndex] 0. *)
Lemma analyze_reset_keeps_active_index :
  exec interrupted_run initial_world = Some (world_after interrupted_run) /\
  file (st (world_after interrupted_run)) = Some receipt /\
  claimedAmount (st (world_after interrupted_run)) = "5000" /\
  isAnalyzing (st (world_after interrupted_run)) = false /\
  currentAgentIndex (st (world_after interrupted_run)) = 1 /\
  currentAgentIndex (handleAnalyze_reset (st (world_after interrupted_run)))
    = 1 /\
  currentAgentIndex (handleAnalyze_reset (st (world_after interrupted_run)))
    <> -1 /\
  step 2520 (EvAnalyze steady) (world_after interrupted_run)
    = Some (world_after restarted_run) /\
  currentAgentIndex (st (world_after restarted_run)) = 0 /\
  statuses (st (world_after restarted_run)) = [running; pending; pending] /\
  allLogs (st (world_after restarted_run))
    = ["🕵️ Agent Meta initialized..."] /\
  currentAgentIndex (st (world_after start_run)) = 0 /\
  statuses (st (world_after start_run)) = [running; pending; pending].
Proof. vm_compute. by split_and!. Qed.

Section Settling.

(** A turn that resumes [handleAnalyze]. *)
Lemma step_resume t e w o :
  resume e (req w) = Some o -> clock w <= t ->
  step t e w
  = Some (commit t w
            (mkWorld (fst (settle o (st w))) (sims w) (snd (settle o (st w)))
               (thoughtIndex w) (clock w) (sent w))).
Proof.
  intros Hr Hclock. unfold step.
  destruct (Z.ltb_spec t (clock w)); [lia|].
  destruct e; try discriminate Hr;
    cbv beta iota delta [transition]; rewrite Hr;
    by destruct (settle o (st w)).
Qed.

(** A continuation that suspends again leaves the state alone and keeps
    the clock condition. *)
Lemma step_suspends t e w pc :
  resume e (req w) = Some (Suspends pc) -> clock w <= t ->
  exists w1,
    step t e w = Some w1 /\ st w1 = st w /\ req w1 = pc /\
    sims w1 = sims w /\ sent w1 = sent w /\ clock w1 = t.
Proof.
  intros Hr Hclock. eexists. split; [by apply step_resume|]. by cbn.
Qed.

Lemma step_ends t e w o :
  resume e (req w) = Some o ->
  (forall pc, o <> Suspends pc) -> clock w <= t ->
  exists w1,
    step t e w = Some w1 /\ req w1 = ReqIdle /\
    st w1 = fst (settle o (st w)) /\
    sims w1 = sims w /\ sent w1 = sent w.
Proof.
  intros Hr Hend Hclock. eexists. split; [by apply step_resume|].
  destruct o as [pc|data|m]; [by destruct (Hend pc)|by cbn..].
Qed.

End Settling.

Section ErrorMessage.

Lemma after_error_text_spec r :
  after_error_text r = Fails (text_or_generic r).
Proof.
  unfold after_error_text, text_or_generic. by destruct (resp_text r).
Qed.

Lemma http_error_message_spec r :
  http_error_message r = Some (settled_error_message r).
Proof.
  unfold http_error_message, settled_error_message, after_error_json.
  destruct (resp_json r) as [m| |data|].
  - by rewrite after_error_text_spec.
  - by rewrite after_error_text_spec.
  - destruct (data_detail data) as [detail|]; [|done].
    by destruct (truthy_json detail).
  - done.
Qed.

(** The first read of the body of an error response. *)
Lemma after_error_json_spec r :
  after_error_json r = Fails (settled_error_message r) \/
  (after_error_json r = Suspends (AwaitErrorText r) /\
   settled_error_message r = text_or_generic r).
Proof.
  unfold after_error_json, settled_error_message.
  destruct (resp_json r) as [m| |data|]; auto.
  destruct (data_detail data) as [detail|]; auto.
  destruct (truthy_json detail); auto.
Qed.

(** The read of the body of a success. *)
Lemma after_json_spec r :
  ok r = true ->
  match failure_message (FetchResolves r) with
  | Some m => after_json r = Fails m
  | None =>
      exists data,
        success_payload (FetchResolves r) = Some data /\
        after_json r = Succeeds data
  end.
Proof.
  intros Hok. unfold failure_message, success_payload, after_json.
  rewrite Hok. destruct (resp_json r) as [m| |data|]; eauto.
Qed.

(** Whatever [fetch] does, the request is over after the settlement of
    [fetch] and at most two reads of the body: in the [catch] block for a
    failure outcome, with its message, and in the success branch for the
    other outcomes. *)
Lemma request_path w t o :
  req w = AwaitFetch -> clock w <= t ->
  exists n w',
    (n <= 2)%nat /\
    exec ((t, EvFetch o) :: repeat (t, EvBody) n) w = Some w' /\
    req w' = ReqIdle /\ sims w' = sims w /\ sent w' = sent w /\
    match failure_message o with
    | Some m => st w' = finally_block (catch_block m (st w))
    | None =>
        exists data,
          success_payload o = Some data /\
          st w' = finally_block (success_block data (st w))
    end.
Proof.
  intros Hreq Hclock. destruct o as [m|r].
  - destruct (step_ends t (EvFetch (FetchRejects m)) w (Fails m))
      as (w' & Hs & H1 & H2 & H3 & H4); [by rewrite Hreq|done|done|].
    exists 0%nat, w'. split; [lia|]. split; [cbn; by rewrite Hs|]. done.
  - assert (resume (EvFetch (FetchResolves r)) (req w)
            = Some (Suspends (if ok r then AwaitJson r else AwaitErrorJson r)))
      as Hr.
    { rewrite Hreq. cbn. by destruct (ok r). }
    destruct (step_suspends t _ w _ Hr Hclock)
      as (w1 & Hs1 & Hst1 & Hreq1 & Hsims1 & Hsent1 & Hc1).
    destruct (ok r) eqn:Hok.
    + (* a success status: one read of the body *)
      pose proof (after_json_spec r Hok) as Hj.
      destruct (step_ends t EvBody w1 (after_json r))
        as (w' & Hs & H1 & H2 & H3 & H4); [by rewrite Hreq1| |lia|].
      { intros pc. unfold after_json. by destruct (resp_json r). }
      exists 1%nat, w'. split; [lia|]. split; [cbn; by rewrite Hs1, Hs|].
      split_and!; [done|congruence|congruence|].
      rewrite Hst1 in H2.
      destruct (failure_message (FetchResolves r)) as [m|].
      * by rewrite Hj in H2.
      * destruct Hj as (data & Hp & Hj). exists data. by rewrite Hj in H2.
    + (* an error status: one or two reads *)
      assert (failure_message (FetchResolves r)
              = Some (settled_error_message r)) as ->.
      { unfold failure_message. by rewrite Hok. }
      destruct (after_error_json_spec r) as [Hj|[Hj Hm]].
      * destruct (step_ends t EvBody w1 (Fails (settled_error_message r)))
          as (w' & Hs & H1 & H2 & H3 & H4); [|done|lia|].
        { rewrite Hreq1. cbn. by rewrite Hj. }
        exists 1%nat, w'. split; [lia|]. split; [cbn; by rewrite Hs1, Hs|].
        split_and!; [done|congruence|congruence|]. by rewrite Hst1 in H2.
      * assert (resume EvBody (req w1) = Some (Suspends (AwaitErrorText r)))
          as Hr2 by (rewrite Hreq1; cbn; by rewrite Hj).
        destruct (step_suspends t _ w1 _ Hr2 ltac:(lia))
          as (w2 & Hs2 & Hst2 & Hreq2 & Hsims2 & Hsent2 & Hc2).
        destruct (step_ends t EvBody w2 (Fails (settled_error_message r)))
          as (w' & Hs & H1 & H2 & H3 & H4); [|done|lia|].
        { rewrite Hreq2. cbn. by rewrite after_error_text_spec, Hm. }
        exists 2%nat, w'. split; [lia|].
        split; [cbn; by rewrite Hs1, Hs2, Hs|].
        split_and!; [done|congruence|congruence|].
        by rewrite Hst2, Hst1 in H2.
Qed.

End ErrorMessage.

Section FailurePath.

(** What a turn of simulator code leaves alone: the stage logs, the
    number of stages and the two flags. *)
Lemma sim_turn_frame s s' :
  sim_turn s s' ->
  stage_logs s' = stage_logs s /\
  length (agents s') = length (agents s) /\
  isAnalyzing s' = isAnalyzing s /\
  isAnalyzingRef s' = isAnalyzingRef s.
Proof.
  intros [(i & start & wt & now & rnd & pc & Hw)|(k & Hn)].
  - revert s s' pc Hw.
    apply (sim_wake_rel now rnd (fun s s' =>
      stage_logs s' = stage_logs s /\
      length (agents s') = length (agents s) /\
      isAnalyzing s' = isAnalyzing s /\
      isAnalyzingRef s' = isAnalyzingRef s)).
    + done.
    + intros a b c (?&?&?&?) (?&?&?&?). split_and!; congruence.
    + done.
    + intros j s. unfold stage_begin. cbn. split_and!; try done.
      * apply logs_imap. intros ? a. by case_match.
      * by rewrite length_imap.
    + intros j s. unfold stage_complete. cbn. split_and!; try done.
      * apply logs_imap. intros ? a. by case_match.
      * by rewrite length_imap.
  - pose proof (narrate_frame _ _ _ Hn) as (_ & Hl & _ & _ & Hf & _ & Hlen).
    split_and!; try done.
    revert Hn. unfold narrate. case_match; [done|].
    destruct (agents s !! _) as [cur|]; [|done].
    destruct (AGENT_THINKING _) as [th|]; [|done]. by intros [= <-].
Qed.

Lemma sim_turns_frame s s' :
  rtc sim_turn s s' ->
  stage_logs s' = stage_logs s /\
  length (agents s') = length (agents s) /\
  isAnalyzing s' = isAnalyzing s /\
  isAnalyzingRef s' = isAnalyzingRef s.
Proof.
  induction 1 as [|a b c Hab _ (?&?&?&?)]; [done|].
  destruct (sim_turn_frame _ _ Hab) as (?&?&?&?). split_and!; congruence.
Qed.

(** A turn of the event loop that runs simulator code is a [sim_turn] of
    the component state and leaves the request where it is. *)
Lemma step_sim_turn now e w w' :
  sim_driven e = true ->
  step now e w = Some w' ->
  sim_turn (st w) (st w') /\ req w' = req w.
Proof.
  intros Hsd (w1 & Htr & -> & _)%step_inv.
  destruct e; try discriminate Hsd; cbv beta iota delta [transition] in Htr.
  - destruct (sims w !! k) as [[i start wt armed|]|]; try done.
    case_match; [|done].
    destruct (sim_wake _ _ _ _ _ _) as [s' pc] eqn:Hw.
    injection Htr as <-. cbn. split; [|done]. left. by repeat eexists.
  - destruct (narrate _ _) as [s'|] eqn:Hn; [|done].
    injection Htr as <-. cbn. split; [|done]. right. by eexists.
Qed.

(** Where the continuation after [fetch] leaves a failure outcome. *)
Lemma after_fetch_failure o m :
  failure_message o = Some m ->
  after_fetch o = Fails m \/
  exists pc, after_fetch o = Suspends pc /\ reading o pc.
Proof.
  destruct o as [x|r]; cbn; [intros [= <-]; by left|].
  intros _. right. destruct (ok r) eqn:Hok; eexists; (split; [done|]);
    by cbn.
Qed.

(** A read of the body of a failure outcome ends in the [catch] block
    with the outcome's message, or leads to the second read. *)
Lemma reading_failure o m pc :
  failure_message o = Some m ->
  reading o pc ->
  resume EvBody pc = Some (Fails m) \/
  exists pc', resume EvBody pc = Some (Suspends pc') /\ reading o pc'.
Proof.
  destruct o as [x|r]; [by destruct pc|].
  unfold failure_message. intros Hm Hrd.
  destruct pc as [|r'|r'|r'|]; cbn in Hrd; try done.
  - destruct Hrd as [Hok ->]. rewrite Hok in Hm. injection Hm as <-. cbn.
    destruct (after_error_json_spec r) as [Hj|[Hj Ht]]; rewrite Hj;
      [by left|right]. eexists. split; [done|]. by cbn.
  - destruct Hrd as (Hok & -> & Hj). rewrite Hok in Hm.
    injection Hm as <-. left. cbn. rewrite after_error_text_spec.
    by destruct (after_error_json_spec r) as [Hj'|[_ ->]]; [congruence|].
  - destruct Hrd as [Hok ->]. rewrite Hok in Hm. left. cbn.
    unfold after_json. by destruct (resp_json r); simplify_eq.
Qed.

(** Once the request is over and the flag cleared, further reads cannot
    occur and the simulator's turns change nothing of the verdict. *)
Lemma settled_stays tr : forall w w2,
  req w = ReqIdle ->
  isAnalyzingRef (st w) = false ->
  awaiting_body tr ->
  exec tr w = Some w2 ->
  same_verdict (st w) (st w2) /\ req w2 = ReqIdle /\
  isAnalyzingRef (st w2) = false /\
  isAnalyzing (st w2) = isAnalyzing (st w).
Proof.
  induction tr as [|[now e] tr IH]; intros w w2 Hidle Hflag Hall Hex.
  - injection Hex as <-. by unfold same_verdict.
  - cbn in Hex. destruct (step now e w) as [w1|] eqn:Hs; [|done].
    inversion Hall as [|? ? He Hrest]; subst. cbn in He.
    destruct He as [->|Hsd].
    + apply step_inv in Hs as (w0 & Htr & _).
      cbv beta iota delta [transition] in Htr. by rewrite Hidle in Htr.
    + destruct (step_frozen _ _ _ _ Hflag Hsd Hs) as ((?&?&?&?)&?&?&?).
      destruct (step_sim_turn _ _ _ _ Hsd Hs) as [Hturn _].
      destruct (sim_turn_frame _ _ Hturn) as (_ & _ & Hbusy & _).
      destruct (IH w1 w2) as ((?&?&?&?)&?&?&?); try done; [congruence|].
      unfold same_verdict. split_and!; congruence.
Qed.

(** From a read of the body of a failure outcome to the end of the
    request: the [catch] block runs once, on a state that turns of the
    simulator made of the one the read started from. *)
Lemma failure_path o m tr : forall wa w2,
  failure_message o = Some m ->
  reading o (req wa) ->
  awaiting_body tr ->
  exec tr wa = Some w2 ->
  req w2 = ReqIdle ->
  exists s,
    rtc sim_turn (st wa) s /\
    same_verdict (finally_block (catch_block m s)) (st w2) /\
    isAnalyzingRef (st w2) = false /\ isAnalyzing (st w2) = false.
Proof.
  induction tr as [|[now e] tr IH]; intros wa w2 Hm Hrd Hall Hex Hidle.
  - injection Hex as <-. rewrite Hidle in Hrd. by destruct o.
  - cbn in Hex. destruct (step now e wa) as [w1|] eqn:Hs; [|done].
    inversion Hall as [|? ? He Hrest]; subst. cbn in He.
    destruct He as [->|Hsd].
    + destruct (reading_failure _ _ _ Hm Hrd) as [Hr|(pc' & Hr & Hrd')].
      * destruct (step_settles _ _ _ _ _ Hr Hs) as (Hst & Hreq & _).
        cbn in Hst, Hreq.
        destruct (settled_stays tr w1 w2) as (Hv & _ & Hf & Hb);
          [done|by rewrite Hst|done|done|].
        exists (st wa). rewrite Hst in Hv, Hb.
        split_and!; [done|done|done|by rewrite Hb].
      * destruct (step_settles _ _ _ _ _ Hr Hs) as (Hst & Hreq & _).
        cbn in Hst, Hreq.
        destruct (IH w1 w2) as (s & Hs' & Hrest'); try done;
          [by rewrite Hreq|].
        exists s. by rewrite Hst in Hs'.
    + destruct (step_sim_turn _ _ _ _ Hsd Hs) as [Hturn Hreq].
      destruct (IH w1 w2) as (s & Hs' & Hrest'); try done;
        [by rewrite Hreq|].
      exists s. split; [by eapply rtc_l|done].
Qed.

(** The display once the request has ended in the [catch] block. *)
Lemma failure_settlement w t o m tr w2 :
  req w = AwaitFetch ->
  failure_message o = Some m ->
  awaiting_body tr ->
  exec ((t, EvFetch o) :: tr) w = Some w2 ->
  req w2 = ReqIdle ->
  statuses (st w2) = (fun _ => error) <$> agents (st w) /\
  stage_logs (st w2)
    = (fun a => logs a ++ [AGENT_FAILURE_LINE]) <$> agents (st w) /\
  isAnalyzingRef (st w2) = false /\ isAnalyzing (st w2) = false /\
  exists s,
    rtc sim_turn (st w) s /\
    allLogs (st w2) = allLogs s ++ ["❌ Error: " +:+ m].
Proof.
  intros Hreq Hm Hall Hex Hidle.
  assert (exists s,
    rtc sim_turn (st w) s /\
    same_verdict (finally_block (catch_block m s)) (st w2) /\
    isAnalyzingRef (st w2) = false /\ isAnalyzing (st w2) = false)
    as (s & Hturns & (Hst & Hlogs & Hall' & _) & Hflag & Hbusy).
  { cbn in Hex.
    destruct (step t (EvFetch o) w) as [w1|] eqn:Hs; [|done].
    assert (resume (EvFetch o) (req w) = Some (after_fetch o)) as Hr
      by by rewrite Hreq.
    destruct (step_settles _ _ _ _ _ Hr Hs) as (Hst & Hreq1 & _).
    destruct (after_fetch_failure _ _ Hm) as [Hf|(pc & Hf & Hrd)];
      rewrite Hf in Hst, Hreq1; cbn in Hst, Hreq1.
    - destruct (settled_stays tr w1 w2) as (Hv & _ & Hflag & Hb);
        [done|by rewrite Hst|done|done|].
      exists (st w). rewrite Hst in Hv, Hb.
      split_and!; [done|done|done|by rewrite Hb].
    - destruct (failure_path o m tr w1 w2) as (s & Hs' & Hrest');
        try done; [by rewrite Hreq1|].
      exists s. by rewrite Hst in Hs'. }
  destruct (sim_turns_frame _ _ Hturns) as (Hl & Hlen & _).
  destruct (catch_block_spec m s) as (H1 & H2 & _ & H4 & _).
  split_and!; try done.
  - rewrite Hst, H1. apply list_eq. intros i.
    rewrite !list_lookup_fmap.
    destruct (agents s !! i) as [a|] eqn:Ha.
    + apply lookup_lt_Some in Ha. rewrite Hlen in Ha.
      apply lookup_lt_is_Some in Ha as [b ->]. done.
    + apply lookup_ge_None in Ha. rewrite Hlen in Ha.
      apply lookup_ge_None in Ha. by rewrite Ha.
  - rewrite Hlogs, H2.
    change ((fun a => logs a ++ [AGENT_FAILURE_LINE]) <$> agents s)
      with ((fun a => (fun l => l ++ [AGENT_FAILURE_LINE]) (logs a))
              <$> agents s).
    change ((fun a => logs a ++ [AGENT_FAILURE_LINE]) <$> agents (st w))
      with ((fun a => (fun l => l ++ [AGENT_FAILURE_LINE]) (logs a))
              <$> agents (st w)).
    rewrite !(list_fmap_compose logs (fun l => l ++ [AGENT_FAILURE_LINE])).
    unfold stage_logs in Hl. by rewrite Hl.
  - exists s. split; [done|]. by rewrite Hall', H4.
Qed.

End FailurePath.

(** C7, as the code has it.  For a response whose status is not a
    success the request ends in the [catch] block, after one or two reads
    of the body, with the message [settled_error_message]: the [detail] of
    the parsed body, converted to a string as [new Error] does, when the
    body parses to a value other than [null] that has a truthy [detail]
    (for a [detail] that is a non-empty string, that string; for an empty
    array, the empty text); the generic string when the body parses to
    such a value without a truthy [detail] (an object without it or with
    an empty or otherwise falsy one, a string, a number, a boolean, an
    array); the raw text, or the generic string when that text is empty,
    when the body does not parse or is [null].  That message, after the
    error prefix, is the line the [catch] block appends to the global
    log, whatever turns of the simulator come between the reads. *)
Theorem error_message_precedence w r t :
  req w = AwaitFetch ->
  ok r = false ->
  clock w <= t ->
  http_error_message r = Some (settled_error_message r) /\
  (exists n w',
     (n <= 2)%nat /\
     exec ((t, EvFetch (FetchResolves r)) :: repeat (t, EvBody) n) w
       = Some w' /\
     req w' = ReqIdle /\
     st w' = finally_block (catch_block (settled_error_message r) (st w)) /\
     allLogs (st w')
       = allLogs (st w) ++ ["❌ Error: " +:+ settled_error_message r]) /\
  (forall tr w2,
     awaiting_body tr ->
     exec ((t, EvFetch (FetchResolves r)) :: tr) w = Some w2 ->
     req w2 = ReqIdle ->
     exists s,
       rtc sim_turn (st w) s /\
       allLogs (st w2)
         = allLogs s ++ ["❌ Error: " +:+ settled_error_message r]).
Proof.
  intros Hreq Hok Hclock.
  assert (failure_message (FetchResolves r)
          = Some (settled_error_message r)) as Hm.
  { unfold failure_message. by rewrite Hok. }
  split; [apply http_error_message_spec|]. split.
  - destruct (request_path w t (FetchResolves r) Hreq Hclock)
      as (n & w' & Hn & Hex & Hidle & _ & _ & Hst).
    rewrite Hm in Hst.
    exists n, w'. split_and!; try done. by rewrite Hst.
  - intros tr w2 Hall Hex Hidle.
    by destruct (failure_settlement _ _ _ _ _ _ Hreq Hm Hall Hex Hidle)
      as (_ & _ & _ & _ & Hlog).
Qed.

Lemma error_message_precedence_witness :
  req (world_after stage1_run) = AwaitFetch /\
  ok validation_error_response = false /\
  clock (world_after stage1_run) <= 2510 /\
  settled_error_message validation_error_response = "[object Object]" /\
  awaiting_body late_error_tail /\
  exec ((2510, EvFetch (FetchResolves validation_error_response))
          :: late_error_tail) (world_after stage1_run)
    = Some (world_after late_error_run) /\
  req (world_after late_error_run) = ReqIdle /\
  allLogs (st (world_after late_error_run))
    = [ "🕵️ Agent Meta initialized..."; "🕵️ Agent Meta task completed.";
        "🔒 Agent Privacy initialized..."; "❌ Error: [object Object]" ] /\
  http_error_message validation_error_response
    = Some (settled_error_message validation_error_response) /\
  (exists n w',
     (n <= 2)%nat /\
     exec ((2510, EvFetch (FetchResolves validation_error_response))
             :: repeat (2510, EvBody) n) (world_after stage1_run)
       = Some w' /\
     req w' = ReqIdle /\
     st w' = finally_block
               (catch_block (settled_error_message validation_error_response)
                  (st (world_after stage1_run))) /\
     allLogs (st w')
       = allLogs (st (world_after stage1_run))
           ++ ["❌ Error: "
                 +:+ settled_error_message validation_error_response]) /\
  (exists s,
     rtc sim_turn (st (world_after stage1_run)) s /\
     allLogs (st (world_after late_error_run))
       = allLogs s
           ++ ["❌ Error: "
                 +:+ settled_error_message validation_error_response]).
Proof.
  assert (req (world_after stage1_run) = AwaitFetch)
    as H1 by (vm_compute; reflexivity).
  assert (ok validation_error_response = false)
    as H2 by (vm_compute; reflexivity).
  assert (clock (world_after stage1_run) <= 2510)
    as H3 by (vm_compute; discriminate).
  assert (settled_error_message validation_error_response
            = "[object Object]")
    as H4 by (vm_compute; reflexivity).
  assert (awaiting_body late_error_tail)
    as H5 by (repeat constructor).
  assert (exec ((2510, EvFetch (FetchResolves validation_error_response))
                  :: late_error_tail) (world_after stage1_run)
            = Some (world_after late_error_run))
    as H6 by (vm_compute; reflexivity).
  assert (req (world_after late_error_run) = ReqIdle)
    as H7 by (vm_compute; reflexivity).
  assert (allLogs (st (world_after late_error_run))
    = [ "🕵️ Agent Meta initialized..."; "🕵️ Agent Meta task completed.";
        "🔒 Agent Privacy initialized..."; "❌ Error: [object Object]" ])
    as H8 by (vm_compute; reflexivity).
  pose proof (error_message_precedence _ _ _ H1 H2 H3)
    as (Hm & Hend & Hall).
  exact (conj H1 (conj H2 (conj H3 (conj H4 (conj H5 (conj H6 (conj H7
    (conj H8 (conj Hm (conj Hend (Hall _ _ H5 H6 H7))))))))))).
Defined.

(** The message for bodies the stated precedence does not foresee: a
    [detail] that is an empty array, an array of mixed values, an object
    with a member [toString]; a body that is a number; a body that is
    [null]; a [detail] that is the empty string; a body that is no JSON
    text. *)
Lemma error_message_samples :
  http_error_message empty_detail_response = Some "" /\
  http_error_message mixed_detail_response
    = Some "1,,true,a,[object Object]" /\
  http_error_message shadowing_detail_response
    = Some "Cannot convert object to primitive value" /\
  http_error_message number_body_response
    = Some "HTTP Error 502: Bad Gateway" /\
  http_error_message null_body_response = Some "null" /\
  http_error_message blank_detail_response
    = Some "HTTP Error 400: Bad Request" /\
  http_error_message plain_text_response = Some "upstream timed out".
Proof. vm_compute. by split_and!. Qed.

(** C7 fails as stated: for a 500 response whose body is the JSON object
    without a [detail], the code reports the generic string, where the
    stated precedence gives the raw text. *)
Lemma object_without_detail_gets_generic_message :
  ok empty_object_response = false /\
  resp_text empty_object_response = "{}" /\
  http_error_message empty_object_response
    = Some "HTTP Error 500: Internal Server Error" /\
  claimed_error_message empty_object_response = "{}" /\
  http_error_message empty_object_response
    <> Some (claimed_error_message empty_object_response).
Proof. vm_compute. by split_and!. Qed.

(** C1. Let [fetch] settle with a failure outcome: it rejects, or the
    status is not a success, or the status is a success and the body
    cannot be parsed (or is [null]).  Then the request comes to an end,
    after at most two reads of the body.  And whenever it has come to an
    end, with whatever turns of the simulator between and after the reads
    and no action of the user: every stage has status [error], whatever
    its status was; the logs of each stage are its former logs followed by
    the one failure line; both flags are cleared; and the global log is
    the log the [catch] block found (the former log as the simulator's
    turns had extended it) followed by exactly one error line, which
    carries the message of the outcome. *)
Theorem failure_marks_every_stage_error w t o m :
  req w = AwaitFetch ->
  failure_message o = Some m ->
  clock w <= t ->
  (exists n w',
     (n <= 2)%nat /\
     exec ((t, EvFetch o) :: repeat (t, EvBody) n) w = Some w' /\
     req w' = ReqIdle) /\
  (forall tr w2,
     awaiting_body tr ->
     exec ((t, EvFetch o) :: tr) w = Some w2 ->
     req w2 = ReqIdle ->
     statuses (st w2) = (fun _ => error) <$> agents (st w) /\
     stage_logs (st w2)
       = (fun a => logs a ++ [AGENT_FAILURE_LINE]) <$> agents (st w) /\
     isAnalyzingRef (st w2) = false /\ isAnalyzing (st w2) = false /\
     exists s,
       rtc sim_turn (st w) s /\
       allLogs (st w2) = allLogs s ++ ["❌ Error: " +:+ m]).
Proof.
  intros Hreq Hm Hclock. split.
  - destruct (request_path w t o Hreq Hclock)
      as (n & w' & Hn & Hex & Hidle & _).
    by exists n, w'.
  - intros tr w2. by apply failure_settlement.
Qed.

Lemma failure_marks_every_stage_error_witness :
  (* a status that is not a success, its body read while the simulator
     goes on *)
  req (world_after stage1_run) = AwaitFetch /\
  failure_message (FetchResolves validation_error_response)
    = Some "[object Object]" /\
  clock (world_after stage1_run) <= 2510 /\
  awaiting_body late_error_tail /\
  exec ((2510, EvFetch (FetchResolves validation_error_response))
          :: late_error_tail) (world_after stage1_run)
    = Some (world_after late_error_run) /\
  req (world_after late_error_run) = ReqIdle /\
  statuses (st (world_after stage1_run)) = [complete; running; pending] /\
  statuses (st (world_after late_error_run)) = [error; error; error] /\
  (* a success whose body cannot be parsed *)
  failure_message (FetchResolves unparsable_response)
    = Some "Unexpected end of JSON input" /\
  (* the three kinds *)
  ((exists n w',
      (n <= 2)%nat /\
      exec ((2510, EvFetch (FetchResolves validation_error_response))
              :: repeat (2510, EvBody) n) (world_after stage1_run)
        = Some w' /\
      req w' = ReqIdle) /\
   (statuses (st (world_after late_error_run))
      = (fun _ => error) <$> agents (st (world_after stage1_run)) /\
    stage_logs (st (world_after late_error_run))
      = (fun a => logs a ++ [AGENT_FAILURE_LINE])
          <$> agents (st (world_after stage1_run)) /\
    isAnalyzingRef (st (world_after late_error_run)) = false /\
    isAnalyzing (st (world_after late_error_run)) = false /\
    exists s,
      rtc sim_turn (st (world_after stage1_run)) s /\
      allLogs (st (world_after late_error_run))
        = allLogs s ++ ["❌ Error: " +:+ "[object Object]"])) /\
  (exists n w',
     (n <= 2)%nat /\
     exec ((2510, EvFetch (FetchResolves unparsable_response))
             :: repeat (2510, EvBody) n) (world_after stage1_run)
       = Some w' /\
     req w' = ReqIdle) /\
  (exists n w',
     (n <= 2)%nat /\
     exec ((2510, EvFetch (FetchRejects "Failed to fetch"))
             :: repeat (2510, EvBody) n) (world_after stage1_run)
       = Some w' /\
     req w' = ReqIdle).
Proof.
  assert (req (world_after stage1_run) = AwaitFetch)
    as H1 by (vm_compute; reflexivity).
  assert (failure_message (FetchResolves validation_error_response)
            = Some "[object Object]")
    as H2 by (vm_compute; reflexivity).
  assert (clock (world_after stage1_run) <= 2510)
    as H3 by (vm_compute; discriminate).
  assert (awaiting_body late_error_tail)
    as H4 by (repeat constructor).
  assert (exec ((2510, EvFetch (FetchResolves validation_error_response))
                  :: late_error_tail) (world_after stage1_run)
            = Some (world_after late_error_run))
    as H5 by (vm_compute; reflexivity).
  assert (req (world_after late_error_run) = ReqIdle)
    as H6 by (vm_compute; reflexivity).
  assert (statuses (st (world_after stage1_run))
            = [complete; running; pending])
    as H7 by (vm_compute; reflexivity).
  assert (statuses (st (world_after late_error_run))
            = [error; error; error])
    as H8 by (vm_compute; reflexivity).
  assert (failure_message (FetchResolves unparsable_response)
            = Some "Unexpected end of JSON input")
    as H9 by (vm_compute; reflexivity).
  assert (failure_message (FetchRejects "Failed to fetch")
            = Some "Failed to fetch")
    as H10 by reflexivity.
  pose proof (failure_marks_every_stage_error _ 2510 _ _ H1 H2 H3)
    as [Hend Hall].
  pose proof (failure_marks_every_stage_error _ 2510 _ _ H1 H9 H3)
    as [Hend' _].
  pose proof (failure_marks_every_stage_error _ 2510 _ _ H1 H10 H3)
    as [Hend'' _].
  exact (conj H1 (conj H2 (conj H3 (conj H4 (conj H5 (conj H6 (conj H7
    (conj H8 (conj H9 (conj (conj Hend (Hall _ _ H4 H5 H6))
      (conj Hend' Hend''))))))))))).
Defined.

Section GlobalLog.

Lemma sim_wake_appends i start wt now rnd s s' pc :
  sim_wake i start wt now rnd s = (s', pc) ->
  allLogs s `prefix_of` allLogs s'.
Proof.
  apply (sim_wake_rel now rnd
           (fun s s' => allLogs s `prefix_of` allLogs s')); try done.
  - intros a b c. apply transitivity.
  - intros j s0. cbn. by apply prefix_app_r.
  - intros j s0. cbn. by apply prefix_app_r.
Qed.

Lemma settle_log o s :
  match o with
  | Succeeds data =>
      allLogs (fst (settle o s)) = default (allLogs s) (data_logs data)
  | _ => allLogs s `prefix_of` allLogs (fst (settle o s))
  end.
Proof.
  destruct o as [pc|data|m].
  - done.
  - by destruct (success_block_spec data s) as (_ & ? & _).
  - cbn. by apply prefix_app_r.
Qed.

End GlobalLog.

(** C6, as the code has it.  A turn of the event loop that runs code of
    the simulator or of [handleAnalyze]'s continuations extends the global
    log, with one exception: the success branch overwrites it with the
    payload's [logs] when the payload has them (and leaves it as it is
    when it has none).  The synchronous start of the simulator extends it
    too. *)
Theorem global_log_extends_unless_replaced now e w w' :
  step now e w = Some w' ->
  sim_driven e = true \/ is_Some (resume e (req w)) ->
  match resume e (req w) with
  | Some (Succeeds data) =>
      allLogs (st w') = default (allLogs (st w)) (data_logs data)
  | _ => allLogs (st w) `prefix_of` allLogs (st w')
  end /\
  (forall t rnd s, allLogs s `prefix_of`
                   allLogs (fst (simulateAgentProgress t rnd s))).
Proof.
  intros Hs He. split.
  2: { intros t rnd s.
       destruct (simulateAgentProgress t rnd s) as [s' pc] eqn:Hsim.
       by apply sim_stages_appends in Hsim. }
  destruct (resume e (req w)) as [o|] eqn:Hr.
  - destruct (step_settles _ _ _ _ _ Hr Hs) as (-> & _).
    pose proof (settle_log o (st w)) as Hl. by destruct o.
  - destruct He as [Hsd | [? ?]]; [|done].
    destruct (step_inv _ _ _ _ Hs) as (w1 & Htr & -> & _).
    destruct e; try discriminate Hsd; cbn in Htr.
    + destruct (sims w !! k) as [[i start wt armed|]|]; try done.
      case_match; [|done].
      destruct (sim_wake _ _ _ _ _ _) as [s' pc] eqn:Hw.
      injection Htr as <-. cbn. by apply sim_wake_appends in Hw.
    + destruct (narrate _ _) as [s'|] eqn:Hn; [|done].
      injection Htr as <-. cbn.
      apply narrate_frame in Hn as (_&_&->&_). done.
Qed.

Lemma global_log_extends_unless_replaced_witness :
  step 2502 (EvSimWake 0 steady) (world_after stage0_run)
    = Some (world_after stage1_run) /\
  sim_driven (EvSimWake 0 steady) = true /\
  allLogs (st (world_after stage0_run))
    `prefix_of` allLogs (st (world_after stage1_run)) /\
  step 501 EvBody (world_after logs_only_run)
    = Some (world_after (logs_only_run ++ [(501, EvBody)])) /\
  allLogs (st (world_after (logs_only_run ++ [(501, EvBody)])))
    = ["Scan complete"].
Proof.
  assert (step 2502 (EvSimWake 0 steady) (world_after stage0_run)
            = Some (world_after stage1_run))
    as H1 by (vm_compute; reflexivity).
  assert (sim_driven (EvSimWake 0 steady) = true) as H2 by reflexivity.
  assert (step 501 EvBody (world_after logs_only_run)
            = Some (world_after (logs_only_run ++ [(501, EvBody)])))
    as H3 by (vm_compute; reflexivity).
  assert (is_Some (resume EvBody (req (world_after logs_only_run)))) as H4
    by (vm_compute; eexists; reflexivity).
  exact (conj H1 (conj H2 (conj
    (proj1 (global_log_extends_unless_replaced _ _ _ _ H1 (or_introl H2)))
    (conj H3
      (proj1 (global_log_extends_unless_replaced _ _ _ _ H3
                (or_intror H4))))))).
Defined.

(** C6 fails as stated: the success branch replaces the global log.  At
    500 ms the log holds the simulator's first line; the payload's [logs]
    take its place. *)
Lemma success_replaces_global_log :
  exec logs_only_run initial_world = Some (world_after logs_only_run) /\
  req (world_after logs_only_run) = AwaitJson logs_only_response /\
  allLogs (st (world_after logs_only_run))
    = ["🕵️ Agent Meta initialized..."] /\
  (allLogs <$> (st <$> step 501 EvBody (world_after logs_only_run)))
    = Some ["Scan complete"] /\
  ~ (["🕵️ Agent Meta initialized..."] `prefix_of` ["Scan complete"]).
Proof.
  split_and!; try by vm_compute.
  intros [k Hk]. discriminate Hk.
Qed.

Section Running.

Lemma only_running_at_most_one i l :
  only_running i l -> at_most_one_running l.
Proof.
  intros H j k a b Ha Hb Hra Hrb.
  rewrite (H _ _ Ha Hra). by rewrite (H _ _ Hb Hrb).
Qed.

Lemma none_running_only i l : none_running l -> only_running i l.
Proof. intros H j a Ha Hr. by destruct (H _ _ Ha). Qed.

Lemma none_running_begin i s :
  none_running (agents s) -> only_running i (agents (stage_begin i s)).
Proof.
  intros H j a. rewrite stage_begin_lookup.
  destruct (agents s !! j) as [a0|] eqn:Ha0; [|done]. cbn.
  destruct (Nat.eqb_spec j i); [done|].
  intros [= <-] Hr. by destruct (H _ _ Ha0).
Qed.

Lemma only_running_complete i s :
  only_running i (agents s) -> none_running (agents (stage_complete i s)).
Proof.
  intros H j a. rewrite stage_complete_lookup.
  destruct (agents s !! j) as [a0|] eqn:Ha0; [|done]. cbn.
  destruct (Nat.eqb_spec j i) as [->|Hne]; intros [= <-]; [done|].
  intros Hr. by apply Hne, (H _ _ Ha0).
Qed.

Lemma sim_stages_discipline now rnd idxs : forall s s' pc,
  none_running (agents s) ->
  sim_stages idxs now rnd s = (s', pc) ->
  match pc with
  | SimDwell i _ _ _ => only_running i (agents s')
  | SimIdle => none_running (agents s')
  end.
Proof.
  induction idxs as [|i rest IH]; intros s s' pc Hnone; cbn.
  - by intros [= <- <-].
  - destruct (isAnalyzingRef s) eqn:Hflag; cbn; [|by intros [= <- <-]].
    unfold sim_while. cbn. rewrite Hflag. cbn.
    destruct (dwelling _ _ _).
    + intros [= <- <-]. by apply none_running_begin.
    + apply IH. by apply only_running_complete, none_running_begin.
Qed.

Lemma sim_wake_discipline now rnd i start wt s s' pc :
  only_running i (agents s) ->
  sim_wake i start wt now rnd s = (s', pc) ->
  match pc with
  | SimDwell k _ _ _ => only_running k (agents s')
  | SimIdle => at_most_one_running (agents s')
  end.
Proof.
  intros Honly. unfold sim_wake, sim_while.
  destruct (dwelling _ _ _), (isAnalyzingRef s); cbn;
    try (intros [= <- <-]; cbn; by eauto using only_running_at_most_one).
  intros Hrec.
  apply sim_stages_discipline in Hrec; [|by apply only_running_complete].
  destruct pc; [done|].
  eapply only_running_at_most_one, (none_running_only 0%nat), Hrec.
Qed.

Lemma none_running_reset l :
  none_running (agent_with pending [] "" <$> l).
Proof.
  intros j a. rewrite list_lookup_fmap.
  destruct (l !! j); [|done]. by intros [= <-].
Qed.

(** The success branch and the [catch] block set no stage [running]. *)
Lemma settle_running o s j a' :
  agents (fst (settle o s)) !! j = Some a' ->
  status a' = running ->
  exists a, agents s !! j = Some a /\ status a = running.
Proof.
  destruct o as [pc|data|m]; cbn.
  - eauto.
  - destruct (success_block_spec data s) as (Hag & _).
    cbn in Hag. rewrite Hag.
    destruct (data_agents data) as [bas|]; [|by eauto].
    rewrite list_lookup_fmap.
    destruct (agents s !! j) as [a|]; [|done]. cbn.
    unfold reconcile_agent. destruct (find_backendAgent bas a).
    + by intros [= <-].
    + intros [= <-]. eauto.
  - rewrite list_lookup_fmap.
    destruct (agents s !! j) as [a|]; [|done]. by intros [= <-].
Qed.

End Running.

Section Invariants.

Lemma settle_index o s :
  currentAgentIndex (fst (settle o s)) = currentAgentIndex s.
Proof.
  destruct o as [pc|data|m]; cbn; try done.
  by destruct (success_block_spec data s) as (_&_&_&_&_&?).
Qed.

Lemma live_app l1 l2 : live (l1 ++ l2) = live l1 ++ live l2.
Proof. apply omap_app. Qed.

Lemma live_cons x l : live (x :: l) = live [x] ++ live l.
Proof. by destruct x. Qed.

(** Replacing the program counter of one simulator changes its entry
    among the live stages and no other. *)
Lemma live_insert k : forall l pc0 pc,
  l !! k = Some pc0 ->
  exists a b,
    live l = a ++ live [pc0] ++ b /\
    live (<[k := pc]> l) = a ++ live [pc] ++ b.
Proof.
  induction k as [|k IH]; intros [|x l] pc0 pc Hk; try done.
  - injection Hk as ->. exists [], (live l). split; cbn.
    + by destruct pc0.
    + by destruct pc.
  - destruct (IH l pc0 pc Hk) as (a & b & Ha & Hb).
    exists (live [x] ++ a), b.
    change (<[S k := pc]> (x :: l)) with (x :: <[k := pc]> l).
    rewrite (live_cons x l), (live_cons x (<[k := pc]> l)), Ha, Hb.
    by rewrite <- !app_assoc.
Qed.

Lemma live_dwelling l k i start wt armed :
  l !! k = Some (SimDwell i start wt armed) ->
  (live l = [i] /\ forall pc, live (<[k := pc]> l) = live [pc]) \/
  (exists x y rest, live l = x :: y :: rest).
Proof.
  intros Hk.
  destruct (live_insert k l _ SimIdle Hk) as (a & b & Ha & _).
  destruct a as [|x [|y a]], b as [|z b]; cbn in Ha; try (right; by eauto).
  left. split; [done|]. intros pc.
  destruct (live_insert k l _ pc Hk) as (a' & b' & Ha' & Hb').
  rewrite Ha in Ha'. cbn in Ha'.
  destruct a' as [|? [|? ?]], b'; cbn in Ha'; try done.
  by rewrite Hb', app_nil_r.
Qed.

(** A world in which some simulator is alive has a sleeping one. *)
Lemma live_sleeper l :
  live l <> [] ->
  exists i start wt armed, SimDwell i start wt armed ∈ l.
Proof.
  induction l as [|[i start wt armed|] l IH]; [done| |].
  - intros _. exists i, start, wt, armed. apply list_elem_of_here.
  - intros Hl. destruct (IH Hl) as (i & start & wt & armed & Hin).
    exists i, start, wt, armed. by apply list_elem_of_further.
Qed.

(** After a wake the simulator sleeps on a fresh timer, or it has
    returned and no stage is active. *)
Lemma live_after_wake l k pc0 pc :
  l !! k = Some pc0 ->
  live (<[k := pc]> l) = [] -> pc = SimIdle.
Proof.
  intros Hk Hl.
  destruct (live_insert k l _ pc Hk) as (a & b & _ & Hb).
  rewrite Hl in Hb. destruct pc; [|done]. by destruct a.
Qed.

#[local] Arguments live : simpl never.

Lemma discipline_weaken alive l l' :
  (forall j a', l' !! j = Some a' -> status a' = running ->
     exists a, l !! j = Some a /\ status a = running) ->
  discipline_of alive l -> discipline_of alive l'.
Proof.
  intros Hsub. destruct alive as [|i [|? ?]]; cbn; [| |done].
  - intros H j k a' b' Ha' Hb' Hra Hrb.
    destruct (Hsub _ _ Ha' Hra) as (a & Ha & Hra0).
    destruct (Hsub _ _ Hb' Hrb) as (b & Hb & Hrb0). eauto.
  - intros H j a' Ha' Hr. destruct (Hsub _ _ Ha' Hr) as (a & Ha & Hra). eauto.
Qed.

Lemma discipline_same alive l l' :
  status <$> l' = status <$> l ->
  discipline_of alive l -> discipline_of alive l'.
Proof.
  intros Heq. apply discipline_weaken. intros j a' Ha' Hr.
  assert ((status <$> l) !! j = Some running) as Hj.
  { by rewrite <- Heq, list_lookup_fmap, Ha', <- Hr. }
  rewrite list_lookup_fmap in Hj.
  destruct (l !! j) as [a|]; [|done]. injection Hj as Hj. eauto.
Qed.

Lemma discipline_none alive l :
  none_running l ->
  match alive with [] | [_] => True | _ => False end ->
  discipline_of alive l.
Proof.
  intros Hn. destruct alive as [|i [|? ?]]; cbn; [| |done]; intros _.
  - by apply (only_running_at_most_one 0%nat), none_running_only.
  - by apply none_running_only.
Qed.

Lemma sim_stages_live now rnd idxs s s' pc :
  none_running (agents s) ->
  sim_stages idxs now rnd s = (s', pc) ->
  discipline_of (live [pc]) (agents s').
Proof.
  intros Hn Hsim. apply sim_stages_discipline in Hsim; [|done].
  destruct pc; unfold live; cbn; [done|].
  by apply (only_running_at_most_one 0%nat), none_running_only.
Qed.

Lemma step_stage_discipline now e w w' :
  stage_discipline w ->
  isolated e w = true ->
  step now e w = Some w' ->
  stage_discipline w'.
Proof.
  intros Hinv Hiso (w1 & Htr & -> & _)%step_inv.
  unfold stage_discipline in *. cbn.
  destruct e; cbv beta iota delta [transition] in Htr.
  - by injection Htr as <-.
  - by injection Htr as <-.
  - injection Htr as <-. unfold with_st. cbn.
    apply discipline_none; [apply none_running_reset|].
    destruct (live (sims w)) as [|? [|? ?]]; [done|done|exact Hinv].
  - destruct (isAnalyzing (st w)); [done|]. injection Htr as <-.
    unfold handleAnalyze.
    destruct (file (st w)); [|done].
    destruct (String.eqb _ _); [done|].
    destruct (simulateAgentProgress _ _ _) as [s2 pc] eqn:Hsim. cbn.
    unfold isolated in Hiso. cbn in Hiso.
    destruct (live (sims w)) eqn:Hlive; [|done].
    rewrite live_app, Hlive. cbn [app].
    eapply sim_stages_live; [|exact Hsim]. apply none_running_reset.
  - destruct (sims w !! k) as [[i start wt armed|]|] eqn:Hk; try done.
    case_match; [|done].
    destruct (sim_wake _ _ _ _ _ _) as [s' pc] eqn:Hw.
    injection Htr as <-. cbn.
    destruct (live_dwelling _ _ _ _ _ _ Hk)
      as [[Hlive Hins] | (x & y & rest & Hlive)];
      rewrite Hlive in Hinv; [|done].
    rewrite Hins. cbn in Hinv.
    pose proof (sim_wake_discipline _ _ _ _ _ _ _ _ Hinv Hw) as Hd.
    by destruct pc.
  - destruct (narrate _ _) as [s'|] eqn:Hn; [|done].
    injection Htr as <-. cbn.
    apply narrate_frame in Hn as (Hst & _).
    by eapply discipline_same.
  - destruct (resume _ _) as [o'|]; [|done].
    destruct (settle o' (st w)) as [s' pc] eqn:Hset.
    injection Htr as <-. cbn.
    eapply discipline_weaken; [|exact Hinv].
    intros j a'. replace s' with (fst (settle o' (st w))) by by rewrite Hset.
    apply settle_running.
  - destruct (resume _ _) as [o'|]; [|done].
    destruct (settle o' (st w)) as [s' pc] eqn:Hset.
    injection Htr as <-. cbn.
    eapply discipline_weaken; [|exact Hinv].
    intros j a'. replace s' with (fst (settle o' (st w))) by by rewrite Hset.
    apply settle_running.
Qed.

Lemma sim_stages_armed now rnd idxs : forall s s' pc,
  sim_stages idxs now rnd s = (s', pc) ->
  match pc with
  | SimDwell _ _ _ armed => armed = now
  | SimIdle => currentAgentIndex s' = -1
  end.
Proof.
  induction idxs as [|j rest IH]; intros s s' pc; cbn.
  - by intros [= <- <-].
  - destruct (isAnalyzingRef s) eqn:Hflag; cbn; [|by intros [= <- <-]].
    unfold sim_while. cbn. rewrite Hflag. cbn.
    destruct (dwelling _ _ _); [by intros [= <- <-]|]. apply IH.
Qed.

Lemma sim_wake_armed now rnd i start wt s s' pc :
  sim_wake i start wt now rnd s = (s', pc) ->
  match pc with
  | SimDwell _ _ _ armed => armed = now
  | SimIdle => currentAgentIndex s' = -1
  end.
Proof.
  unfold sim_wake, sim_while.
  destruct (dwelling _ _ _), (isAnalyzingRef s); cbn;
    try by intros [= <- <-].
  apply sim_stages_armed.
Qed.

Lemma armed_by_mono t t' pc : t <= t' -> armed_by t pc -> armed_by t' pc.
Proof. intros Ht. destruct pc; cbn; [lia|done]. Qed.

Lemma step_timer_discipline now e w w' :
  timer_discipline w -> step now e w = Some w' -> timer_discipline w'.
Proof.
  intros [Harm Hidx] (w1 & Htr & -> & Hclock)%step_inv.
  assert (Forall (armed_by now) (sims w)) as Harm'.
  { eapply Forall_impl; [exact Harm|]. intros pc. by apply armed_by_mono. }
  unfold timer_discipline in *. cbn.
  destruct e; cbv beta iota delta [transition] in Htr.
  - by injection Htr as <-.
  - by injection Htr as <-.
  - by injection Htr as <-.
  - destruct (isAnalyzing (st w)); [done|]. injection Htr as <-.
    unfold handleAnalyze.
    destruct (file (st w)); [|done].
    destruct (String.eqb _ _); [done|].
    destruct (simulateAgentProgress _ _ _) as [s2 pc] eqn:Hsim. cbn.
    apply sim_stages_armed in Hsim. split.
    + apply Forall_app. split; [done|]. constructor; [|done].
      destruct pc; cbn; [lia|done].
    + rewrite live_app. intros [_ Hl]%app_eq_nil. by destruct pc.
  - destruct (sims w !! k) as [[i start wt armed|]|] eqn:Hk; try done.
    case_match; [|done].
    destruct (sim_wake _ _ _ _ _ _) as [s' pc] eqn:Hw.
    injection Htr as <-. cbn.
    apply sim_wake_armed in Hw. split.
    + apply Forall_insert; [done|]. destruct pc; cbn; [lia|done].
    + intros Hl. apply (live_after_wake _ _ _ _ Hk) in Hl. by subst pc.
  - destruct (narrate _ _) as [s'|] eqn:Hn; [|done].
    injection Htr as <-. cbn.
    apply narrate_frame in Hn as (_&_&_&_&_&Hi&_).
    split; [done|]. intros Hl. rewrite Hi. by apply Hidx.
  - destruct (resume _ _) as [o'|]; [|done].
    pose proof (settle_index o' (st w)) as Hi.
    destruct (settle o' (st w)) as [s' pc].
    injection Htr as <-. cbn in *.
    split; [done|]. intros Hl. rewrite Hi. by apply Hidx.
  - destruct (resume _ _) as [o'|]; [|done].
    pose proof (settle_index o' (st w)) as Hi.
    destruct (settle o' (st w)) as [s' pc].
    injection Htr as <-. cbn in *.
    split; [done|]. intros Hl. rewrite Hi. by apply Hidx.
Qed.

Lemma exec_invariant (P : World -> Prop) :
  (forall now e w w', P w -> step now e w = Some w' -> P w') ->
  forall tr w w', P w -> exec tr w = Some w' -> P w'.
Proof.
  intros Hstep. induction tr as [|[now e] tr IH]; intros w w' HP; cbn.
  - by intros [= <-].
  - destruct (step now e w) as [w1|] eqn:Hs; [|done]. eauto.
Qed.

Lemma exec_isolated_invariant (P : World -> Prop) :
  (forall now e w w',
     P w -> isolated e w = true -> step now e w = Some w' -> P w') ->
  forall tr w w', P w -> exec_isolated tr w = Some w' -> P w'.
Proof.
  intros Hstep. induction tr as [|[now e] tr IH]; intros w w' HP; cbn.
  - by intros [= <-].
  - destruct (isolated e w) eqn:Hiso; [|done].
    destruct (step now e w) as [w1|] eqn:Hs; [|done]. eauto.
Qed.

Lemma isolated_stage_discipline tr w :
  exec_isolated tr initial_world = Some w -> stage_discipline w.
Proof.
  apply (exec_isolated_invariant _ step_stage_discipline).
  intros j k a b Ha Hb Hra. cbn in Ha.
  destruct j as [|[|[|j]]]; cbn in Ha; try done;
    injection Ha as <-; discriminate Hra.
Qed.

Lemma reachable_timer_discipline tr w :
  exec tr initial_world = Some w -> timer_discipline w.
Proof.
  apply (exec_invariant _ step_timer_discipline).
  split; [constructor|done].
Qed.

(** The button only starts a request when none is in flight. *)
Lemma step_request_idle now e w w' :
  (isAnalyzing (st w) = false -> req w = ReqIdle) ->
  step now e w = Some w' ->
  isAnalyzing (st w') = false -> req w' = ReqIdle.
Proof.
  intros Hinv (w1 & Htr & -> & _)%step_inv. cbn.
  destruct e; cbv beta iota delta [transition] in Htr.
  - by injection Htr as <-.
  - by injection Htr as <-.
  - by injection Htr as <-.
  - destruct (isAnalyzing (st w)) eqn:Hb; [done|]. injection Htr as <-.
    unfold handleAnalyze.
    destruct (file (st w)); [|by rewrite Hb].
    destruct (String.eqb _ _); [by rewrite Hb|].
    destruct (simulateAgentProgress _ _ _) as [s2 pc] eqn:Hsim. cbn.
    unfold simulateAgentProgress in Hsim.
    apply (sim_stages_rel _ _ (fun a b => isAnalyzing b = isAnalyzing a))
      in Hsim; try done; [|congruence].
    by rewrite Hsim.
  - destruct (sims w !! k) as [[i start wt armed|]|]; try done.
    case_match; [|done].
    destruct (sim_wake _ _ _ _ _ _) as [s' pc] eqn:Hw.
    injection Htr as <-. cbn.
    apply (sim_wake_rel _ _ (fun a b => isAnalyzing b = isAnalyzing a))
      in Hw; try done; [|congruence].
    by rewrite Hw.
  - destruct (narrate _ _) as [s'|] eqn:Hn; [|done].
    injection Htr as <-. cbn. unfold narrate in Hn.
    case_match; [done|].
    destruct (agents (st w) !! _); [|done].
    destruct (AGENT_THINKING _); [|done]. by injection Hn as <-.
  - destruct (resume _ _) as [o'|] eqn:Hr; [|done].
    destruct o' as [pc|data|m]; cbn in Htr; injection Htr as <-; cbn;
      try done.
    intros Hb. by rewrite (Hinv Hb) in Hr.
  - destruct (resume _ _) as [o'|] eqn:Hr; [|done].
    destruct o' as [pc|data|m]; cbn in Htr; injection Htr as <-; cbn;
      try done.
    intros Hb. by rewrite (Hinv Hb) in Hr.
Qed.

Lemma reachable_request_idle tr w :
  exec tr initial_world = Some w ->
  isAnalyzing (st w) = false -> req w = ReqIdle.
Proof. by apply (exec_invariant _ step_request_idle). Qed.

End Invariants.

Section Identities.

Lemma ids_imap (f : nat -> Agent -> Agent) (l : list Agent) :
  (forall i a, id (f i a) = id a) ->
  id <$> imap f l = id <$> l.
Proof.
  intros Hf. apply list_eq. intros i.
  rewrite !list_lookup_fmap, list_lookup_imap.
  destruct (l !! i) as [a|]; simpl; [by rewrite Hf | done].
Qed.

Lemma ids_map (f : Agent -> Agent) (l : list Agent) :
  (forall a, id (f a) = id a) ->
  id <$> (f <$> l) = id <$> l.
Proof.
  intros Hf. rewrite <- list_fmap_compose. apply list_fmap_ext.
  intros i a _. apply Hf.
Qed.

Lemma settle_ids o s :
  id <$> agents (fst (settle o s)) = id <$> agents s.
Proof.
  destruct o as [pc|data|m]; cbn; [done| |by apply ids_map].
  destruct (success_block_spec data s) as (Hag & _). cbn in Hag.
  rewrite Hag. destruct (data_agents data) as [bas|]; [|done].
  apply ids_map. intros a. unfold reconcile_agent.
  by destruct (find_backendAgent bas a).
Qed.

(** No transition changes the identifier of a stage. *)
Lemma step_ids now e w w' :
  step now e w = Some w' ->
  id <$> agents (st w') = id <$> agents (st w).
Proof.
  intros (w1 & Htr & -> & _)%step_inv. cbn.
  assert (forall i s, id <$> agents (stage_begin i s) = id <$> agents s)
    as Hb.
  { intros i s. cbn. apply ids_imap. intros j a. by destruct (j =? i)%nat. }
  assert (forall i s, id <$> agents (stage_complete i s) = id <$> agents s)
    as Hc.
  { intros i s. cbn. apply ids_imap. intros j a. by destruct (j =? i)%nat. }
  destruct e; cbv beta iota delta [transition] in Htr.
  - by injection Htr as <-.
  - by injection Htr as <-.
  - injection Htr as <-. cbn. by apply ids_map.
  - destruct (isAnalyzing (st w)); [done|]. injection Htr as <-.
    unfold handleAnalyze.
    destruct (file (st w)); [|done].
    destruct (String.eqb _ _); [done|].
    destruct (simulateAgentProgress _ _ _) as [s2 pc] eqn:Hsim. cbn.
    apply (sim_stages_rel _ _
             (fun a b => id <$> agents b = id <$> agents a)) in Hsim;
      try done; [|congruence].
    rewrite Hsim. cbn. by apply ids_map.
  - destruct (sims w !! k) as [[i start wt armed|]|]; try done.
    case_match; [|done].
    destruct (sim_wake _ _ _ _ _ _) as [s' pc] eqn:Hw.
    injection Htr as <-. cbn.
    apply (sim_wake_rel _ _
             (fun a b => id <$> agents b = id <$> agents a)) in Hw;
      try done. congruence.
  - destruct (narrate _ _) as [s'|] eqn:Hn; [|done].
    injection Htr as <-. cbn. unfold narrate in Hn.
    case_match; [done|].
    destruct (agents (st w) !! _); [|done].
    destruct (AGENT_THINKING _); [|done]. injection Hn as <-. cbn.
    apply ids_imap. intros j b. by case_match.
  - destruct (resume _ _) as [o'|]; [|done].
    pose proof (settle_ids o' (st w)) as Hi.
    destruct (settle o' (st w)) as [s' pc]. by injection Htr as <-.
  - destruct (resume _ _) as [o'|]; [|done].
    pose proof (settle_ids o' (st w)) as Hi.
    destruct (settle o' (st w)) as [s' pc]. by injection Htr as <-.
Qed.

(** The stages of every reachable world are the three of the dashboard,
    whose identifiers are in lower case. *)
Lemma reachable_ids tr w :
  exec tr initial_world = Some w ->
  id <$> agents (st w) = ["meta"; "privacy"; "vision"] /\
  Forall (fun a => toLowerCase (id a) = id a) (agents (st w)).
Proof.
  intros Hex.
  assert (id <$> agents (st w) = ["meta"; "privacy"; "vision"]) as Hids.
  { revert Hex.
    apply (exec_invariant
             (fun w => id <$> agents (st w) = ["meta"; "privacy"; "vision"]));
      [|done].
    intros now e w0 w1 Hinv Hs. by rewrite (step_ids _ _ _ _ Hs). }
  split; [done|].
  apply Forall_forall. intros a Ha.
  assert (id a ∈ id <$> agents (st w)) as Hin by by apply list_elem_of_fmap_2.
  rewrite Hids in Hin.
  repeat (apply elem_of_cons in Hin as [-> | Hin]; [done|]).
  by apply elem_of_nil in Hin.
Qed.

End Identities.

Section NewlyRunning.

Lemma statuses_begin i s j :
  statuses (stage_begin i s) !! j
  = if (j =? i)%nat then (fun _ => running) <$> statuses s !! j
    else statuses s !! j.
Proof.
  unfold statuses. rewrite !list_lookup_fmap, stage_begin_lookup.
  destruct (agents s !! j); cbn; by destruct (j =? i)%nat.
Qed.

Lemma statuses_complete i s j :
  statuses (stage_complete i s) !! j
  = if (j =? i)%nat then (fun _ => complete) <$> statuses s !! j
    else statuses s !! j.
Proof.
  unfold statuses. rewrite !list_lookup_fmap, stage_complete_lookup.
  destruct (agents s !! j); cbn; by destruct (j =? i)%nat.
Qed.

Lemma statuses_untouched now rnd idxs j s s' pc :
  j ∉ idxs ->
  sim_stages idxs now rnd s = (s', pc) ->
  statuses s' !! j = statuses s !! j.
Proof.
  intros Hj Hsim. unfold statuses. rewrite !list_lookup_fmap.
  by rewrite (sim_stages_untouched _ _ _ _ _ _ _ Hj Hsim).
Qed.

Lemma statuses_length s : length (statuses s) = length (agents s).
Proof. unfold statuses. by rewrite length_fmap. Qed.

(** A stage that a synchronous stretch of the simulator's loop over the
    stages [k .. k+n-1] leaves [running], and that was not [running]
    before, is one of them, and the stages from [k] up to it are
    [complete]. *)
Lemma sim_stages_newly_running now rnd n : forall k s s' pc,
  (k + n <= length (agents s))%nat ->
  sim_stages (seq k n) now rnd s = (s', pc) ->
  forall j,
    statuses s' !! j = Some running ->
    statuses s !! j <> Some running ->
    (k <= j)%nat /\
    forall i, (k <= i < j)%nat -> statuses s' !! i = Some complete.
Proof.
  induction n as [|n IH]; intros k s s' pc Hlen; cbn.
  - intros [= <- <-] j Hr Hn. by destruct Hn.
  - destruct (isAnalyzingRef s) eqn:Hflag; cbn.
    2: { intros [= <- <-] j Hr Hn. by destruct Hn. }
    unfold sim_while. cbn. rewrite Hflag. cbn.
    destruct (dwelling _ _ _).
    + intros [= <- <-] j Hr Hn. rewrite statuses_begin in Hr.
      destruct (Nat.eqb_spec j k) as [Heq|Hne]; [|done].
      split; [lia|]. intros i Hi. lia.
    + intros Hrec j Hr Hn.
      set (s2 := stage_complete k (stage_begin k s)) in *.
      assert (statuses s2 !! k = Some complete) as Hk.
      { unfold s2. rewrite statuses_complete, Nat.eqb_refl.
        rewrite statuses_begin, Nat.eqb_refl.
        destruct (statuses s !! k) eqn:Hsk; [done|].
        apply lookup_ge_None in Hsk. rewrite statuses_length in Hsk. lia. }
      assert (statuses s2 !! j <> Some running) as Hn2.
      { destruct (Nat.eq_dec j k) as [->|Hne]; [by rewrite Hk|].
        unfold s2. rewrite statuses_complete, statuses_begin.
        by destruct (Nat.eqb_spec j k). }
      assert (length (agents s2) = length (agents s)) as Hl2.
      { unfold s2. cbn. by rewrite !length_imap. }
      destruct (IH (S k) s2 s' pc ltac:(lia) Hrec j Hr Hn2) as [Hle Hc].
      split; [lia|]. intros i Hi.
      destruct (Nat.eq_dec i k) as [->|Hne]; [|apply Hc; lia].
      assert (k ∉ seq (S k) n) as Hout by (rewrite elem_of_seq; lia).
      by rewrite (statuses_untouched _ _ _ k _ _ _ Hout Hrec).
Qed.

Lemma sim_wake_newly_running now rnd i start wt s s' pc :
  sim_wake i start wt now rnd s = (s', pc) ->
  forall j,
    statuses s' !! j = Some running ->
    statuses s !! j <> Some running ->
    exists p, j = S p /\ statuses s' !! p = Some complete.
Proof.
  unfold sim_wake, sim_while.
  destruct (dwelling _ _ _), (isAnalyzingRef s); cbn;
    try (intros [= <- <-] j Hr Hn; by destruct Hn).
  intros Hrec j Hr Hn.
  set (s1 := stage_complete i s) in *.
  assert (statuses s1 !! j <> Some running) as Hn1.
  { unfold s1. rewrite statuses_complete.
    destruct (Nat.eqb_spec j i); [|done].
    by destruct (statuses s !! j). }
  assert (length (agents s1) = length (agents s)) as Hl1.
  { unfold s1. cbn. by rewrite length_imap. }
  unfold stages_after in Hrec.
  destruct (Nat.le_gt_cases (S i) (length (agents s))) as [Hin|Hout].
  - assert (S i + (length (agents s) - S i) <= length (agents s1))%nat
      as Hfit by lia.
    destruct (sim_stages_newly_running _ _ _ _ _ _ _ Hfit Hrec j Hr Hn1)
      as [Hle Hc].
    destruct j as [|p]; [lia|]. exists p. split; [done|].
    destruct (Nat.eq_dec p i) as [->|Hne]; [|apply Hc; lia].
    assert (i ∉ seq (S i) (length (agents s) - S i)) as Hout
      by (rewrite elem_of_seq; lia).
    rewrite (statuses_untouched _ _ _ i _ _ _ Hout Hrec).
    unfold s1. rewrite statuses_complete, Nat.eqb_refl.
    destruct (statuses s !! i) eqn:Hsi; [done|].
    apply lookup_ge_None in Hsi. rewrite statuses_length in Hsi. lia.
  - replace (length (agents s) - S i)%nat with 0%nat in Hrec by lia.
    cbn in Hrec. injection Hrec as <- <-. by destruct Hn1.
Qed.

End NewlyRunning.

(** What holds of the stage discipline when runs are isolated (the
    button is pressed only when every simulator started before has
    returned): at most one stage is [running]; a turn of the event loop
    that leaves a stage [running] that was not so before is a turn of a
    simulator (its synchronous start inside [handleAnalyze], or a firing
    of its timer), and the stage before it, if any, is [complete] when the
    turn ends. *)
Lemma isolated_runs_one_stage_at_a_time tr w :
  exec_isolated tr initial_world = Some w ->
  at_most_one_running (agents (st w)) /\
  (forall now e w' j,
     step now e w = Some w' ->
     statuses (st w') !! j = Some running ->
     statuses (st w) !! j <> Some running ->
     (is_analyze e = true \/ exists k rnd, e = EvSimWake k rnd) /\
     (forall p, j = S p -> statuses (st w') !! p = Some complete)).
Proof.
  intros Hreach. split.
  { pose proof (isolated_stage_discipline _ _ Hreach) as Hd.
    unfold stage_discipline in Hd.
    destruct (live (sims w)) as [|i [|? ?]]; cbn in Hd;
      eauto using only_running_at_most_one. done. }
  intros now e w' j (w1 & Htr & -> & _)%step_inv Hr Hn. cbn in Hr.
  destruct e; cbv beta iota delta [transition] in Htr.
  - injection Htr as <-. by destruct Hn.
  - injection Htr as <-. by destruct Hn.
  - injection Htr as <-. cbn in Hr. unfold statuses in Hr. cbn in Hr.
    rewrite <- list_fmap_compose, list_lookup_fmap in Hr.
    by destruct (agents (st w) !! j).
  - split; [by left|]. intros p ->.
    destruct (isAnalyzing (st w)); [done|]. injection Htr as <-.
    cbn. unfold handleAnalyze in Hr |- *.
    destruct (file (st w)); [|by destruct Hn].
    destruct (String.eqb _ _); [by destruct Hn|].
    destruct (simulateAgentProgress _ _ _) as [s2 pc] eqn:Hsim.
    cbn in Hr |- *.
    unfold simulateAgentProgress in Hsim.
    set (s1 := handleAnalyze_reset (st w)) in *.
    assert (0 + length (agents s1) <= length (agents s1))%nat as Hfit by lia.
    destruct (sim_stages_newly_running _ _ _ _ _ _ _ Hfit Hsim (S p) Hr)
      as [_ Hc].
    { unfold s1, statuses.
      rewrite handleAnalyze_reset_agents, <- list_fmap_compose,
        list_lookup_fmap.
      by destruct (agents (st w) !! S p). }
    apply Hc. lia.
  - destruct (sims w !! k) as [[i start wt armed|]|]; try done.
    case_match; [|done].
    destruct (sim_wake _ _ _ _ _ _) as [s' pc] eqn:Hw.
    injection Htr as <-. cbn in *.
    split; [right; eauto|].
    destruct (sim_wake_newly_running _ _ _ _ _ _ _ _ Hw j Hr Hn)
      as (p & -> & Hp).
    by intros ? [= <-].
  - destruct (narrate _ _) as [s'|] eqn:Hnarr; [|done].
    injection Htr as <-. cbn in *.
    apply narrate_frame in Hnarr as (Hst & _). by rewrite Hst in Hr.
  - destruct (resume _ _) as [o'|]; [|done].
    destruct (settle o' (st w)) as [s' pc] eqn:Hset.
    injection Htr as <-. cbn in *.
    unfold statuses in Hr, Hn. rewrite list_lookup_fmap in Hr, Hn.
    destruct (agents s' !! j) as [a'|] eqn:Ha'; [|done].
    injection Hr as Hr.
    destruct (settle_running o' (st w) j a') as (a & Ha & Hra);
      [by rewrite Hset|done|].
    rewrite Ha in Hn. cbn in Hn. by rewrite Hra in Hn.
  - destruct (resume _ _) as [o'|]; [|done].
    destruct (settle o' (st w)) as [s' pc] eqn:Hset.
    injection Htr as <-. cbn in *.
    unfold statuses in Hr, Hn. rewrite list_lookup_fmap in Hr, Hn.
    destruct (agents s' !! j) as [a'|] eqn:Ha'; [|done].
    injection Hr as Hr.
    destruct (settle_running o' (st w) j a') as (a & Ha & Hra);
      [by rewrite Hset|done|].
    rewrite Ha in Hn. cbn in Hn. by rewrite Hra in Hn.
Qed.

Lemma isolated_runs_one_stage_at_a_time_example :
  exec_isolated stage0_run initial_world = Some (world_after stage0_run) /\
  step 2502 (EvSimWake 0 steady) (world_after stage0_run)
    = Some (world_after stage1_run) /\
  statuses (st (world_after stage1_run)) !! 1%nat = Some running /\
  statuses (st (world_after stage0_run)) !! 1%nat <> Some running /\
  at_most_one_running (agents (st (world_after stage0_run))) /\
  (is_analyze (EvSimWake 0 steady) = true \/
   exists k rnd, EvSimWake 0 steady = EvSimWake k rnd) /\
  statuses (st (world_after stage1_run)) !! 0%nat = Some complete.
Proof.
  assert (exec_isolated stage0_run initial_world
            = Some (world_after stage0_run))
    as H1 by (vm_compute; reflexivity).
  assert (step 2502 (EvSimWake 0 steady) (world_after stage0_run)
            = Some (world_after stage1_run))
    as H2 by (vm_compute; reflexivity).
  assert (statuses (st (world_after stage1_run)) !! 1%nat = Some running)
    as H3 by (vm_compute; reflexivity).
  assert (statuses (st (world_after stage0_run)) !! 1%nat <> Some running)
    as H4 by (vm_compute; discriminate).
  pose proof (isolated_runs_one_stage_at_a_time _ _ H1) as [Hone Hnew].
  exact (conj H1 (conj H2 (conj H3 (conj H4 (conj Hone
    (conj (proj1 (Hnew _ _ _ _ H2 H3 H4))
          (proj2 (Hnew _ _ _ _ H2 H3 H4) 0%nat eq_refl))))))).
Defined.

(** C8 fails on the code.  The first request is rejected at 2510 ms while
    the first simulator sleeps in the dwell of stage 1; the button, enabled
    again, is pressed at 2520 ms.  [handleAnalyze] sets [isAnalyzingRef]
    once more, so the first simulator, woken at 2602 ms, does not leave its
    loop: at 5002 ms it completes stage 1 and sets stage 2 [running], while
    the second simulator still has stage 0 [running].  All timers are
    punctual. *)
Lemma stale_simulator_runs_second_stage :
  exec overlapping_run initial_world = Some (world_after overlapping_run) /\
  exec_punctual overlapping_run initial_world
    = Some (world_after overlapping_run) /\
  isAnalyzing (st (world_after interrupted_run)) = false /\
  sims (world_after restarted_run)
    = [ SimDwell 1 2502 (5000 # 2) 2502; SimDwell 0 2520 (5000 # 2) 2520 ] /\
  statuses (st (world_after restarted_run)) = [running; pending; pending] /\
  statuses (st (world_after overlapping_run))
    = [running; complete; running] /\
  sims (world_after overlapping_run)
    = [ SimDwell 2 5002 (5000 # 2) 5002; SimDwell 0 2520 (5000 # 2) 4920 ] /\
  ~ at_most_one_running (agents (st (world_after overlapping_run))).
Proof.
  split_and!; try (vm_compute; reflexivity).
  intros H.
  assert (0 = 2)%nat as Habs; [|discriminate Habs].
  eapply H; vm_compute; reflexivity.
Qed.

Section Cancellation.

#[local] Arguments live : simpl never.

Lemma settle_flag o s :
  isAnalyzingRef s = false -> isAnalyzingRef (fst (settle o s)) = false.
Proof.
  destruct o as [pc|data|m]; by cbn.
Qed.

Lemma punctual_on_time now w pc :
  punctual now w = true -> pc ∈ sims w -> on_time now pc = true.
Proof.
  unfold punctual. rewrite forallb_forall. intros H Hin.
  by apply H, list_elem_of_In.
Qed.

Lemma step_winding_down t now e w w' :
  winding_down t w ->
  is_analyze e = false ->
  step now e w = Some w' ->
  winding_down t w'.
Proof.
  intros (Hflag & Harm & Hidx) He (w1 & Htr & -> & _)%step_inv.
  unfold winding_down in *. cbn.
  destruct e; try discriminate He; cbv beta iota delta [transition] in Htr.
  - by injection Htr as <-.
  - by injection Htr as <-.
  - by injection Htr as <-.
  - destruct (sims w !! k) as [[i start wt armed|]|] eqn:Hk; try done.
    case_match; [|done].
    rewrite sim_wake_cancelled in Htr by done. injection Htr as <-. cbn.
    split_and!; try done. by apply Forall_insert.
  - destruct (narrate _ _) as [s'|] eqn:Hn; [|done].
    injection Htr as <-. cbn.
    apply narrate_frame in Hn as (_&_&_&_&Hf&Hi&_).
    split_and!; [congruence|done|]. intros Hl. rewrite Hi. by apply Hidx.
  - destruct (resume _ _) as [o'|]; [|done].
    pose proof (settle_index o' (st w)) as Hi.
    pose proof (settle_flag o' (st w) Hflag) as Hf.
    destruct (settle o' (st w)) as [s' pc].
    injection Htr as <-. cbn in *.
    split_and!; try done. intros Hl. rewrite Hi. by apply Hidx.
  - destruct (resume _ _) as [o'|]; [|done].
    pose proof (settle_index o' (st w)) as Hi.
    pose proof (settle_flag o' (st w) Hflag) as Hf.
    destruct (settle o' (st w)) as [s' pc].
    injection Htr as <-. cbn in *.
    split_and!; try done. intros Hl. rewrite Hi. by apply Hidx.
Qed.

Lemma sleeper_deadline t now w i start wt armed :
  Forall (armed_by t) (sims w) ->
  punctual now w = true ->
  SimDwell i start wt armed ∈ sims w ->
  now <= t + POLL_MS.
Proof.
  intros Harm Hp Hin.
  apply (punctual_on_time _ _ _ Hp) in Hin as Hon. cbn in Hon.
  rewrite Forall_forall in Harm. apply Harm in Hin. cbn in Hin.
  apply Z.leb_le in Hon. lia.
Qed.

Lemma winding_down_deadline t now e w w' :
  winding_down t w ->
  punctual now w = true ->
  sim_driven e = true ->
  step now e w = Some w' ->
  now <= t + POLL_MS.
Proof.
  intros (Hflag & Harm & Hidx) Hp Hsd (w1 & Htr & -> & _)%step_inv.
  destruct e; try discriminate Hsd;
    cbv beta iota delta [transition] in Htr.
  - destruct (sims w !! k) as [[i start wt armed|]|] eqn:Hk; try done.
    eapply sleeper_deadline; [done|done|].
    by eapply list_elem_of_lookup_2.
  - destruct (decide (live (sims w) = [])) as [Hl|Hl].
    + unfold narrate in Htr. by rewrite (Hidx Hl) in Htr.
    + destruct (live_sleeper _ Hl) as (i & start & wt & armed & Hin).
      by eapply sleeper_deadline.
Qed.

Lemma exec_punctual_deadline t tr : forall w w',
  winding_down t w ->
  no_new_run tr ->
  exec_punctual tr w = Some w' ->
  Forall (fun te => sim_driven (snd te) = true -> fst te <= t + POLL_MS) tr.
Proof.
  induction tr as [|[now e] tr IH]; intros w w' Hw Hno Hex; [done|].
  cbn in Hex. destruct (punctual now w) eqn:Hp; [|done].
  destruct (step now e w) as [w1|] eqn:Hs; [|done].
  inversion Hno as [|? ? He Hrest]; subst. cbn in He.
  constructor.
  - cbn. intros Hsd. by eapply winding_down_deadline.
  - eapply IH; [|done|done]. by eapply step_winding_down.
Qed.

Lemma wake_on_time now k rnd w w2 :
  punctual now w = true ->
  step now (EvSimWake k rnd) w = Some w2 ->
  exists i start wt armed,
    sims w !! k = Some (SimDwell i start wt armed) /\
    now = armed + POLL_MS /\
    match sims w2 !! k with
    | Some (SimDwell _ _ _ armed') =>
        armed' = now /\ isAnalyzingRef (st w) = true
    | _ => True
    end.
Proof.
  intros Hp (w1 & Htr & -> & _)%step_inv.
  cbv beta iota delta [transition] in Htr.
  destruct (sims w !! k) as [[i start wt armed|]|] eqn:Hk; try done.
  destruct (Z.leb_spec (armed + POLL_MS) now); [|done].
  pose proof (punctual_on_time _ _ _ Hp (list_elem_of_lookup_2 _ _ _ Hk))
    as Hon.
  cbn in Hon. apply Z.leb_le in Hon.
  destruct (sim_wake _ _ _ _ _ _) as [s' pc] eqn:Hw.
  injection Htr as <-. cbn.
  exists i, start, wt, armed. split_and!; [done|lia|].
  rewrite list_lookup_insert_eq by by eapply lookup_lt_Some.
  pose proof (sim_wake_armed _ _ _ _ _ _ _ _ Hw) as Ha.
  destruct pc as [j st0 wt0 a'|]; [|done]. split; [done|].
  destruct (isAnalyzingRef (st w)) eqn:Hflag; [done|].
  by rewrite sim_wake_cancelled in Hw.
Qed.

End Cancellation.

(** What holds of the polling when no new run starts.  Under punctual
    timers a simulator, while it dwells, wakes exactly [POLL_MS] = 100 ms
    after it last set its timer, and it sleeps on only if the flag was
    still set.  Once the flag is cleared, and until a new run sets it
    again, every turn of the event loop that runs simulator code happens
    within [POLL_MS] of the clearing, and such a turn changes no status,
    no stage log and no line of the global log. *)
Lemma cancellation_holds_until_a_new_run tr0 w :
  exec tr0 initial_world = Some w ->
  (forall now k rnd w2,
     punctual now w = true ->
     step now (EvSimWake k rnd) w = Some w2 ->
     exists i start wt armed,
       sims w !! k = Some (SimDwell i start wt armed) /\
       now = armed + POLL_MS /\
       match sims w2 !! k with
       | Some (SimDwell _ _ _ armed') =>
           armed' = now /\ isAnalyzingRef (st w) = true
       | _ => True
       end) /\
  (isAnalyzingRef (st w) = false ->
   (forall tr w',
      no_new_run tr ->
      exec_punctual tr w = Some w' ->
      Forall (fun te => sim_driven (snd te) = true ->
                        fst te <= clock w + POLL_MS) tr) /\
   (forall now e w2,
      sim_driven e = true ->
      step now e w = Some w2 ->
      same_verdict (st w) (st w2))).
Proof.
  intros Hreach. split; [intros now k rnd w2; apply wake_on_time|].
  intros Hflag. split.
  - intros tr w' Hno Hex.
    eapply exec_punctual_deadline; [|done|done].
    destruct (reachable_timer_discipline _ _ Hreach) as [Harm Hidx].
    by split.
  - intros now e w2 Hsd Hs.
    by destruct (step_frozen _ _ _ _ Hflag Hsd Hs) as [? _].
Qed.

Lemma cancellation_holds_until_a_new_run_example :
  exec interrupted_run initial_world = Some (world_after interrupted_run) /\
  isAnalyzingRef (st (world_after interrupted_run)) = false /\
  clock (world_after interrupted_run) = 2510 /\
  sims (world_after interrupted_run) = [SimDwell 1 2502 (5000 # 2) 2502] /\
  punctual 2602 (world_after interrupted_run) = true /\
  step 2602 (EvSimWake 0 steady) (world_after interrupted_run)
    = Some (world_after (interrupted_run ++ [(2602, EvSimWake 0 steady)])) /\
  no_new_run wind_down /\
  exec_punctual wind_down (world_after interrupted_run)
    = Some (world_after (interrupted_run ++ wind_down)) /\
  step 2550 EvNarrTick (world_after interrupted_run)
    = Some (world_after (interrupted_run ++ [(2550, EvNarrTick)])) /\
  (exists i start wt armed,
     sims (world_after interrupted_run) !! 0%nat
       = Some (SimDwell i start wt armed) /\
     2602 = armed + POLL_MS /\
     match
       sims (world_after (interrupted_run ++ [(2602, EvSimWake 0 steady)]))
         !! 0%nat
     with
     | Some (SimDwell _ _ _ armed') =>
         armed' = 2602 /\
         isAnalyzingRef (st (world_after interrupted_run)) = true
     | _ => True
     end) /\
  Forall (fun te => sim_driven (snd te) = true ->
                    fst te <= clock (world_after interrupted_run) + POLL_MS)
    wind_down /\
  same_verdict (st (world_after interrupted_run))
    (st (world_after (interrupted_run ++ [(2550, EvNarrTick)]))).
Proof.
  assert (exec interrupted_run initial_world
            = Some (world_after interrupted_run))
    as H1 by (vm_compute; reflexivity).
  assert (isAnalyzingRef (st (world_after interrupted_run)) = false)
    as H2 by (vm_compute; reflexivity).
  assert (clock (world_after interrupted_run) = 2510)
    as H3 by (vm_compute; reflexivity).
  assert (sims (world_after interrupted_run)
            = [SimDwell 1 2502 (5000 # 2) 2502])
    as H4 by (vm_compute; reflexivity).
  assert (punctual 2602 (world_after interrupted_run) = true)
    as H5 by (vm_compute; reflexivity).
  assert (step 2602 (EvSimWake 0 steady) (world_after interrupted_run)
    = Some (world_after (interrupted_run ++ [(2602, EvSimWake 0 steady)])))
    as H6 by (vm_compute; reflexivity).
  assert (no_new_run wind_down) as H7 by (repeat constructor).
  assert (exec_punctual wind_down (world_after interrupted_run)
            = Some (world_after (interrupted_run ++ wind_down)))
    as H8 by (vm_compute; reflexivity).
  assert (step 2550 EvNarrTick (world_after interrupted_run)
    = Some (world_after (interrupted_run ++ [(2550, EvNarrTick)])))
    as H9 by (vm_compute; reflexivity).
  assert (sim_driven EvNarrTick = true) as H10 by reflexivity.
  pose proof (cancellation_holds_until_a_new_run _ _ H1)
    as [Hpoll Hcancel].
  exact (conj H1 (conj H2 (conj H3 (conj H4 (conj H5 (conj H6 (conj H7
    (conj H8 (conj H9 (conj (Hpoll _ _ _ _ H5 H6)
      (conj (proj1 (Hcancel H2) _ _ H7 H8)
            (proj2 (Hcancel H2) _ _ _ H10 H9)))))))))))).
Defined.

(** C3 fails on the code.  In [overlapping_run] the flag is cleared at
    2510 ms, by the rejection of the first request, while the first
    simulator sleeps.  The click of 2520 ms sets the shared flag again
    (line 181), so the polls of that simulator, every 100 ms and on time,
    find it set.  At 5002 ms, 2492 ms after the cancellation, a turn of
    that simulator changes the statuses of two stages and appends two
    lines to the global log. *)
Lemma cancelled_simulator_mutates_after_restart :
  isAnalyzingRef (st (world_after stage1_run)) = true /\
  step 2510 (EvFetch (FetchRejects "Failed to fetch"))
    (world_after stage1_run) = Some (world_after interrupted_run) /\
  isAnalyzingRef (st (world_after interrupted_run)) = false /\
  clock (world_after interrupted_run) = 2510 /\
  sims (world_after interrupted_run) = [SimDwell 1 2502 (5000 # 2) 2502] /\
  exec_punctual after_rejection (world_after interrupted_run)
    = Some (world_after stale_dwell_run) /\
  punctual 5002 (world_after stale_dwell_run) = true /\
  sims (world_after stale_dwell_run) !! 0%nat
    = Some (SimDwell 1 2502 (5000 # 2) 4902) /\
  step 5002 (EvSimWake 0 steady) (world_after stale_dwell_run)
    = Some (world_after overlapping_run) /\
  sim_driven (EvSimWake 0 steady) = true /\
  2510 + POLL_MS < 5002 /\
  statuses (st (world_after stale_dwell_run)) = [running; pending; pending] /\
  statuses (st (world_after overlapping_run))
    = [running; complete; running] /\
  allLogs (st (world_after stale_dwell_run))
    = ["🕵️ Agent Meta initialized..."] /\
  allLogs (st (world_after overlapping_run))
    = [ "🕵️ Agent Meta initialized..."; "🔒 Agent Privacy task completed.";
        "🧠 Agent Vision initialized..." ] /\
  ~ same_verdict (st (world_after stale_dwell_run))
      (st (world_after overlapping_run)).
Proof.
  split_and!; try (vm_compute; reflexivity).
  intros (Hst & _). vm_compute in Hst. discriminate Hst.
Qed.

(** * Further properties *)

Section Reachable.

(** A property of the component state and of the request's program
    counter that every piece of code run by the event loop preserves holds
    after every turn. *)
Lemma step_invariant (P : State -> ReqPc -> Prop) :
  (forall v s r, P s r -> P (setClaimedAmount v s) r) ->
  (forall v s r, P s r -> P (setExpectedBank v s) r) ->
  (forall f s r, P s r -> P (handleFileSelect f s) r) ->
  (forall now rnd s r s' pc,
     P s r -> isAnalyzing s = false ->
     simulateAgentProgress now rnd (handleAnalyze_reset s) = (s', pc) ->
     P s' AwaitFetch) ->
  (forall i start wt now rnd s r s' pc,
     P s r -> sim_wake i start wt now rnd s = (s', pc) -> P s' r) ->
  (forall k s r s', P s r -> narrate k s = Some s' -> P s' r) ->
  (forall e s r o,
     P s r -> resume e r = Some o ->
     P (fst (settle o s)) (snd (settle o s))) ->
  forall now e w w',
    P (st w) (req w) -> step now e w = Some w' -> P (st w') (req w').
Proof.
  intros Ha Hb Hf Hrun Hwake Hnarr Hset now e w w' HP
    (w1 & Htr & -> & _)%step_inv. cbn.
  destruct e; cbv beta iota delta [transition] in Htr.
  - injection Htr as <-. by apply Ha.
  - injection Htr as <-. by apply Hb.
  - injection Htr as <-. by apply Hf.
  - destruct (isAnalyzing (st w)) eqn:Hbusy; [done|]. injection Htr as <-.
    unfold handleAnalyze.
    destruct (file (st w)); [|done].
    destruct (String.eqb _ _); [done|].
    destruct (simulateAgentProgress _ _ _) as [s2 pc] eqn:Hsim. cbn.
    exact (Hrun _ _ _ _ _ _ HP Hbusy Hsim).
  - destruct (sims w !! k) as [[i start wt armed|]|]; try done.
    case_match; [|done].
    destruct (sim_wake _ _ _ _ _ _) as [s' pc] eqn:Hw.
    injection Htr as <-. cbn. exact (Hwake _ _ _ _ _ _ _ _ _ HP Hw).
  - destruct (narrate _ _) as [s'|] eqn:Hn; [|done].
    injection Htr as <-. cbn. exact (Hnarr _ _ _ _ HP Hn).
  - destruct (resume _ _) as [o'|] eqn:Hr; [|done].
    specialize (Hset _ _ _ _ HP Hr).
    destruct (settle o' (st w)) as [s' pc]. by injection Htr as <-.
  - destruct (resume _ _) as [o'|] eqn:Hr; [|done].
    specialize (Hset _ _ _ _ HP Hr).
    destruct (settle o' (st w)) as [s' pc]. by injection Htr as <-.
Qed.

Lemma resume_in_flight e r o : resume e r = Some o -> r <> ReqIdle.
Proof. by destruct e, r. Qed.

Lemma resume_suspends e r pc :
  resume e r = Some (Suspends pc) -> pc <> ReqIdle.
Proof.
  destruct e, r; try done; cbn; intros [= H]; revert H.
  - destruct o as [m|r0]; [done|]. cbn. by destruct (ok r0); intros [= <-].
  - by destruct (after_error_json_spec r) as [->|[-> _]]; intros [= <-].
  - by rewrite after_error_text_spec.
  - unfold after_json. by destruct (resp_json r).
Qed.

Lemma none_error_imap (f : nat -> Agent -> Agent) (l : list Agent) :
  (forall i a, status a <> error -> status (f i a) <> error) ->
  Forall (fun a => status a <> error) l ->
  Forall (fun a => status a <> error) (imap f l).
Proof.
  intros Hf Hn. apply Forall_lookup. intros i a. rewrite list_lookup_imap.
  destruct (l !! i) as [b|] eqn:Hb; [|done]. intros [= <-].
  apply Hf. by eapply (proj1 (Forall_lookup _ _) Hn).
Qed.

Lemma sim_frame_refl s : sim_frame s s.
Proof. by unfold sim_frame. Qed.

Lemma sim_frame_trans a b c : sim_frame a b -> sim_frame b c -> sim_frame a c.
Proof.
  unfold sim_frame. intros (?&?&?&?&?&?&?) (?&?&?&?&?&?&?).
  split_and!; try congruence. auto.
Qed.

Lemma sim_frame_begin i s : sim_frame s (stage_begin i s).
Proof.
  unfold sim_frame. split_and!; try done. unfold none_error. cbn.
  apply none_error_imap. intros j a Ha. by destruct (j =? i)%nat.
Qed.

Lemma sim_frame_complete i s : sim_frame s (stage_complete i s).
Proof.
  unfold sim_frame. split_and!; try done. unfold none_error. cbn.
  apply none_error_imap. intros j a Ha. by destruct (j =? i)%nat.
Qed.

Lemma sim_stages_frame now rnd idxs s s' pc :
  sim_stages idxs now rnd s = (s', pc) -> sim_frame s s'.
Proof.
  apply (sim_stages_rel now rnd sim_frame).
  - apply sim_frame_refl.
  - apply sim_frame_trans.
  - intros s0. by unfold sim_frame.
  - intros i s0 _. apply sim_frame_begin.
  - intros i s0 _. apply sim_frame_complete.
Qed.

Lemma sim_wake_frame now rnd i start wt s s' pc :
  sim_wake i start wt now rnd s = (s', pc) -> sim_frame s s'.
Proof.
  apply (sim_wake_rel now rnd sim_frame).
  - apply sim_frame_refl.
  - apply sim_frame_trans.
  - intros s0. by unfold sim_frame.
  - intros j s0. apply sim_frame_begin.
  - intros j s0. apply sim_frame_complete.
Qed.

Lemma none_error_reset (f : list Agent -> list Agent) l :
  Forall (fun a => status a <> error) (agent_with pending [] "" <$> l).
Proof. apply Forall_fmap, Forall_true. done. Qed.

Lemma narrate_none_error k s s' :
  narrate k s = Some s' -> none_error s -> none_error s'.
Proof.
  intros (Hst & _)%narrate_frame. unfold none_error, statuses in *.
  intros Hn. apply Forall_lookup. intros i a Ha.
  assert (status <$> agents s' !! i = Some (status a)) as Hs
    by by rewrite Ha.
  rewrite <- list_lookup_fmap, Hst, list_lookup_fmap in Hs.
  destruct (agents s !! i) as [b|] eqn:Hb; [|done].
  injection Hs as <-. by eapply (proj1 (Forall_lookup _ _) Hn).
Qed.

Lemma narrate_flags k s s' :
  narrate k s = Some s' ->
  isAnalyzing s' = isAnalyzing s /\ isAnalyzingRef s' = isAnalyzingRef s /\
  result s' = result s.
Proof.
  unfold narrate. case_match; [done|].
  destruct (agents s !! _); [|done].
  destruct (AGENT_THINKING _); [|done]. by intros [= <-].
Qed.

Lemma reconcile_none_error bas s :
  none_error s -> none_error (setAgents (map (reconcile_agent bas)) s).
Proof.
  unfold none_error. cbn. intros Hn. apply Forall_fmap.
  eapply Forall_impl; [exact Hn|]. intros a Ha. cbn.
  unfold reconcile_agent. by destruct (find_backendAgent bas a).
Qed.

Lemma step_run_state now e w w' :
  run_state (st w) (req w) -> step now e w = Some w' ->
  run_state (st w') (req w').
Proof.
  apply step_invariant; unfold run_state.
  - intros v s r (?&?&?&?). done.
  - intros v s r (?&?&?&?). done.
  - intros f s r (?&?&?&?). split_and!; try done.
    + intros _. split; [done|]. by apply none_error_reset.
    + right. by apply none_error_reset.
  - intros now0 rnd s r s' pc _ _ Hsim.
    apply sim_stages_frame in Hsim as (E1 & E2 & E3 & _ & _ & _ & E4).
    cbn in E1, E2, E3.
    assert (none_error s') as Hn by by apply E4, none_error_reset.
    split_and!; try done; [congruence|auto].
  - intros i start wt now0 rnd s r s' pc (H1 & H2 & H3 & H4) Hw.
    pose proof (sim_wake_frame _ _ _ _ _ _ _ _ Hw)
      as (E1 & E2 & E3 & _ & _ & _ & E4).
    split_and!; try congruence.
    + rewrite E1, E3. intros Hb. destruct (H3 Hb). auto.
    + destruct (decide (isAnalyzingRef s = true)) as [Hflag|Hflag].
      * right. apply E4. rewrite H1 in Hflag. by destruct (H3 Hflag).
      * apply not_true_is_false in Hflag.
        rewrite sim_wake_cancelled in Hw by done. by injection Hw as <- _.
  - intros k s r s' (H1 & H2 & H3 & H4) Hn.
    pose proof (narrate_flags _ _ _ Hn) as (E1 & E2 & E3).
    pose proof (narrate_frame _ _ _ Hn) as (Hst & _).
    split_and!; try congruence.
    + rewrite E1, E3. intros Hb. destruct (H3 Hb).
      split; [done|]. by eapply narrate_none_error.
    + destruct H4 as [Ha|Hno]; [left|right; by eapply narrate_none_error].
      unfold all_error, statuses in *.
      apply Forall_lookup. intros i a Ha'.
      assert (status <$> agents s' !! i = Some (status a)) as Hs
        by by rewrite Ha'.
      rewrite <- list_lookup_fmap, Hst, list_lookup_fmap in Hs.
      destruct (agents s !! i) as [b|] eqn:Hb; [|done].
      injection Hs as <-. by eapply (proj1 (Forall_lookup _ _) Ha).
  - intros e0 s r o (H1 & H2 & H3 & H4) Hr.
    destruct o as [pc|data|m]; cbn.
    + split_and!; try done.
      split; [intros _; by eapply resume_suspends|].
      intros _. apply H2. by eapply resume_in_flight.
    + split_and!; try done.
      right. apply resume_in_flight in Hr. apply H2 in Hr.
      destruct (H3 Hr) as (_ & Hn).
      unfold success_block. destruct (data_agents data) as [bas|];
        destruct (data_logs data); cbn; try done;
        by apply (reconcile_none_error bas s).
    + split_and!; try done.
      left. unfold all_error. cbn. by apply Forall_fmap, Forall_true.
Qed.

Lemma reachable_run_state tr w :
  exec tr initial_world = Some w -> run_state (st w) (req w).
Proof.
  apply (exec_invariant (fun w => run_state (st w) (req w))).
  - intros now e w0 w1. apply step_run_state.
  - unfold run_state. cbn. split_and!; try done.
    right. unfold none_error. cbn. by repeat constructor.
Qed.

End Reachable.

Section Registry.

Lemma identity_imap (f : nat -> Agent -> Agent) (l : list Agent) :
  (forall i a, identity (f i a) = identity a) ->
  identity <$> imap f l = identity <$> l.
Proof.
  intros Hf. apply list_eq. intros i.
  rewrite !list_lookup_fmap, list_lookup_imap.
  destruct (l !! i) as [a|]; simpl; [by rewrite Hf | done].
Qed.

Lemma identity_map (f : Agent -> Agent) (l : list Agent) :
  (forall a, identity (f a) = identity a) ->
  identity <$> (f <$> l) = identity <$> l.
Proof.
  intros Hf. rewrite <- list_fmap_compose. apply list_fmap_ext.
  intros i a _. apply Hf.
Qed.

Lemma identity_begin i s :
  identity <$> agents (stage_begin i s) = identity <$> agents s.
Proof. cbn. apply identity_imap. intros j a. by destruct (j =? i)%nat. Qed.

Lemma identity_complete i s :
  identity <$> agents (stage_complete i s) = identity <$> agents s.
Proof. cbn. apply identity_imap. intros j a. by destruct (j =? i)%nat. Qed.

Lemma step_identity now e w w' :
  identity <$> agents (st w) = identity <$> initial_agents ->
  step now e w = Some w' ->
  identity <$> agents (st w') = identity <$> initial_agents.
Proof.
  apply (step_invariant
    (fun s _ => identity <$> agents s = identity <$> initial_agents)).
  - done.
  - done.
  - intros f s _ <-. cbn. by apply identity_map.
  - intros now0 rnd s _ s' pc <- _ Hsim.
    apply (sim_stages_rel _ _
      (fun a b => identity <$> agents b = identity <$> agents a)) in Hsim.
    + rewrite Hsim. cbn. by apply identity_map.
    + done.
    + congruence.
    + done.
    + intros. apply identity_begin.
    + intros. apply identity_complete.
  - intros i start wt now0 rnd s _ s' pc <- Hw.
    apply (sim_wake_rel _ _
      (fun a b => identity <$> agents b = identity <$> agents a)) in Hw.
    + done.
    + done.
    + congruence.
    + done.
    + intros. apply identity_begin.
    + intros. apply identity_complete.
  - intros k s _ s' <-. unfold narrate. case_match; [done|].
    destruct (agents s !! _); [|done].
    destruct (AGENT_THINKING _); [|done]. intros [= <-]. cbn.
    apply identity_imap. intros j b. by case_match.
  - intros e0 s r o <- _. destruct o as [pc|data|m]; cbn.
    + done.
    + unfold success_block.
      destruct (data_agents data) as [bas|], (data_logs data); cbn;
        try done; apply identity_map; intros a; unfold reconcile_agent;
        by destruct (find_backendAgent bas a).
    + by apply identity_map.
Qed.

Lemma reset_restores_initial (l : list Agent) :
  identity <$> l = identity <$> initial_agents ->
  agent_with pending [] "" <$> l = initial_agents.
Proof.
  intros H. destruct l as [|a [|b [|c [|d l]]]]; try done.
  destruct a, b, c. unfold identity in H. by simplify_eq/=.
Qed.

Lemma reachable_identity tr w :
  exec tr initial_world = Some w ->
  identity <$> agents (st w) = identity <$> initial_agents.
Proof.
  apply (exec_invariant
    (fun w => identity <$> agents (st w) = identity <$> initial_agents)).
  - intros now e w0 w1. apply step_identity.
  - done.
Qed.

End Registry.

(** X1. In every reachable world the dashboard has its three stages, in
    their order, each with the identifier, the icon and the name it was
    created with: no code path adds, removes or renames a stage. *)
Theorem stage_identity_is_invariant tr w :
  exec tr initial_world = Some w ->
  identity <$> agents (st w)
  = [ ("meta", "🕵️", "Agent Meta");
      ("privacy", "🔒", "Agent Privacy");
      ("vision", "🧠", "Agent Vision") ].
Proof. apply reachable_identity. Qed.

Lemma stage_identity_is_invariant_witness :
  exec records_run initial_world = Some (world_after records_run) /\
  identity <$> agents (st (world_after records_run))
  = [ ("meta", "🕵️", "Agent Meta");
      ("privacy", "🔒", "Agent Privacy");
      ("vision", "🧠", "Agent Vision") ].
Proof.
  assert (H : exec records_run initial_world = Some (world_after records_run))
    by (vm_compute; reflexivity).
  exact (conj H (stage_identity_is_invariant _ _ H)).
Defined.

(** X2. In every reachable world the button's busy state and the
    simulator's flag agree, and they are set exactly while a call of
    [handleAnalyze] is suspended at one of its [await]s: every way the
    request can end runs the [finally] block.  So the Analyze button is
    enabled exactly when a file and an amount are there and no request is
    in flight. *)
Theorem busy_exactly_while_request_in_flight tr w :
  exec tr initial_world = Some w ->
  isAnalyzingRef (st w) = isAnalyzing (st w) /\
  (isAnalyzing (st w) = true <-> req w <> ReqIdle) /\
  (analyze_disabled (st w) = false <->
   is_Some (file (st w)) /\ claimedAmount (st w) <> "" /\ req w = ReqIdle).
Proof.
  intros (H1 & H2 & _)%reachable_run_state.
  split; [done|]. split; [exact H2|]. split.
  - unfold analyze_disabled. intros Hen.
    destruct (file (st w)) as [f|]; [|done].
    apply orb_false_iff in Hen as [Ham Hbusy].
    split_and!; [by eexists|by apply String.eqb_neq|].
    destruct (req w); try reflexivity;
      (assert (isAnalyzing (st w) = true) by (by apply H2)); congruence.
  - intros ([f Hf] & Ham & Hreq). unfold analyze_disabled. rewrite Hf.
    apply orb_false_iff. split; [by apply String.eqb_neq|].
    apply not_true_is_false. by intros Hb%H2.
Qed.

Lemma busy_exactly_while_request_in_flight_witness :
  exec start_run initial_world = Some (world_after start_run) /\
  isAnalyzingRef (st (world_after start_run))
  = isAnalyzing (st (world_after start_run)) /\
  (isAnalyzing (st (world_after start_run)) = true
   <-> req (world_after start_run) <> ReqIdle) /\
  (analyze_disabled (st (world_after start_run)) = false <->
   is_Some (file (st (world_after start_run))) /\
   claimedAmount (st (world_after start_run)) <> "" /\
   req (world_after start_run) = ReqIdle).
Proof.
  assert (H : exec start_run initial_world = Some (world_after start_run))
    by (vm_compute; reflexivity).
  exact (conj H (busy_exactly_while_request_in_flight _ _ H)).
Defined.

(** X3. While a run is in progress no result is stored and no stage has
    status [error]: the result panel and the failure marks only ever
    appear once the request has settled. *)
Theorem nothing_final_while_busy tr w :
  exec tr initial_world = Some w ->
  isAnalyzing (st w) = true ->
  result (st w) = None /\ none_error (st w).
Proof. intros (_ & _ & H3 & _)%reachable_run_state. exact H3. Qed.

Lemma nothing_final_while_busy_witness :
  exec stage1_run initial_world = Some (world_after stage1_run) /\
  isAnalyzing (st (world_after stage1_run)) = true /\
  result (st (world_after stage1_run)) = None /\
  none_error (st (world_after stage1_run)).
Proof.
  assert (H1 : exec stage1_run initial_world = Some (world_after stage1_run))
    by (vm_compute; reflexivity).
  assert (H2 : isAnalyzing (st (world_after stage1_run)) = true)
    by (vm_compute; reflexivity).
  exact (conj H1 (conj H2 (nothing_final_while_busy _ _ H1 H2))).
Defined.

(** X4. In every reachable world either every stage has status [error]
    or none has: a failure marks all stages at once, and nothing that
    runs afterwards (a stale simulator, the narration) brings a single
    stage back. *)
Theorem error_is_all_or_nothing tr w :
  exec tr initial_world = Some w ->
  all_error (st w) \/ none_error (st w).
Proof. intros (_ & _ & _ & H4)%reachable_run_state. exact H4. Qed.

Lemma error_is_all_or_nothing_witness :
  exec (interrupted_run ++ wind_down) initial_world
  = Some (world_after (interrupted_run ++ wind_down)) /\
  (all_error (st (world_after (interrupted_run ++ wind_down))) \/
   none_error (st (world_after (interrupted_run ++ wind_down)))).
Proof.
  assert (H : exec (interrupted_run ++ wind_down) initial_world
              = Some (world_after (interrupted_run ++ wind_down)))
    by (vm_compute; reflexivity).
  exact (conj H (error_is_all_or_nothing _ _ H)).
Defined.

(** X5. A file selection, whenever it happens, selects the file and
    clears the display, and does nothing else: every stage is [pending]
    with empty logs and no narration, the global log is empty, no result
    is stored and no stage is active; the amount, the bank, the busy
    state, the simulator's flag, the request in flight, the simulators
    and the requests sent stay as they are. *)
Theorem file_selection_only_clears_the_display now f w w' :
  step now (EvFileSelect f) w = Some w' ->
  file (st w') = Some f /\
  Forall fresh (agents (st w')) /\
  identity <$> agents (st w') = identity <$> agents (st w) /\
  allLogs (st w') = [] /\ result (st w') = None /\
  currentAgentIndex (st w') = -1 /\
  claimedAmount (st w') = claimedAmount (st w) /\
  expectedBank (st w') = expectedBank (st w) /\
  isAnalyzing (st w') = isAnalyzing (st w) /\
  isAnalyzingRef (st w') = isAnalyzingRef (st w) /\
  req w' = req w /\ sims w' = sims w /\ sent w' = sent w.
Proof.
  intros (w1 & Htr & -> & _)%step_inv. cbn in Htr. injection Htr as <-.
  cbn. split_and!; try reflexivity.
  - apply Forall_fmap, Forall_true. intros a. by unfold fresh.
  - by apply identity_map.
Qed.

Lemma file_selection_only_clears_the_display_witness :
  step 2510 (EvFileSelect other_file) (world_after stage1_run)
  = Some (world_after reselect_run) /\
  file (st (world_after reselect_run)) = Some other_file /\
  Forall fresh (agents (st (world_after reselect_run))) /\
  identity <$> agents (st (world_after reselect_run))
  = identity <$> agents (st (world_after stage1_run)) /\
  allLogs (st (world_after reselect_run)) = [] /\
  result (st (world_after reselect_run)) = None /\
  currentAgentIndex (st (world_after reselect_run)) = -1 /\
  claimedAmount (st (world_after reselect_run))
  = claimedAmount (st (world_after stage1_run)) /\
  expectedBank (st (world_after reselect_run))
  = expectedBank (st (world_after stage1_run)) /\
  isAnalyzing (st (world_after reselect_run))
  = isAnalyzing (st (world_after stage1_run)) /\
  isAnalyzingRef (st (world_after reselect_run))
  = isAnalyzingRef (st (world_after stage1_run)) /\
  req (world_after reselect_run) = req (world_after stage1_run) /\
  sims (world_after reselect_run) = sims (world_after stage1_run) /\
  sent (world_after reselect_run) = sent (world_after stage1_run).
Proof.
  assert (H : step 2510 (EvFileSelect other_file) (world_after stage1_run)
              = Some (world_after reselect_run))
    by (vm_compute; reflexivity).
  exact (conj H (file_selection_only_clears_the_display _ _ _ _ H)).
Defined.

Section Click.

Lemma waitTimeOf_pos r : (0 <= r)%Q -> (0 < waitTimeOf r)%Q.
Proof. unfold waitTimeOf. intros H. lra. Qed.

Lemma dwelling_start now r :
  (0 <= r)%Q -> dwelling now now (waitTimeOf r) = true.
Proof.
  intros H. unfold dwelling. rewrite Z.sub_diag.
  destruct (Qlt_le_dec _ _) as [|Hle]; [done|].
  pose proof (waitTimeOf_pos r H). change (inject_Z 0) with 0%Q in Hle. lra.
Qed.

Lemma simulateAgentProgress_first now rnd s :
  agents s = initial_agents ->
  isAnalyzingRef s = true ->
  (0 <= rnd 0%nat)%Q ->
  simulateAgentProgress now rnd s
  = (stage_begin 0 s, SimDwell 0 now (waitTimeOf (rnd 0%nat)) now).
Proof.
  intros Hag Hflag Hr. unfold simulateAgentProgress. rewrite Hag.
  cbn [length initial_agents seq sim_stages]. rewrite Hflag.
  cbn [negb]. unfold sim_while. rewrite dwelling_start by done.
  change (isAnalyzingRef (stage_begin 0 s)) with (isAnalyzingRef s).
  by rewrite Hflag.
Qed.

Lemma stage_begin_first s :
  agents s = initial_agents ->
  statuses (stage_begin 0 s) = [running; pending; pending] /\
  stage_logs (stage_begin 0 s) = [[]; []; []] /\
  allLogs (stage_begin 0 s) = allLogs s ++ ["🕵️ Agent Meta initialized..."].
Proof.
  intros Hag. unfold statuses, stage_logs, stage_begin, stage_line. cbn.
  by rewrite Hag.
Qed.

End Click.

(** X6. A click on the enabled Analyze button starts exactly one run: one
    request is sent, with the file, the amount and the bank of the
    moment of the click; one simulator starts and suspends in the dwell of
    the first stage; the button is disabled; the first stage shows
    [running], the others [pending], all stage logs are empty, the global
    log holds the one line announcing the first stage, and no result is
    shown. *)
Theorem enabled_click_starts_one_run tr w now rnd :
  exec tr initial_world = Some w ->
  clock w <= now ->
  analyze_disabled (st w) = false ->
  (0 <= rnd 0%nat)%Q ->
  exists w' f,
    step now (EvAnalyze rnd) w = Some w' /\
    file (st w) = Some f /\
    sent w' = sent w ++ [mkFormData f (claimedAmount (st w))
                                      (expectedBank (st w))] /\
    req w' = AwaitFetch /\
    sims w' = sims w ++ [SimDwell 0 now (waitTimeOf (rnd 0%nat)) now] /\
    analyze_disabled (st w') = true /\
    statuses (st w') = [running; pending; pending] /\
    stage_logs (st w') = [[]; []; []] /\
    allLogs (st w') = ["🕵️ Agent Meta initialized..."] /\
    currentAgentIndex (st w') = 0 /\
    result (st w') = None.
Proof.
  intros Hex Hclock Hen Hr.
  pose proof (reachable_identity _ _ Hex) as Hid.
  apply reset_restores_initial in Hid.
  unfold analyze_disabled in Hen.
  destruct (file (st w)) as [f|] eqn:Hf; [|done].
  apply orb_false_iff in Hen as [Ham Hbusy].
  assert (simulateAgentProgress now rnd (handleAnalyze_reset (st w))
          = (stage_begin 0 (handleAnalyze_reset (st w)),
             SimDwell 0 now (waitTimeOf (rnd 0%nat)) now)) as Hsim
    by by apply simulateAgentProgress_first.
  exists (commit now w (handleAnalyze now rnd w)), f.
  assert (handleAnalyze now rnd w
          = mkWorld (stage_begin 0 (handleAnalyze_reset (st w)))
              (sims w ++ [SimDwell 0 now (waitTimeOf (rnd 0%nat)) now])
              AwaitFetch (thoughtIndex w) (clock w)
              (sent w ++ [mkFormData f (claimedAmount (st w))
                                       (expectedBank (st w))])) as Hrun.
  { unfold handleAnalyze. by rewrite Hf, Ham, Hsim. }
  split.
  { unfold step. destruct (Z.ltb_spec now (clock w)); [lia|].
    cbn. by rewrite Hbusy. }
  rewrite Hrun.
  destruct (stage_begin_first (handleAnalyze_reset (st w)) Hid)
    as (H1 & H2 & H3).
  unfold analyze_disabled. cbn [st sent req sims commit].
  rewrite H1, H2, H3. cbn. rewrite Hf, orb_true_r. done.
Qed.

Lemma enabled_click_starts_one_run_witness :
  exec ready_run initial_world = Some (world_after ready_run) /\
  clock (world_after ready_run) <= 2 /\
  analyze_disabled (st (world_after ready_run)) = false /\
  (0 <= steady 0%nat)%Q /\
  exists w' f,
    step 2 (EvAnalyze steady) (world_after ready_run) = Some w' /\
    file (st (world_after ready_run)) = Some f /\
    sent w' = sent (world_after ready_run)
              ++ [mkFormData f (claimedAmount (st (world_after ready_run)))
                               (expectedBank (st (world_after ready_run)))] /\
    req w' = AwaitFetch /\
    sims w' = sims (world_after ready_run)
              ++ [SimDwell 0 2 (waitTimeOf (steady 0%nat)) 2] /\
    analyze_disabled (st w') = true /\
    statuses (st w') = [running; pending; pending] /\
    stage_logs (st w') = [[]; []; []] /\
    allLogs (st w') = ["🕵️ Agent Meta initialized..."] /\
    currentAgentIndex (st w') = 0 /\
    result (st w') = None.
Proof.
  assert (H1 : exec ready_run initial_world = Some (world_after ready_run))
    by (vm_compute; reflexivity).
  assert (H2 : clock (world_after ready_run) <= 2)
    by (vm_compute; discriminate).
  assert (H3 : analyze_disabled (st (world_after ready_run)) = false)
    by (vm_compute; reflexivity).
  assert (H4 : (0 <= steady 0%nat)%Q) by (vm_compute; discriminate).
  exact (conj H1 (conj H2 (conj H3 (conj H4
           (enabled_click_starts_one_run _ _ 2 steady H1 H2 H3 H4))))).
Defined.

Section Requests.

Lemma sim_stages_length now rnd idxs s s' pc :
  sim_stages idxs now rnd s = (s', pc) ->
  length (agents s') = length (agents s).
Proof.
  apply (sim_stages_rel now rnd
           (fun s s' => length (agents s') = length (agents s))); try done.
  - intros a b c. congruence.
  - intros i s0 _. cbn. by rewrite length_imap.
  - intros i s0 _. cbn. by rewrite length_imap.
Qed.

(** Only [handleAnalyze] sends a request and starts a simulator, and it
    does both or neither. *)
Lemma step_sent now e w w' :
  step now e w = Some w' ->
  (sent w' = sent w /\ length (sims w') = length (sims w)) \/
  (exists f,
     file (st w) = Some f /\ claimedAmount (st w) <> "" /\
     sent w' = sent w ++ [mkFormData f (claimedAmount (st w))
                                       (expectedBank (st w))] /\
     length (sims w') = S (length (sims w))).
Proof.
  intros (w1 & Htr & -> & _)%step_inv. cbn.
  destruct e; cbv beta iota delta [transition] in Htr.
  - injection Htr as <-. by left.
  - injection Htr as <-. by left.
  - injection Htr as <-. by left.
  - destruct (isAnalyzing (st w)); [done|]. injection Htr as <-.
    unfold handleAnalyze.
    destruct (file (st w)) as [f|]; [|by left].
    destruct (String.eqb_spec (claimedAmount (st w)) ""); [by left|].
    destruct (simulateAgentProgress _ _ _) as [s2 pc]. cbn.
    right. exists f. split_and!; try done. rewrite length_app. cbn. lia.
  - destruct (sims w !! k) as [[i start wt armed|]|]; try done.
    case_match; [|done].
    destruct (sim_wake _ _ _ _ _ _) as [s' pc].
    injection Htr as <-. cbn. left. by rewrite length_insert.
  - destruct (narrate _ _) as [s'|]; [|done].
    injection Htr as <-. by left.
  - destruct (resume _ _) as [o'|]; [|done].
    destruct (settle o' (st w)) as [s' pc]. injection Htr as <-. by left.
  - destruct (resume _ _) as [o'|]; [|done].
    destruct (settle o' (st w)) as [s' pc]. injection Htr as <-. by left.
Qed.

End Requests.

(** X7. Every request the dashboard has sent carries a non-empty claimed
    amount, and as many simulators have been started as requests have
    been sent: a run is a request together with its simulator. *)
Theorem requests_carry_an_amount tr w :
  exec tr initial_world = Some w ->
  Forall (fun fd => claimed_amount fd <> "") (sent w) /\
  length (sent w) = length (sims w).
Proof.
  apply (exec_invariant
    (fun w => Forall (fun fd => claimed_amount fd <> "") (sent w) /\
              length (sent w) = length (sims w))).
  - intros now e w0 w1 (Hall & Hlen) Hs.
    destruct (step_sent _ _ _ _ Hs) as [(-> & ->)|(f & _ & Ham & -> & ->)];
      [done|].
    split.
    + apply Forall_app. split; [done|]. by constructor.
    + rewrite length_app. cbn. lia.
  - by split.
Qed.

Lemma requests_carry_an_amount_witness :
  exec restarted_run initial_world = Some (world_after restarted_run) /\
  Forall (fun fd => claimed_amount fd <> "") (sent (world_after restarted_run)) /\
  length (sent (world_after restarted_run))
  = length (sims (world_after restarted_run)).
Proof.
  assert (H : exec restarted_run initial_world
              = Some (world_after restarted_run))
    by (vm_compute; reflexivity).
  exact (conj H (requests_carry_an_amount _ _ H)).
Defined.

Section DwellBounds.

Lemma dwelling_early now start r :
  (0 <= r)%Q -> now - start < 2000 ->
  dwelling now start (waitTimeOf r) = true.
Proof.
  intros Hr Hlt. unfold dwelling.
  destruct (Qlt_le_dec _ _) as [|Hle]; [done|].
  rewrite Zlt_Qlt in Hlt. change (inject_Z 2000) with 2000%Q in Hlt.
  unfold waitTimeOf in Hle. lra.
Qed.

Lemma dwelling_late now start r :
  (r < 1)%Q -> 3000 <= now - start ->
  dwelling now start (waitTimeOf r) = false.
Proof.
  intros Hr Hge. unfold dwelling.
  destruct (Qlt_le_dec _ _) as [Hlt|]; [|done].
  rewrite Zle_Qle in Hge. change (inject_Z 3000) with 3000%Q in Hge.
  unfold waitTimeOf in Hlt. lra.
Qed.

End DwellBounds.

(** X8. A draw [r] of [Math.random()] lies in [0, 1), so a dwell lasts
    between two and three seconds: while the run is not cancelled, a
    wake less than 2000 ms after the start of the stage changes nothing
    and suspends again, and a wake 3000 ms or more after it marks the
    stage complete. *)
Theorem dwell_lasts_two_to_three_seconds i start r now rnd s s' pc :
  (0 <= r)%Q -> (r < 1)%Q ->
  isAnalyzingRef s = true ->
  sim_wake i start (waitTimeOf r) now rnd s = (s', pc) ->
  (now - start < 2000 ->
   s' = s /\ pc = SimDwell i start (waitTimeOf r) now) /\
  (3000 <= now - start ->
   forall a, agents s !! i = Some a ->
     agents s' !! i = Some (agent_with complete (logs a) DONE_MARKER a)).
Proof.
  intros Hr0 Hr1 Hflag Hw. split.
  - intros Hlt. unfold sim_wake, sim_while in Hw.
    rewrite dwelling_early, Hflag in Hw by done. by injection Hw as <- <-.
  - intros Hge a Ha. unfold sim_wake, sim_while in Hw.
    rewrite dwelling_late, Hflag in Hw by done. cbn in Hw.
    assert (i ∉ stages_after i s) as Hi.
    { unfold stages_after. rewrite elem_of_seq. lia. }
    rewrite (sim_stages_untouched _ _ _ i _ _ _ Hi Hw).
    rewrite stage_complete_lookup, Ha. cbn. by rewrite Nat.eqb_refl.
Qed.

Lemma dwell_lasts_two_to_three_seconds_witness :
  (0 <= 1 # 2)%Q /\ (1 # 2 < 1)%Q /\
  isAnalyzingRef (st (world_after start_run)) = true /\
  sim_wake 0 2 (waitTimeOf (1 # 2)) 3002 steady (st (world_after start_run))
  = (st (world_after (start_run ++ [(3002, EvSimWake 0 steady)])),
     SimDwell 1 3002 (waitTimeOf (1 # 2)) 3002) /\
  (3002 - 2 < 2000 ->
   st (world_after (start_run ++ [(3002, EvSimWake 0 steady)]))
   = st (world_after start_run) /\
   SimDwell 1 3002 (waitTimeOf (1 # 2)) 3002
   = SimDwell 0 2 (waitTimeOf (1 # 2)) 3002) /\
  (3000 <= 3002 - 2 ->
   forall a, agents (st (world_after start_run)) !! 0%nat = Some a ->
     agents (st (world_after (start_run ++ [(3002, EvSimWake 0 steady)])))
       !! 0%nat
     = Some (agent_with complete (logs a) DONE_MARKER a)).
Proof.
  assert (H1 : (0 <= 1 # 2)%Q) by (vm_compute; discriminate).
  assert (H2 : (1 # 2 < 1)%Q) by (vm_compute; reflexivity).
  assert (H3 : isAnalyzingRef (st (world_after start_run)) = true)
    by (vm_compute; reflexivity).
  assert (H4 : sim_wake 0 2 (waitTimeOf (1 # 2)) 3002 steady
                 (st (world_after start_run))
               = (st (world_after (start_run ++ [(3002, EvSimWake 0 steady)])),
                  SimDwell 1 3002 (waitTimeOf (1 # 2)) 3002))
    by (vm_compute; reflexivity).
  exact (conj H1 (conj H2 (conj H3 (conj H4
    (dwell_lasts_two_to_three_seconds 0 2 (1 # 2) 3002 steady
       _ _ _ H1 H2 H3 H4))))).
Defined.

Section Narration.

Lemma AGENT_THINKING_length agentId thoughts :
  AGENT_THINKING agentId = Some thoughts -> length thoughts = 5%nat.
Proof.
  unfold AGENT_THINKING. repeat case_match; by intros [= <-].
Qed.

Lemma imap_at {A} (g : A -> A) (c : nat) (l : list A) (a : A) :
  l !! c = Some a ->
  imap (fun idx x => if (idx =? c)%nat then g x else x) l = <[c := g a]> l.
Proof.
  intros Hc. apply list_eq. intros j. rewrite list_lookup_imap.
  destruct (Nat.eqb_spec j c) as [->|Hne].
  - rewrite list_lookup_insert_eq by by eapply lookup_lt_Some.
    by rewrite Hc.
  - rewrite list_lookup_insert_ne by done.
    by destruct (l !! j).
Qed.

Lemma index_below_trans N a b c :
  index_below N a b -> index_below N b c -> index_below N a c.
Proof.
  unfold index_below.
  intros [H1|H1] [H2|H2];
    [left; congruence | by right | right; by rewrite H2 | by right].
Qed.

Lemma sim_stages_index N now rnd idxs s s' pc :
  Forall (fun i => (i < N)%nat) idxs ->
  sim_stages idxs now rnd s = (s', pc) -> index_below N s s'.
Proof.
  intros Hall. apply (sim_stages_rel now rnd (index_below N)).
  - intros s0. by left.
  - apply index_below_trans.
  - intros s0. right. cbn. lia.
  - intros i s0 Hi. right. cbn.
    apply (proj1 (Forall_forall _ _) Hall) in Hi. lia.
  - intros i s0 _. by left.
Qed.

Lemma sim_wake_index now rnd i start wt s s' pc :
  sim_wake i start wt now rnd s = (s', pc) ->
  index_below (length (agents s)) s s'.
Proof.
  unfold sim_wake, sim_while.
  destruct (dwelling _ _ _), (isAnalyzingRef s); cbn;
    try (intros [= <- <-]; (by left) || (right; cbn; lia)).
  intros Hrec. apply sim_stages_index with (N := length (agents s)) in Hrec.
  - destruct Hrec as [Hrec|Hrec]; [left|by right]. by rewrite Hrec.
  - apply Forall_forall. intros j. unfold stages_after.
    rewrite elem_of_seq. lia.
Qed.

Lemma stages_in_place_length s :
  identity <$> agents s = identity <$> initial_agents ->
  length (agents s) = 3%nat.
Proof. intros H. apply (f_equal length) in H. by rewrite !length_fmap in H. Qed.

Lemma step_stages_in_place now e w w' :
  stages_in_place (st w) -> step now e w = Some w' ->
  stages_in_place (st w').
Proof.
  apply (step_invariant (fun s _ => stages_in_place s));
    unfold stages_in_place.
  - done.
  - done.
  - intros f s _ (Hid & _). split; [|done]. rewrite <- Hid. cbn.
    by apply identity_map.
  - intros now0 rnd s _ s' pc (Hid & Hidx) _ Hsim.
    assert (identity <$> agents (handleAnalyze_reset s)
            = identity <$> initial_agents) as Hid1.
    { rewrite <- Hid. cbn. by apply identity_map. }
    pose proof (stages_in_place_length _ Hid1) as Hlen.
    unfold simulateAgentProgress in Hsim. split.
    + apply (sim_stages_rel _ _
        (fun a b => identity <$> agents b = identity <$> agents a)) in Hsim.
      * by rewrite Hsim.
      * done.
      * congruence.
      * done.
      * intros. apply identity_begin.
      * intros. apply identity_complete.
    + apply sim_stages_index with (N := 3%nat) in Hsim.
      * destruct Hsim as [Hsim|Hsim]; [|lia]. by rewrite Hsim.
      * rewrite Hlen. by repeat constructor.
  - intros i start wt now0 rnd s _ s' pc (Hid & Hidx) Hw. split.
    + apply (sim_wake_rel _ _
        (fun a b => identity <$> agents b = identity <$> agents a)) in Hw.
      * by rewrite Hw.
      * done.
      * congruence.
      * done.
      * intros. apply identity_begin.
      * intros. apply identity_complete.
    + apply sim_wake_index in Hw.
      rewrite (stages_in_place_length _ Hid) in Hw.
      destruct Hw as [Hw|Hw]; [|lia]. by rewrite Hw.
  - intros k s _ s' (Hid & Hidx). unfold narrate. case_match; [done|].
    destruct (agents s !! _); [|done].
    destruct (AGENT_THINKING _); [|done]. intros [= <-].
    split; [|done]. rewrite <- Hid. cbn.
    apply identity_imap. intros j b. by case_match.
  - intros e0 s r o (Hid & Hidx) _.
    destruct o as [pc|data|m]; cbn [settle fst].
    + done.
    + split.
      * rewrite <- Hid. unfold success_block.
        destruct (data_agents data) as [bas|], (data_logs data); cbn;
          try done; apply identity_map; intros a; unfold reconcile_agent;
          by destruct (find_backendAgent bas a).
      * unfold success_block.
        by destruct (data_agents data) as [bas|], (data_logs data).
    + split; [|done]. rewrite <- Hid. by apply identity_map.
Qed.

Lemma reachable_stages_in_place tr w :
  exec tr initial_world = Some w -> stages_in_place (st w).
Proof.
  apply (exec_invariant (fun w => stages_in_place (st w))).
  - intros now e w0 w1. apply step_stages_in_place.
  - split; [done|]. cbn. lia.
Qed.

Lemma AGENT_THINKING_registered a l :
  identity <$> l = identity <$> initial_agents ->
  a ∈ l -> is_Some (AGENT_THINKING (id a)).
Proof.
  intros Hid Ha.
  assert (identity a ∈ identity <$> l) as Hin
    by by apply list_elem_of_fmap_2.
  rewrite Hid in Hin. cbn in Hin.
  repeat (apply elem_of_cons in Hin as [Hin | Hin];
          [injection Hin as -> _ _; by eexists|]).
  by apply elem_of_nil in Hin.
Qed.

(** What one tick of the narration interval does. *)
Lemma narration_step k s s' :
  narrate k s = Some s' ->
  exists c a thoughts t,
    currentAgentIndex s = Z.of_nat c /\
    agents s !! c = Some a /\
    AGENT_THINKING (id a) = Some thoughts /\
    thoughts !! (S k mod 5)%nat = Some t /\
    s' = setAgents (<[c := agent_with (status a) (logs a) t a]>) s.
Proof.
  unfold narrate.
  destruct (_ || _) eqn:Hguard; [done|].
  apply orb_false_iff in Hguard as [Hlo Hhi].
  destruct (agents s !! _) as [a|] eqn:Ha; [|done].
  destruct (AGENT_THINKING _) as [thoughts|] eqn:Hth; [|done].
  intros [= <-].
  pose proof (AGENT_THINKING_length _ _ Hth) as Hlen.
  assert (S k mod 5 < 5)%nat as Hk by (apply Nat.mod_upper_bound; lia).
  destruct (lookup_lt_is_Some_2 thoughts (S k mod 5)%nat) as [t Ht]; [lia|].
  exists (Z.to_nat (currentAgentIndex s)), a, thoughts, t.
  split_and!; try done.
  - apply Z.ltb_ge in Hlo. lia.
  - unfold setAgents. f_equal.
    rewrite <- (imap_at (fun x => agent_with (status x) (logs x) t x)) by done.
    apply imap_ext. intros j b _. cbn.
    destruct (j =? _)%nat; [|done].
    rewrite Hlen. by rewrite (nth_lookup_Some _ _ _ _ Ht).
Qed.

End Narration.



(** X10. The narration runs through the five thoughts of a stage in a
    cycle: the tick number [k + 5] does what the tick number [k] does. *)
Theorem narration_cycles_every_five_ticks k s :
  narrate (k + 5) s = narrate k s.
Proof.
  unfold narrate. case_match; [done|].
  destruct (agents s !! _) as [a|]; [|done].
  destruct (AGENT_THINKING _) as [thoughts|] eqn:Hth; [|done].
  rewrite (AGENT_THINKING_length _ _ Hth).
  change (S (k + 5)) with (S k + 5)%nat.
  replace ((S k + 5) mod 5)%nat with (S k mod 5)%nat; [done|].
  rewrite <- (Nat.Div0.add_mod_idemp_r (S k) 5 5).
  by rewrite Nat.Div0.mod_same, Nat.add_0_r.
Qed.

(** X11. In every reachable world the active stage index is none (-1) or
    the index of one of the three stages, and a tick of the narration
    interval succeeds exactly when a stage is active: the lookup of the
    stage's thoughts never comes back empty. *)
Theorem narration_runs_while_a_stage_is_active tr w :
  exec tr initial_world = Some w ->
  -1 <= currentAgentIndex (st w) < 3 /\
  forall k, is_Some (narrate k (st w)) <-> currentAgentIndex (st w) <> -1.
Proof.
  intros (Hid & Hidx)%reachable_stages_in_place. split; [done|].
  intros k. pose proof (stages_in_place_length _ Hid) as Hlen.
  unfold narrate. rewrite Hlen. split.
  - destruct (_ || _) eqn:Hguard; [by intros [? ?]|].
    apply orb_false_iff in Hguard as [Hlo Hhi].
    apply Z.ltb_ge in Hlo. lia.
  - intros Hne.
    destruct (_ || _) eqn:Hguard.
    { apply orb_true_iff in Hguard as [Hlo%Z.ltb_lt|Hhi%Z.leb_le]; lia. }
    destruct (lookup_lt_is_Some_2 (agents (st w))
                (Z.to_nat (currentAgentIndex (st w)))) as [a Ha]; [lia|].
    rewrite Ha.
    destruct (AGENT_THINKING_registered a _ Hid) as [th ->];
      [by eapply list_elem_of_lookup_2|].
    by eexists.
Qed.

Lemma narration_runs_while_a_stage_is_active_witness :
  exec stage1_run initial_world = Some (world_after stage1_run) /\
  -1 <= currentAgentIndex (st (world_after stage1_run)) < 3 /\
  forall k, is_Some (narrate k (st (world_after stage1_run)))
            <-> currentAgentIndex (st (world_after stage1_run)) <> -1.
Proof.
  assert (H : exec stage1_run initial_world = Some (world_after stage1_run))
    by (vm_compute; reflexivity).
  exact (conj H (narration_runs_while_a_stage_is_active _ _ H)).
Defined.

Section Idempotence.

Lemma reconcile_agent_idem bas a :
  reconcile_agent bas (reconcile_agent bas a) = reconcile_agent bas a.
Proof.
  unfold reconcile_agent at 2.
  destruct (find_backendAgent bas a) as [ba|] eqn:Hf.
  - unfold reconcile_agent.
    change (find_backendAgent bas
              (agent_with complete (default [] (ba_logs ba)) DONE_MARKER a))
      with (find_backendAgent bas a).
    rewrite Hf. reflexivity.
  - unfold reconcile_agent. rewrite Hf. reflexivity.
Qed.

Lemma State_ext (s s' : State) :
  file s = file s' -> claimedAmount s = claimedAmount s' ->
  expectedBank s = expectedBank s' -> isAnalyzing s = isAnalyzing s' ->
  isAnalyzingRef s = isAnalyzingRef s' -> result s = result s' ->
  agents s = agents s' -> allLogs s = allLogs s' ->
  currentAgentIndex s = currentAgentIndex s' -> s = s'.
Proof. destruct s, s'. cbn. by intros -> -> -> -> -> -> -> -> ->. Qed.

Lemma map_idem (f : Agent -> Agent) (l : list Agent) :
  (forall a, f (f a) = f a) -> map f (map f l) = map f l.
Proof. intros Hf. rewrite map_map. apply map_ext. exact Hf. Qed.

End Idempotence.

(** X12. Applying a success payload is idempotent: applying the same
    payload a second time changes nothing, whatever the state it is
    first applied to. *)
Theorem success_block_is_idempotent data s :
  success_block data (success_block data s) = success_block data s.
Proof.
  unfold success_block.
  destruct (data_agents data) as [bas|], (data_logs data) as [l|];
    apply State_ext; try reflexivity;
    apply (map_idem (reconcile_agent bas)), reconcile_agent_idem.
Qed.

(** X13. The two resets of the display absorb what came before: a file
    selection after another one leaves the state of the later selection
    alone, and the reset of [handleAnalyze] applied twice is the reset
    applied once. *)
Theorem display_resets_absorb f g s :
  handleFileSelect f (handleFileSelect g s) = handleFileSelect f s /\
  handleAnalyze_reset (handleAnalyze_reset s) = handleAnalyze_reset s.
Proof.
  split; apply State_ext; try reflexivity;
    apply (map_idem (agent_with pending [] "")); reflexivity.
Qed.

(** X14. For a response whose status is not a success and whose body has
    the expected shape (an object whose [detail], if there is one, is a
    string) or is no object at all, the body reads always end in a thrown
    error whose message is not empty.  (An empty message does occur
    outside that shape: [error_message_samples] has it for a [detail] that
    is the empty array.) *)
Theorem http_failure_message_is_never_empty r :
  expected_error_payload r = true ->
  exists m, http_error_message r = Some m /\ m <> "".
Proof.
  intros Hshape. rewrite http_error_message_spec. eexists. split; [done|].
  assert (forall r0, generic_message r0 <> "") as Hgen by done.
  assert (text_or_generic r <> "") as Htext.
  { unfold text_or_generic. by destruct (resp_text r). }
  revert Hshape. unfold expected_error_payload, settled_error_message.
  destruct (resp_json r) as [m| |d|]; try done.
  destruct (data_detail d) as [[|b|x|x|l|l]|]; try done.
  intros _. cbn. by destruct x.
Qed.

Lemma http_failure_message_is_never_empty_witness :
  expected_error_payload blank_detail_response = true /\
  exists m, http_error_message blank_detail_response = Some m /\ m <> "".
Proof.
  assert (H : expected_error_payload blank_detail_response = true)
    by reflexivity.
  exact (conj H (http_failure_message_is_never_empty _ H)).
Defined.

Section Progress.

Variables (k : nat) (rnd : nat -> Q).

(** One firing of the timer of simulator [k]. *)
Lemma step_tick t w i start wt armed s' pc :
  sims w !! k = Some (SimDwell i start wt armed) ->
  armed + POLL_MS <= t -> clock w <= t ->
  sim_wake i start wt t rnd (st w) = (s', pc) ->
  step t (EvSimWake k rnd) w
  = Some (mkWorld s' (<[k := pc]> (sims w)) (req w)
            (if currentAgentIndex s' =? currentAgentIndex (st w)
             then thoughtIndex w else 0%nat)
            t (sent w)).
Proof.
  intros Hk Harmed Hclock Hw. unfold step.
  destruct (Z.ltb_spec t (clock w)); [lia|].
  cbv beta iota delta [transition]. rewrite Hk.
  destruct (Z.leb_spec (armed + POLL_MS) t); [|lia].
  by rewrite Hw.
Qed.

Lemma exec_cons t e w w1 tr :
  step t e w = Some w1 -> exec ((t, e) :: tr) w = exec tr w1.
Proof. intros H. cbn. by rewrite H. Qed.

Lemma exec_app tr1 : forall tr2 w w1,
  exec tr1 w = Some w1 -> exec (tr1 ++ tr2) w = exec tr2 w1.
Proof.
  induction tr1 as [|[t e] tr1 IH]; intros tr2 w w1; cbn.
  - by intros [= <-].
  - destruct (step t e w) as [w'|]; [|done]. apply IH.
Qed.

Lemma ticks_app t0 n m :
  ticks k rnd t0 (n + m)
  = ticks k rnd t0 n ++ ticks k rnd (t0 + POLL_MS * Z.of_nat n) m.
Proof.
  revert t0. induction n as [|n IH]; intros t0.
  - cbn [Nat.add ticks app]. f_equal. lia.
  - cbn [Nat.add ticks app]. rewrite IH. do 3 f_equal. lia.
Qed.

(** The dwell of stage [i], [j] polls after its start: within
    [30 - j] further polls, and not before 20 polls in all, the wake that
    finds the dwell over runs the rest of the simulator. *)
Lemma dwell_phase i start r : forall m j w,
  (j + m = 30)%nat ->
  (0 <= r)%Q -> (r < 1)%Q ->
  sims w !! k = Some (SimDwell i start (waitTimeOf r) (clock w)) ->
  clock w = start + POLL_MS * Z.of_nat j ->
  isAnalyzingRef (st w) = true ->
  (j = 0%nat \/ dwelling (clock w) start (waitTimeOf r) = true) ->
  exists n s' pc,
    (20 <= j + n <= 30)%nat /\ (1 <= n)%nat /\
    sim_stages (stages_after i (st w)) (start + POLL_MS * Z.of_nat (j + n))
      rnd (stage_complete i (st w)) = (s', pc) /\
    exec (ticks k rnd (clock w) n) w
    = Some (mkWorld s' (<[k := pc]> (sims w)) (req w)
              (if currentAgentIndex s' =? currentAgentIndex (st w)
               then thoughtIndex w else 0%nat)
              (start + POLL_MS * Z.of_nat (j + n)) (sent w)).
Proof.
  induction m as [|m IH]; intros j w Hjm Hr0 Hr1 Hk Hclock Hflag Hdw.
  - assert (j = 30%nat) as -> by lia. destruct Hdw as [|Hdw]; [done|].
    rewrite dwelling_late in Hdw; [done|done|]. unfold POLL_MS in *. lia.
  - pose (t := clock w + POLL_MS).
    destruct (dwelling t start (waitTimeOf r)) eqn:Hd.
    + (* the dwell goes on *)
      assert (sim_wake i start (waitTimeOf r) t rnd (st w)
              = (st w, SimDwell i start (waitTimeOf r) t)) as Hw.
      { unfold sim_wake, sim_while. by rewrite Hd, Hflag. }
      pose proof (step_tick t w _ _ _ _ _ _ Hk ltac:(lia)
                    ltac:(unfold t, POLL_MS; lia) Hw) as Hs.
      rewrite Z.eqb_refl in Hs.
      set (w1 := mkWorld (st w) (<[k := SimDwell i start (waitTimeOf r) t]>
                                   (sims w))
                   (req w) (thoughtIndex w) t (sent w)) in Hs.
      assert (k < length (sims w))%nat as Hlen by by eapply lookup_lt_Some.
      destruct (IH (S j) w1) as (n & s' & pc & Hn & Hn1 & Hsim & Hex);
        try done.
      * lia.
      * cbn. by rewrite list_lookup_insert_eq.
      * cbn. unfold t. rewrite Hclock. lia.
      * by right.
      * exists (S n), s', pc. split_and!; try lia.
        -- replace (j + S n)%nat with (S j + n)%nat by lia. exact Hsim.
        -- cbn [ticks]. fold t. rewrite (exec_cons _ _ _ _ _ Hs).
           change (clock w1) with t in Hex. rewrite Hex. cbn.
           rewrite list_insert_insert_eq.
           by replace (j + S n)%nat with (S j + n)%nat by lia.
    + (* the dwell is over *)
      destruct (sim_stages (stages_after i (st w)) t rnd
                  (stage_complete i (st w))) as [s' pc] eqn:Hsim.
      assert (sim_wake i start (waitTimeOf r) t rnd (st w) = (s', pc)) as Hw.
      { unfold sim_wake, sim_while. by rewrite Hd, Hflag. }
      pose proof (step_tick t w _ _ _ _ _ _ Hk ltac:(lia)
                    ltac:(unfold t, POLL_MS; lia) Hw) as Hs.
      assert (t = start + POLL_MS * Z.of_nat (j + 1)) as Ht
        by (unfold t; rewrite Hclock; lia).
      assert (20 <= j + 1)%nat.
      { destruct (le_lt_dec 20 (j + 1)) as [|Hlt]; [done|].
        rewrite dwelling_early in Hd; [done|done|].
        rewrite Ht. unfold POLL_MS. lia. }
      exists 1%nat, s', pc. split_and!; try lia.
      * by rewrite <- Ht.
      * cbn [ticks]. fold t. rewrite (exec_cons _ _ _ _ _ Hs). cbn.
        by rewrite Ht.
Qed.

Lemma sim_stages_next i s t :
  length (agents s) = 3%nat -> isAnalyzingRef s = true ->
  (i < 2)%nat -> (0 <= rnd (S i))%Q ->
  sim_stages (stages_after i s) t rnd (stage_complete i s)
  = (stage_begin (S i) (stage_complete i s),
     SimDwell (S i) t (waitTimeOf (rnd (S i))) t).
Proof.
  intros Hlen Hflag Hi Hr. unfold stages_after. rewrite Hlen.
  assert (i = 0 \/ i = 1)%nat as [-> | ->] by lia;
    cbn [seq Nat.sub sim_stages];
    change (isAnalyzingRef (stage_complete _ s)) with (isAnalyzingRef s);
    rewrite Hflag; cbn [negb]; unfold sim_while;
    rewrite dwelling_start by done;
    change (isAnalyzingRef (stage_begin _ (stage_complete _ s)))
      with (isAnalyzingRef s);
    by rewrite Hflag.
Qed.

Lemma sim_stages_last s t :
  length (agents s) = 3%nat ->
  sim_stages (stages_after 2 s) t rnd (stage_complete 2 s)
  = sim_exit (stage_complete 2 s).
Proof. intros Hlen. unfold stages_after. by rewrite Hlen. Qed.

Lemma length_agents_begin i s :
  length (agents (stage_begin i s)) = length (agents s).
Proof. cbn. by rewrite length_imap. Qed.

Lemma length_agents_complete i s :
  length (agents (stage_complete i s)) = length (agents s).
Proof. cbn. by rewrite length_imap. Qed.

(** What the display shows when the simulator has run through the three
    stages of a freshly reset state. *)
Lemma happy_path_display f c b ia iar res cai :
  let s := setCurrentAgentIndex (-1)
    (stage_complete 2 (stage_begin 2
      (stage_complete 1 (stage_begin 1
        (stage_complete 0 (stage_begin 0
          (mkState f c b ia iar res initial_agents [] cai))))))) in
  statuses s = [complete; complete; complete] /\
  allLogs s = [ "🕵️ Agent Meta initialized...";
                "🕵️ Agent Meta task completed.";
                "🔒 Agent Privacy initialized...";
                "🔒 Agent Privacy task completed.";
                "🧠 Agent Vision initialized...";
                "🧠 Agent Vision task completed." ] /\
  currentAgentIndex s = -1 /\ isAnalyzing s = ia /\ result s = res.
Proof. vm_compute. by split_and!. Qed.

End Progress.

(** X15. A run that is left alone finishes its simulation: after a click on
    the enabled button, with draws of [Math.random()] in [0, 1) and the
    request still pending, the timer of the new simulator firing every
    100 ms brings it to its end within 60 to 90 firings, that is 6 to 9
    seconds; then the three stages are [complete], the global log holds
    the six lines of the simulator in stage order, no stage is active,
    and the dashboard is still busy, with no result, waiting for the
    request. *)
Theorem simulation_left_alone_completes tr w now rnd :
  exec tr initial_world = Some w ->
  clock w <= now ->
  analyze_disabled (st w) = false ->
  (forall i, (0 <= rnd i)%Q /\ (rnd i < 1)%Q) ->
  exists n w',
    (60 <= n <= 90)%nat /\
    exec ((now, EvAnalyze rnd) :: ticks (length (sims w)) rnd now n) w
    = Some w' /\
    clock w' = now + POLL_MS * Z.of_nat n /\
    sims w' !! length (sims w) = Some SimIdle /\
    statuses (st w') = [complete; complete; complete] /\
    allLogs (st w') = [ "🕵️ Agent Meta initialized...";
                        "🕵️ Agent Meta task completed.";
                        "🔒 Agent Privacy initialized...";
                        "🔒 Agent Privacy task completed.";
                        "🧠 Agent Vision initialized...";
                        "🧠 Agent Vision task completed." ] /\
    currentAgentIndex (st w') = -1 /\
    isAnalyzing (st w') = true /\ req w' = AwaitFetch /\
    result (st w') = None.
Proof.
  intros Hex Hclock Hen Hrnd.
  pose proof (reachable_stages_in_place _ _ Hex) as (Hid & _).
  apply reset_restores_initial in Hid.
  unfold analyze_disabled in Hen.
  destruct (file (st w)) as [f|] eqn:Hf; [|done].
  apply orb_false_iff in Hen as [Ham Hbusy].
  set (k := length (sims w)).
  set (sR := handleAnalyze_reset (st w)).
  assert (agents sR = initial_agents) as HagR by exact Hid.
  assert (sR = mkState (file (st w)) (claimedAmount (st w))
                 (expectedBank (st w)) true true None initial_agents []
                 (currentAgentIndex (st w))) as HsR.
  { rewrite <- HagR. apply State_ext; reflexivity. }
  (* the click *)
  set (s0 := stage_begin 0 sR).
  set (wt0 := waitTimeOf (rnd 0%nat)).
  assert (step now (EvAnalyze rnd) w
          = Some (mkWorld s0 (sims w ++ [SimDwell 0 now wt0 now]) AwaitFetch
                    (if currentAgentIndex s0 =? currentAgentIndex (st w)
                     then thoughtIndex w else 0%nat)
                    now
                    (sent w ++ [mkFormData f (claimedAmount (st w))
                                             (expectedBank (st w))])))
    as Hclick.
  { unfold step. destruct (Z.ltb_spec now (clock w)); [lia|].
    cbv beta iota delta [transition]. rewrite Hbusy.
    unfold handleAnalyze. rewrite Hf, Ham.
    fold sR. rewrite (simulateAgentProgress_first now rnd sR HagR);
      [done|by rewrite HsR|apply Hrnd]. }
  set (w0 := mkWorld s0 (sims w ++ [SimDwell 0 now wt0 now]) AwaitFetch
               (if currentAgentIndex s0 =? currentAgentIndex (st w)
                then thoughtIndex w else 0%nat)
               now
               (sent w ++ [mkFormData f (claimedAmount (st w))
                                        (expectedBank (st w))])) in Hclick.
  assert (isAnalyzingRef s0 = true) as Hflag0.
  { change (isAnalyzingRef s0) with (isAnalyzingRef sR). by rewrite HsR. }
  assert (length (agents s0) = 3%nat) as Hlen0
    by (unfold s0; by rewrite length_agents_begin, HagR).
  (* stage 0 *)
  destruct (dwell_phase k rnd 0 now (rnd 0%nat) 30 0 w0)
    as (n0 & s1' & pc1 & Hn0 & _ & Hsim0 & Hex0);
    try done; try apply Hrnd.
  { cbn. unfold k. by rewrite lookup_app_r, Nat.sub_diag by lia. }
  { cbn. lia. }
  { by left. }
  cbn [st sims req thoughtIndex clock sent w0] in Hsim0, Hex0.
  rewrite Nat.add_0_l in Hsim0, Hex0.
  set (t0 := now + POLL_MS * Z.of_nat n0) in *.
  rewrite sim_stages_next in Hsim0; [|done|done|lia|apply Hrnd].
  injection Hsim0 as <- <-.
  set (s1 := stage_begin 1 (stage_complete 0 s0)) in *.
  assert (isAnalyzingRef s1 = true) as Hflag1 by exact Hflag0.
  assert (length (agents s1) = 3%nat) as Hlen1
    by (unfold s1;
        by rewrite length_agents_begin, length_agents_complete).
  set (w1 := mkWorld s1 _ _ _ t0 _) in Hex0.
  (* stage 1 *)
  destruct (dwell_phase k rnd 1 t0 (rnd 1%nat) 30 0 w1)
    as (n1 & s2' & pc2 & Hn1 & _ & Hsim1 & Hex1);
    try done; try apply Hrnd.
  { cbn. apply list_lookup_insert_eq. unfold k. rewrite length_app. cbn. lia. }
  { cbn. lia. }
  { by left. }
  cbn [st sims req thoughtIndex clock sent w1] in Hsim1, Hex1.
  rewrite Nat.add_0_l in Hsim1, Hex1.
  set (t1 := t0 + POLL_MS * Z.of_nat n1) in *.
  rewrite sim_stages_next in Hsim1; [|done|done|lia|apply Hrnd].
  injection Hsim1 as <- <-.
  set (s2 := stage_begin 2 (stage_complete 1 s1)) in *.
  assert (isAnalyzingRef s2 = true) as Hflag2 by exact Hflag1.
  assert (length (agents s2) = 3%nat) as Hlen2
    by (unfold s2;
        by rewrite length_agents_begin, length_agents_complete).
  set (w2 := mkWorld s2 _ _ _ t1 _) in Hex1.
  (* stage 2 *)
  destruct (dwell_phase k rnd 2 t1 (rnd 2%nat) 30 0 w2)
    as (n2 & s3' & pc3 & Hn2 & _ & Hsim2 & Hex2);
    try done; try apply Hrnd.
  { cbn. apply list_lookup_insert_eq. rewrite length_insert.
    unfold k. rewrite length_app. cbn. lia. }
  { cbn. lia. }
  { by left. }
  cbn [st sims req thoughtIndex clock sent w2] in Hsim2, Hex2.
  rewrite Nat.add_0_l in Hsim2, Hex2.
  rewrite sim_stages_last in Hsim2 by done.
  injection Hsim2 as <- <-.
  (* the whole trace *)
  eexists (n0 + (n1 + n2))%nat, _. split; [lia|]. split.
  { rewrite (exec_cons _ _ _ _ _ Hclick).
    rewrite ticks_app.
    rewrite (exec_app _ _ _ _ Hex0). change (clock w0) with now.
    fold t0. change t0 with (clock w1) at 1.
    rewrite ticks_app, (exec_app _ _ _ _ Hex1).
    change (clock w1) with t0. fold t1. exact Hex2. }
  cbn [st sims req clock].
  destruct (happy_path_display (file (st w)) (claimedAmount (st w))
              (expectedBank (st w)) true true None
              (currentAgentIndex (st w))) as (H1 & H2 & H3 & H4 & H5).
  rewrite <- HsR in H1, H2, H3, H4, H5.
  split_and!; try done.
  - unfold t1, t0. lia.
  - apply list_lookup_insert_eq. rewrite !length_insert.
    unfold k. rewrite length_app. cbn. lia.
Qed.

Lemma simulation_left_alone_completes_witness :
  exec ready_run initial_world = Some (world_after ready_run) /\
  clock (world_after ready_run) <= 2 /\
  analyze_disabled (st (world_after ready_run)) = false /\
  (forall i, (0 <= steady i)%Q /\ (steady i < 1)%Q) /\
  exists n w',
    (60 <= n <= 90)%nat /\
    exec ((2, EvAnalyze steady)
            :: ticks (length (sims (world_after ready_run))) steady 2 n)
      (world_after ready_run)
    = Some w' /\
    clock w' = 2 + POLL_MS * Z.of_nat n /\
    sims w' !! length (sims (world_after ready_run)) = Some SimIdle /\
    statuses (st w') = [complete; complete; complete] /\
    allLogs (st w') = [ "🕵️ Agent Meta initialized...";
                        "🕵️ Agent Meta task completed.";
                        "🔒 Agent Privacy initialized...";
                        "🔒 Agent Privacy task completed.";
                        "🧠 Agent Vision initialized...";
                        "🧠 Agent Vision task completed." ] /\
    currentAgentIndex (st w') = -1 /\
    isAnalyzing (st w') = true /\ req w' = AwaitFetch /\
    result (st w') = None.
Proof.
  assert (H1 : exec ready_run initial_world = Some (world_after ready_run))
    by (vm_compute; reflexivity).
  assert (H2 : clock (world_after ready_run) <= 2)
    by (vm_compute; discriminate).
  assert (H3 : analyze_disabled (st (world_after ready_run)) = false)
    by (vm_compute; reflexivity).
  assert (H4 : forall i, (0 <= steady i)%Q /\ (steady i < 1)%Q)
    by (intros i; split; [vm_compute; discriminate | vm_compute; reflexivity]).
  exact (conj H1 (conj H2 (conj H3 (conj H4
           (simulation_left_alone_completes _ _ 2 steady H1 H2 H3 H4))))).
Defined.

(** X16. Every request settles: whatever [fetch] does and whatever the
    status and the body of the response, the call of [handleAnalyze] is
    over after the settlement of [fetch] and at most two body reads.  The
    dashboard is then idle, with the button's busy state and the
    simulator's flag cleared.  Its state is the one the success branch
    leaves exactly when the status is a success and the body parses to a
    value other than [null] (an object, or a string, a number, a boolean
    or an array, none of which has the properties read), and otherwise
    the one the [catch] block leaves with the message of the failure,
    each followed by the [finally] block. *)
Theorem request_settles_within_two_reads w t o :
  req w = AwaitFetch -> clock w <= t ->
  exists n w',
    (n <= 2)%nat /\
    exec ((t, EvFetch o) :: repeat (t, EvBody) n) w = Some w' /\
    req w' = ReqIdle /\
    isAnalyzing (st w') = false /\ isAnalyzingRef (st w') = false /\
    sims w' = sims w /\ sent w' = sent w /\
    ((exists r data,
        o = FetchResolves r /\ ok r = true /\
        (resp_json r = JsonObject data \/
         resp_json r = JsonOther /\ data = no_properties) /\
        st w' = finally_block (success_block data (st w))) \/
     (~ (exists r,
           o = FetchResolves r /\ ok r = true /\
           ((exists data, resp_json r = JsonObject data) \/
            resp_json r = JsonOther)) /\
      exists m,
        failure_message o = Some m /\
        st w' = finally_block (catch_block m (st w)))).
Proof.
  intros Hreq Hclock.
  destruct (request_path w t o Hreq Hclock)
    as (n & w' & Hn & Hex & Hidle & Hsims & Hsent & Hst).
  exists n, w'. split_and!; try done.
  - destruct (failure_message o); [by rewrite Hst|].
    destruct Hst as (data & _ & ->). done.
  - destruct (failure_message o); [by rewrite Hst|].
    destruct Hst as (data & _ & ->). done.
  - destruct o as [m|r].
    { right. split; [by intros (? & [=] & _)|]. by exists m. }
    unfold failure_message, success_payload in Hst.
    destruct (ok r) eqn:Hok.
    2: { right. split; [intros (? & [= <-] & ? & _); congruence|].
         eexists. split; [|done]. unfold failure_message. by rewrite Hok. }
    destruct (resp_json r) as [x| |data|] eqn:Hj.
    + right. split.
      { intros (? & [= <-] & _ & [[? ?]|?]); congruence. }
      eexists. split; [|done]. unfold failure_message. by rewrite Hok, Hj.
    + right. split.
      { intros (? & [= <-] & _ & [[? ?]|?]); congruence. }
      eexists. split; [|done]. unfold failure_message. by rewrite Hok, Hj.
    + left. destruct Hst as (d & [= <-] & Hst). exists r, data.
      split_and!; [done|done|by left|done].
    + left. destruct Hst as (d & [= <-] & Hst). exists r, no_properties.
      split_and!; [done|done|by right|done].
Qed.

Lemma request_settles_within_two_reads_witness :
  req (world_after start_run) = AwaitFetch /\
  clock (world_after start_run) <= 300 /\
  exists n w',
    (n <= 2)%nat /\
    exec ((300, EvFetch (FetchResolves number_response))
            :: repeat (300, EvBody) n) (world_after start_run) = Some w' /\
    req w' = ReqIdle /\
    isAnalyzing (st w') = false /\ isAnalyzingRef (st w') = false /\
    sims w' = sims (world_after start_run) /\
    sent w' = sent (world_after start_run) /\
    ((exists r data,
        FetchResolves number_response = FetchResolves r /\ ok r = true /\
        (resp_json r = JsonObject data \/
         resp_json r = JsonOther /\ data = no_properties) /\
        st w' = finally_block (success_block data (st (world_after start_run))))
     \/
     (~ (exists r,
           FetchResolves number_response = FetchResolves r /\ ok r = true /\
           ((exists data, resp_json r = JsonObject data) \/
            resp_json r = JsonOther)) /\
      exists m,
        failure_message (FetchResolves number_response) = Some m /\
        st w' = finally_block (catch_block m (st (world_after start_run))))).
Proof.
  assert (H1 : req (world_after start_run) = AwaitFetch)
    by (vm_compute; reflexivity).
  assert (H2 : clock (world_after start_run) <= 300)
    by (vm_compute; discriminate).
  exact (conj H1 (conj H2
    (request_settles_within_two_reads _ 300
       (FetchResolves number_response) H1 H2))).
Defined.

Section FailureNarration.

Lemma AGENT_THINKING_not_failed agentId thoughts t :
  AGENT_THINKING agentId = Some thoughts -> t ∈ thoughts ->
  t <> FAILED_MARKER.
Proof.
  unfold AGENT_THINKING. repeat case_match; intros [= <-] Ht; try done;
    repeat (apply elem_of_cons in Ht as [-> | Ht]; [done|]);
    by apply elem_of_nil in Ht.
Qed.

Lemma Forall_imap_agents (P : Agent -> Prop) (f : nat -> Agent -> Agent) l :
  (forall i a, P a -> P (f i a)) -> Forall P l -> Forall P (imap f l).
Proof.
  intros Hf Hl. apply Forall_lookup. intros i a. rewrite list_lookup_imap.
  destruct (l !! i) as [b|] eqn:Hb; [|done]. intros [= <-].
  apply Hf. by eapply (proj1 (Forall_lookup _ _) Hl).
Qed.

Lemma sim_keeps_hidden_trans a b c :
  sim_keeps_hidden a b -> sim_keeps_hidden b c -> sim_keeps_hidden a c.
Proof. intros [? ?] [? ?]. split; [congruence|auto]. Qed.

Lemma sim_keeps_hidden_begin i s : sim_keeps_hidden s (stage_begin i s).
Proof.
  split; [done|]. cbn. apply Forall_imap_agents.
  intros j a Ha. by destruct (j =? i)%nat.
Qed.

Lemma sim_keeps_hidden_complete i s :
  sim_keeps_hidden s (stage_complete i s).
Proof.
  split; [done|]. cbn. apply Forall_imap_agents.
  intros j a Ha. by destruct (j =? i)%nat.
Qed.

Lemma not_failed_hidden s :
  Forall (fun a => thinkingText a <> FAILED_MARKER) (agents s) ->
  Forall (fun a => thinkingText a = FAILED_MARKER -> status a = error)
    (agents s).
Proof.
  intros H. eapply Forall_impl; [exact H|]. intros a Ha Hf. by destruct Ha.
Qed.

Lemma step_failure_hidden now e w w' :
  failure_hidden (st w) -> step now e w = Some w' -> failure_hidden (st w').
Proof.
  apply (step_invariant (fun s _ => failure_hidden s)); unfold failure_hidden.
  - done.
  - done.
  - intros f s _ _.
    assert (Forall (fun a => thinkingText a <> FAILED_MARKER)
              (agents (handleFileSelect f s))) as H.
    { cbn. apply Forall_fmap, Forall_true. done. }
    split; [done|]. by apply not_failed_hidden.
  - intros now0 rnd s _ s' pc _ _ Hsim.
    apply (sim_stages_rel _ _ sim_keeps_hidden) in Hsim.
    + destruct Hsim as [_ Hsim].
      assert (Forall (fun a => thinkingText a <> FAILED_MARKER) (agents s'))
        as H.
      { apply Hsim. cbn. apply Forall_fmap, Forall_true. done. }
      split; [done|]. by apply not_failed_hidden.
    + by split.
    + apply sim_keeps_hidden_trans.
    + by split.
    + intros. apply sim_keeps_hidden_begin.
    + intros. apply sim_keeps_hidden_complete.
  - intros i start wt now0 rnd s _ s' pc (H1 & H2) Hw.
    destruct (decide (isAnalyzingRef s = true)) as [Hflag|Hflag].
    + apply (sim_wake_rel _ _ sim_keeps_hidden) in Hw.
      * destruct Hw as [_ Hw]. specialize (Hw (H1 Hflag)).
        split; [done|]. by apply not_failed_hidden.
      * by split.
      * apply sim_keeps_hidden_trans.
      * by split.
      * intros. apply sim_keeps_hidden_begin.
      * intros. apply sim_keeps_hidden_complete.
    + apply not_true_is_false in Hflag.
      rewrite sim_wake_cancelled in Hw by done. injection Hw as <- _.
      split; [|done]. cbn. by rewrite Hflag.
  - intros k s _ s' (H1 & H2) Hn.
    apply narration_step in Hn
      as (c & a & thoughts & t & _ & Ha & Hth & Ht & ->).
    pose proof (AGENT_THINKING_not_failed _ _ _ Hth
                  (list_elem_of_lookup_2 _ _ _ Ht)) as Hne.
    cbn. split.
    + intros Hflag. apply Forall_insert; [by apply H1|done].
    + apply Forall_insert; [done|]. cbn. done.
  - intros e0 s r o (H1 & H2) _.
    destruct o as [pc|data|m]; cbn [settle fst].
    + done.
    + split; [done|]. unfold success_block.
      assert (forall bas,
        Forall (fun a => thinkingText a = FAILED_MARKER -> status a = error)
          (map (reconcile_agent bas) (agents s))) as Hrec.
      { intros bas. apply Forall_fmap.
        eapply Forall_impl; [exact H2|]. intros a Ha. cbn.
        unfold reconcile_agent. by destruct (find_backendAgent bas a). }
      destruct (data_agents data) as [bas|], (data_logs data); cbn;
        done || apply Hrec.
    + split; [done|]. cbn. apply Forall_fmap, Forall_true. done.
Qed.

Lemma reachable_failure_hidden tr w :
  exec tr initial_world = Some w -> failure_hidden (st w).
Proof.
  apply (exec_invariant (fun w => failure_hidden (st w))).
  - intros now e w0 w1. apply step_failure_hidden.
  - split; [done|]. cbn. by repeat constructor.
Qed.

End FailureNarration.

(** X17. The narration [Analysis Failed], which the [catch] block writes
    into every stage, is never shown: a card shows its narration only
    while its stage is running, and in every reachable world the stages
    that carry this narration have status [error], whose card reads
    [Failed]. *)
Theorem failure_narration_is_never_shown tr w :
  exec tr initial_world = Some w ->
  Forall (fun a =>
    card_text a <> FAILED_MARKER /\
    (thinkingText a = FAILED_MARKER -> card_text a = "✕ Failed"))
    (agents (st w)).
Proof.
  intros (_ & H)%reachable_failure_hidden.
  eapply Forall_impl; [exact H|]. intros a Ha. cbn in Ha.
  unfold card_text. split.
  - destruct (status a) eqn:Hs; try done. intros Hf. by specialize (Ha Hf).
  - intros Hf. by rewrite (Ha Hf).
Qed.

Lemma failure_narration_is_never_shown_witness :
  exec (interrupted_run ++ wind_down) initial_world
  = Some (world_after (interrupted_run ++ wind_down)) /\
  Forall (fun a =>
    card_text a <> FAILED_MARKER /\
    (thinkingText a = FAILED_MARKER -> card_text a = "✕ Failed"))
    (agents (st (world_after (interrupted_run ++ wind_down)))).
Proof.
  assert (H : exec (interrupted_run ++ wind_down) initial_world
              = Some (world_after (interrupted_run ++ wind_down)))
    by (vm_compute; reflexivity).
  exact (conj H (failure_narration_is_never_shown _ _ H)).
Defined.

(** X18. A drop selects a file only when the first file of the drop has a
    MIME type that begins with [image/], and then it selects that first
    file as [handleFileSelect] does; an empty drop, and a drop whose
    first file is not an image, leave the state alone whatever other
    files the drop carries.  The file input has no such test: it selects
    the first file of its list whatever the type, so the two handlers
    differ exactly on a list led by a file that is not an image. *)
Theorem handleDrop_takes_a_leading_image files s :
  (files = [] ->
   handleDrop files s = s /\ handleChange (Some files) s = s) /\
  (forall f rest, files = f :: rest ->
     (exists post, file_type f = "image/" +:+ post) ->
     handleDrop files s = handleFileSelect f s /\
     handleChange (Some files) s = handleFileSelect f s) /\
  (forall f rest, files = f :: rest ->
     ~ (exists post, file_type f = "image/" +:+ post) ->
     handleDrop files s = s /\
     handleChange (Some files) s = handleFileSelect f s) /\
  handleChange None s = s.
Proof.
  split_and!.
  - by intros ->.
  - intros f rest -> Himg%prefix_occurs. unfold handleDrop, startsWith. cbn.
    by rewrite Himg.
  - intros f rest -> Himg. unfold handleDrop, startsWith. cbn.
    destruct (String.prefix "image/" (file_type f)) eqn:Hp; [|done].
    by apply prefix_occurs in Hp.
  - done.
Qed.

Lemma handleDrop_takes_a_leading_image_witness :
  handleDrop [receipt; other_file] initial_state
  = handleFileSelect receipt initial_state /\
  handleChange (Some [receipt; other_file]) initial_state
  = handleFileSelect receipt initial_state.
Proof.
  exact (proj1 (proj2 (handleDrop_takes_a_leading_image
                        [receipt; other_file] initial_state))
           receipt [other_file] eq_refl (ex_intro _ "png" eq_refl)).
Defined.

(** X19. [loadSampleReceipt] leaves the state alone when the download
    fails; when it succeeds, whatever the status of the response, it
    selects a file of type [image/png] named after the sample, the file
    whose name follows the slash in the address that was fetched, exactly
    as a drop of that file would. *)
Theorem loadSampleReceipt_selects_the_sample type o s :
  (forall r, o <> SampleBlobResolves r) /\ loadSampleReceipt type o s = s \/
  (exists r, o = SampleBlobResolves r) /\
  loadSampleReceipt type o s = handleFileSelect (sample_file type) s /\
  loadSampleReceipt type o s = handleDrop [sample_file type] s /\
  file (loadSampleReceipt type o s) = Some (sample_file type) /\
  file_type (sample_file type) = "image/png" /\
  sample_filename type = "/" +:+ file_name (sample_file type).
Proof.
  destruct o as [| |r]; [by left|by left|right].
  split; [by eexists|]. by destruct type.
Qed.

Section RiskBands.

Lemma Qle_bool_false a b : Qle_bool a b = false -> (b < a)%Q.
Proof.
  intros H. apply Qnot_le_lt. intros Hle. apply Qle_bool_iff in Hle.
  congruence.
Qed.

End RiskBands.

(** X20. The badge, the score ring and the score digits always show the
    same colour: green for a score of at most 20, amber above 20 and up
    to 75, red above 75. *)
Theorem risk_colours_agree score :
  ((score <= 20)%Q /\
   getRiskColor score = "border-green-500 text-green-600 bg-green-50" /\
   score_ring score = "border-green-100" /\
   score_digits score = "text-green-500") \/
  ((20 < score)%Q /\ (score <= 75)%Q /\
   getRiskColor score = "border-amber-500 text-amber-600 bg-amber-50" /\
   score_ring score = "border-amber-100" /\
   score_digits score = "text-amber-500") \/
  ((75 < score)%Q /\
   getRiskColor score = "border-red-500 text-red-600 bg-red-50" /\
   score_ring score = "border-red-100" /\
   score_digits score = "text-red-500").
Proof.
  unfold getRiskColor, score_ring, score_digits, Qgt_bool.
  destruct (Qle_bool score 20) eqn:H20.
  - left. apply Qle_bool_iff in H20.
    assert (Qle_bool score 75 = true) as ->.
    { apply Qle_bool_iff. lra. }
    done.
  - apply Qle_bool_false in H20. right.
    destruct (Qle_bool score 75) eqn:H75.
    + left. apply Qle_bool_iff in H75. done.
    + right. apply Qle_bool_false in H75. done.
Qed.

Section Labels.

Lemma to_uint_nonnil i : Nat.to_uint i <> Decimal.Nil.
Proof.
  intros H. pose proof (DecimalNat.Unsigned.of_to i) as Hi.
  rewrite H in Hi. cbn in Hi. subst i. discriminate H.
Qed.

Lemma length_app_string (a b : string) :
  String.length (a +:+ b) = (String.length a + String.length b)%nat.
Proof.
  induction a as [|c a IH]; [done|].
  change (String c a +:+ b) with (String c (a +:+ b)).
  cbn [String.length]. by rewrite IH.
Qed.

Lemma app_string_inv_tail (z : string) : forall x y,
  x +:+ z = y +:+ z -> x = y.
Proof.
  induction x as [|c x IH]; intros [|d y] H; try done.
  - apply (f_equal String.length) in H.
    change ("" +:+ z) with z in H.
    rewrite length_app_string in H. cbn [String.length] in H. lia.
  - apply (f_equal String.length) in H.
    change ("" +:+ z) with z in H.
    rewrite length_app_string in H. cbn [String.length] in H. lia.
  - change (String c x +:+ z = String d y +:+ z)
      with (String c (x +:+ z) = String d (y +:+ z)) in H.
    injection H as -> H. f_equal. by apply IH.
Qed.

Lemma padStart_long (s : string) :
  (3 <= String.length s)%nat -> padStart 3 "0" s = s.
Proof.
  intros Hge. unfold padStart.
  by replace (3 - String.length s)%nat with 0%nat by lia.
Qed.

(** The value and the width of an index of one or two digits once it
    is padded. *)
Lemma padStart_short (d : Decimal.uint) :
  d <> Decimal.Nil ->
  (String.length (NilEmpty.string_of_uint d) < 3)%nat ->
  option_map Nat.of_uint
    (NilZero.uint_of_string (padStart 3 "0" (NilEmpty.string_of_uint d)))
  = Some (Nat.of_uint d) /\
  String.length (padStart 3 "0" (NilEmpty.string_of_uint d)) = 3%nat.
Proof.
  intros Hd Hlen.
  destruct d as [|d|d|d|d|d|d|d|d|d|d]; [done|..];
    (destruct d as [|d|d|d|d|d|d|d|d|d|d]; [by split|..];
     (destruct d as [|d|d|d|d|d|d|d|d|d|d]; [by split|..];
      cbn in Hlen; lia)).
Qed.

End Labels.

(** X21. The label of a log line is the line's index in decimal, padded
    with zeros to three digits and never cut: the padded text reads back
    as the index, it is three characters wide up to line 999 and as wide
    as the index needs from there on, and different lines have different
    labels.  The rows of the log are its lines in order, each under a
    label of its own. *)
Theorem log_label_reads_back i :
  option_map Nat.of_uint
    (NilZero.uint_of_string (padStart 3 "0" (String_of_index i))) = Some i /\
  String.length (padStart 3 "0" (String_of_index i))
  = Nat.max 3 (String.length (String_of_index i)) /\
  (forall j, log_label i = log_label j -> i = j) /\
  (forall l, snd <$> log_rows l = l /\ NoDup (fst <$> log_rows l)).
Proof.
  assert (forall n,
    option_map Nat.of_uint
      (NilZero.uint_of_string (padStart 3 "0" (String_of_index n))) = Some n /\
    String.length (padStart 3 "0" (String_of_index n))
    = Nat.max 3 (String.length (String_of_index n))) as Hread.
  { intros n. unfold String_of_index.
    pose proof (to_uint_nonnil n) as Hn.
    pose proof (DecimalNat.Unsigned.of_to n) as Hof.
    assert (NilZero.string_of_uint (Nat.to_uint n)
            = NilEmpty.string_of_uint (Nat.to_uint n)) as ->
      by by destruct (Nat.to_uint n).
    destruct (le_lt_dec 3
      (String.length (NilEmpty.string_of_uint (Nat.to_uint n)))) as [Hge|Hlt].
    - rewrite padStart_long by done. split; [|lia].
      assert (NilZero.uint_of_string
                (NilEmpty.string_of_uint (Nat.to_uint n))
              = Some (Nat.to_uint n)) as ->.
      { rewrite <- (NilZero.usu _ Hn). by destruct (Nat.to_uint n). }
      cbn. by rewrite Hof.
    - destruct (padStart_short _ Hn Hlt) as [-> ->]. rewrite Hof.
      split; [done|lia]. }
  assert (forall n m, log_label n = log_label m -> n = m) as Hinj.
  { intros n m Hlbl. unfold log_label in Hlbl.
    injection Hlbl as Hlbl.
    change ("" +:+ ?x) with x in Hlbl. apply app_string_inv_tail in Hlbl.
    destruct (Hread n) as [Hi _]. destruct (Hread m) as [Hj _].
    rewrite Hlbl, Hj in Hi. by injection Hi. }
  split_and!; try apply Hread.
  - apply Hinj.
  - intros l. unfold log_rows. split.
    + apply list_eq. intros k.
      rewrite list_lookup_fmap, list_lookup_imap. by destruct (l !! k).
    + assert (fst <$> imap (fun i log => (log_label i, log)) l
              = log_label <$> seq 0 (length l)) as ->.
      { apply list_eq. intros k.
        rewrite !list_lookup_fmap, list_lookup_imap.
        destruct (l !! k) as [x|] eqn:Hk; cbn.
        - rewrite lookup_seq_lt by by eapply lookup_lt_Some. done.
        - rewrite lookup_seq_ge; [done|]. by apply lookup_ge_None. }
      apply NoDup_fmap_2; [exact Hinj|apply NoDup_seq].
Qed.

Section Tour.

Import Onboarding.

Lemma click_in_bounds c h h' :
  (currentSlide h < length slides)%nat ->
  click c h = Some h' -> (currentSlide h' < length slides)%nat.
Proof.
  destruct h as [d n]. unfold click, rendered, slide. cbn. intros Hlt.
  destruct d; [done|].
  destruct n as [|[|[|[|n]]]]; [..|lia];
    destruct c; cbn; try done; intros [= <-]; cbn; lia.
Qed.

Lemma clicks_in_bounds cs : forall h h',
  (currentSlide h < length slides)%nat ->
  clicks cs h = Some h' -> (currentSlide h' < length slides)%nat.
Proof.
  induction cs as [|c cs IH]; intros h h' Hlt; cbn.
  - by intros [= <-].
  - destruct (click c h) as [h1|] eqn:Hc; [|done].
    apply IH. by eapply click_in_bounds.
Qed.

End Tour.

(** X22. However the controls of the tour are clicked, the current slide
    index stays inside the slide list, so [slides[currentSlide]] is always
    a slide and rendering the tour never reads a property of
    [undefined]. *)
Theorem tour_always_has_a_slide cs h :
  Onboarding.clicks cs Onboarding.initial_home = Some h ->
  (Onboarding.currentSlide h < length Onboarding.slides)%nat /\
  is_Some (Onboarding.slide h) /\
  forall c, is_Some (Onboarding.rendered c h).
Proof.
  intros Hcs.
  assert (Onboarding.currentSlide h < length Onboarding.slides)%nat as Hlt.
  { eapply clicks_in_bounds; [|exact Hcs]. cbn. lia. }
  assert (is_Some (Onboarding.slide h)) as [s Hs]
    by by apply lookup_lt_is_Some_2.
  split_and!; [done|by eexists|].
  intros c. unfold Onboarding.rendered. rewrite Hs.
  destruct (Onboarding.showDashboard h); by eexists.
Qed.

Lemma tour_always_has_a_slide_witness :
  Onboarding.clicks
    [Onboarding.Next; Onboarding.Next; Onboarding.Back; Onboarding.Next;
     Onboarding.Next]
    Onboarding.initial_home
  = Some (Onboarding.mkHome false 3) /\
  (Onboarding.currentSlide (Onboarding.mkHome false 3)
   < length Onboarding.slides)%nat /\
  is_Some (Onboarding.slide (Onboarding.mkHome false 3)) /\
  forall c, is_Some (Onboarding.rendered c (Onboarding.mkHome false 3)).
Proof.
  assert (H : Onboarding.clicks
                [Onboarding.Next; Onboarding.Next; Onboarding.Back;
                 Onboarding.Next; Onboarding.Next]
                Onboarding.initial_home
              = Some (Onboarding.mkHome false 3))
    by (vm_compute; reflexivity).
  exact (conj H (tour_always_has_a_slide _ _ H)).
Defined.

(** X23. Back undoes Next and Next undoes Back: after a Next that stays
    in the tour, Back is on the page and returns to the state before;
    after a Back, Next returns to the state before. *)
Theorem back_and_next_undo_each_other h h' :
  (Onboarding.click Onboarding.Next h = Some h' ->
   Onboarding.showDashboard h' = false ->
   Onboarding.click Onboarding.Back h' = Some h) /\
  (Onboarding.click Onboarding.Back h = Some h' ->
   Onboarding.click Onboarding.Next h' = Some h).
Proof.
  destruct h as [d n]. unfold Onboarding.click, Onboarding.rendered,
    Onboarding.slide, Onboarding.nextSlide, Onboarding.prevSlide,
    Onboarding.onComplete. cbn.
  destruct d; [by split|].
  destruct n as [|[|[|[|n]]]]; cbn; split; try done;
    by intros [= <-].
Qed.

Lemma back_and_next_undo_each_other_witness :
  Onboarding.click Onboarding.Next (Onboarding.mkHome false 1)
  = Some (Onboarding.mkHome false 2) /\
  Onboarding.click Onboarding.Back (Onboarding.mkHome false 2)
  = Some (Onboarding.mkHome false 1) /\
  Onboarding.click Onboarding.Next (Onboarding.mkHome false 1)
  = Some (Onboarding.mkHome false 2).
Proof.
  assert (H1 : Onboarding.click Onboarding.Next (Onboarding.mkHome false 1)
               = Some (Onboarding.mkHome false 2))
    by (vm_compute; reflexivity).
  assert (H2 : Onboarding.showDashboard (Onboarding.mkHome false 2) = false)
    by reflexivity.
  assert (H3 : Onboarding.click Onboarding.Back (Onboarding.mkHome false 2)
               = Some (Onboarding.mkHome false 1))
    by exact (proj1 (back_and_next_undo_each_other _ _) H1 H2).
  exact (conj H1 (conj H3
    (proj2 (back_and_next_undo_each_other _ _) H3))).
Defined.

(** X24. The caption of the primary button tells what a click on it does:
    on a reachable slide it reads [Start Analysis] exactly when the click
    opens the dashboard, which is exactly on the last slide and exactly
    where the Skip link is missing; once the dashboard is open, no control
    of the tour is on the page. *)
Theorem start_caption_marks_the_exit cs h :
  Onboarding.clicks cs Onboarding.initial_home = Some h ->
  (Onboarding.showDashboard h = true ->
   forall c, Onboarding.click c h = None) /\
  (Onboarding.showDashboard h = false ->
   exists s h',
     Onboarding.slide h = Some s /\
     Onboarding.click Onboarding.Next h = Some h' /\
     (Onboarding.next_caption s = "Start Analysis →"
      <-> Onboarding.showDashboard h' = true) /\
     (Onboarding.showDashboard h' = true
      <-> S (Onboarding.currentSlide h) = length Onboarding.slides) /\
     (Onboarding.showDashboard h' = true
      <-> Onboarding.click Onboarding.Skip h = None)).
Proof.
  intros Hcs.
  assert (Onboarding.currentSlide h < length Onboarding.slides)%nat as Hlt.
  { eapply clicks_in_bounds; [|exact Hcs]. cbn. lia. }
  destruct h as [d n]. cbn in Hlt. split.
  - cbn. intros -> c. by destruct c.
  - cbn. intros ->.
    unfold Onboarding.click, Onboarding.rendered, Onboarding.slide. cbn.
    destruct n as [|[|[|[|n]]]]; cbn in *; [..|lia];
      eexists _, _; (split; [reflexivity|]); (split; [reflexivity|]);
      cbn; split_and!; split; intros H; try done; try lia.
Qed.

Lemma start_caption_marks_the_exit_witness :
  Onboarding.clicks [Onboarding.Next; Onboarding.Next; Onboarding.Next]
    Onboarding.initial_home
  = Some (Onboarding.mkHome false 3) /\
  (Onboarding.showDashboard (Onboarding.mkHome false 3) = true ->
   forall c, Onboarding.click c (Onboarding.mkHome false 3) = None) /\
  (Onboarding.showDashboard (Onboarding.mkHome false 3) = false ->
   exists s h',
     Onboarding.slide (Onboarding.mkHome false 3) = Some s /\
     Onboarding.click Onboarding.Next (Onboarding.mkHome false 3) = Some h' /\
     (Onboarding.next_caption s = "Start Analysis →"
      <-> Onboarding.showDashboard h' = true) /\
     (Onboarding.showDashboard h' = true
      <-> S (Onboarding.currentSlide (Onboarding.mkHome false 3))
          = length Onboarding.slides) /\
     (Onboarding.showDashboard h' = true
      <-> Onboarding.click Onboarding.Skip (Onboarding.mkHome false 3) = None)).
Proof.
  assert (H : Onboarding.clicks
                [Onboarding.Next; Onboarding.Next; Onboarding.Next]
                Onboarding.initial_home
              = Some (Onboarding.mkHome false 3))
    by (vm_compute; reflexivity).
  exact (conj H (start_caption_marks_the_exit _ _ H)).
Defined.

Section Grid.

Import ParticleDots.

Lemma cells_spec n : Z.of_nat (cells n) = (Z.of_N n + 69) / 70.
Proof.
  unfold cells, spacing.
  assert (Qceiling (inject_Z (Z.of_N n) / 70) = - (- (Z.of_N n * 1) / 70))
    as -> by reflexivity.
  pose proof (N2Z.is_nonneg n).
  rewrite Z2Nat.id; Z.to_euclidean_division_equations; lia.
Qed.

Lemma length_grid {A} (f : nat -> nat -> A) rows cols :
  length (flat_map (fun i => map (f i) (seq 0 rows)) (seq 0 cols))
  = (cols * rows)%nat.
Proof.
  generalize 0%nat at 2. induction cols as [|cols IH]; intros k; cbn.
  - done.
  - by rewrite length_app, length_map, length_seq, IH.
Qed.

Lemma elem_of_grid {A} (f : nat -> nat -> A) rows cols a :
  a ∈ flat_map (fun i => map (f i) (seq 0 rows)) (seq 0 cols) <->
  exists i j, (i < cols)%nat /\ (j < rows)%nat /\ a = f i j.
Proof.
  rewrite list_elem_of_In, in_flat_map. split.
  - intros (i & Hi%in_seq & (j & <- & Hj%in_seq)%in_map_iff).
    exists i, j. split_and!; [lia|lia|done].
  - intros (i & j & Hi & Hj & ->). exists i. split; [apply in_seq; lia|].
    apply in_map_iff. exists j. split; [done|apply in_seq; lia].
Qed.

(** The rest position of column or row [i] is the middle of cell [i]. *)
Lemma middle_of_cell (p : Z) (i : nat) :
  Z.of_nat i = p / 70 ->
  (Qabs (inject_Z p - (inject_Z (Z.of_nat i) * spacing + spacing / 2)) <= 35)%Q.
Proof.
  intros Hi. unfold spacing.
  assert (70 * Z.of_nat i <= p < 70 * Z.of_nat i + 70) as [Hlo Hhi]
    by (rewrite Hi; Z.to_euclidean_division_equations; lia).
  rewrite Zle_Qle, inject_Z_mult in Hlo.
  rewrite Zlt_Qlt, inject_Z_plus, inject_Z_mult in Hhi.
  change (inject_Z 70) with 70%Q in *.
  assert (70 / 2 == 35)%Q as E by reflexivity.
  apply Qabs_Qle_condition. rewrite E. split; lra.
Qed.

Lemma cell_of_pixel (p : Z) (n : N) :
  0 <= p < Z.of_N n ->
  exists i, (i < cells n)%nat /\ Z.of_nat i = p / 70.
Proof.
  intros Hp. exists (Z.to_nat (p / 70)).
  pose proof (cells_spec n) as Hc.
  assert (0 <= p / 70 < (Z.of_N n + 69) / 70)
    by (Z.to_euclidean_division_equations; lia).
  split; [lia|]. rewrite Z2Nat.id; lia.
Qed.

Lemma middle_inside (i : nat) (n : N) :
  (i < cells n)%nat ->
  (0 < inject_Z (Z.of_nat i) * spacing + spacing / 2
     < inject_Z (Z.of_N n) + 35)%Q.
Proof.
  intros Hi. unfold spacing.
  pose proof (cells_spec n) as Hc.
  assert (0 <= Z.of_nat i /\ 70 * Z.of_nat i + 1 <= Z.of_N n) as [Hlo Hhi].
  { split; [lia|].
    assert (Z.of_nat i < (Z.of_N n + 69) / 70) as Hlt by lia.
    revert Hlt. Z.to_euclidean_division_equations. lia. }
  rewrite Zle_Qle in Hlo.
  rewrite Zle_Qle, inject_Z_plus, inject_Z_mult in Hhi.
  change (inject_Z 70) with 70%Q in *. change (inject_Z 1) with 1%Q in *.
  change (inject_Z 0) with 0%Q in *.
  assert (70 / 2 == 35)%Q as E by reflexivity.
  rewrite E. split; lra.
Qed.

End Grid.

(** X25. [initParticles] lays out one dot per cell of a grid of 70-pixel
    cells that covers the canvas: there are [ceil(width/70)] times
    [ceil(height/70)] dots (none on an empty canvas), every dot starts at
    its rest position, which lies inside the canvas widened by half a
    cell, and every pixel of the canvas is within 35 pixels, horizontally
    and vertically, of the rest position of some dot. *)
Theorem dot_grid_covers_the_canvas width height rnd :
  length (ParticleDots.initParticles width height rnd)
  = (ParticleDots.cells width * ParticleDots.cells height)%nat /\
  (forall p, p ∈ ParticleDots.initParticles width height rnd ->
     ParticleDots.x p = ParticleDots.baseX p /\
     ParticleDots.y p = ParticleDots.baseY p /\
     (0 < ParticleDots.baseX p < inject_Z (Z.of_N width) + 35)%Q /\
     (0 < ParticleDots.baseY p < inject_Z (Z.of_N height) + 35)%Q) /\
  (forall px py : Z,
     0 <= px < Z.of_N width -> 0 <= py < Z.of_N height ->
     exists p, p ∈ ParticleDots.initParticles width height rnd /\
       (Qabs (inject_Z px - ParticleDots.baseX p) <= 35)%Q /\
       (Qabs (inject_Z py - ParticleDots.baseY p) <= 35)%Q).
Proof.
  unfold ParticleDots.initParticles. split_and!.
  - apply length_grid.
  - intros p (i & j & Hi & Hj & ->)%elem_of_grid. cbn.
    split; [reflexivity|]. split; [reflexivity|].
    split; by apply middle_inside.
  - intros px py (i & Hi & Hpx)%cell_of_pixel (j & Hj & Hpy)%cell_of_pixel.
    eexists. split.
    + apply elem_of_grid. exists i, j. split_and!; [done|done|reflexivity].
    + cbn. split; by apply middle_of_cell.
Qed.

Lemma dot_grid_covers_the_canvas_witness :
  0 <= 100 < Z.of_N 1920 /\ 0 <= 50 < Z.of_N 1080 /\
  exists p, p ∈ ParticleDots.initParticles 1920 1080 steady /\
    (Qabs (inject_Z 100 - ParticleDots.baseX p) <= 35)%Q /\
    (Qabs (inject_Z 50 - ParticleDots.baseY p) <= 35)%Q.
Proof.
  assert (H1 : 0 <= 100 < Z.of_N 1920) by lia.
  assert (H2 : 0 <= 50 < Z.of_N 1080) by lia.
  exact (conj H1 (conj H2
    (proj2 (proj2 (dot_grid_covers_the_canvas 1920 1080 steady))
       100 50 H1 H2))).
Defined.

Section Clock.

Import HudOverlay.

Lemma free_of_app c a b :
  free_of c (a +:+ b) = free_of c a && free_of c b.
Proof.
  induction a as [|x a IH]; [done|].
  change (String x a +:+ b) with (String x (a +:+ b)). cbn [free_of].
  by rewrite IH, andb_assoc.
Qed.

Lemma split_free_end sep a : free_of sep a = true -> split sep a = [a].
Proof.
  induction a as [|x a IH]; [done|]. cbn [free_of split].
  intros [Hx Ha]%andb_true_iff. apply negb_true_iff in Hx.
  by rewrite Hx, IH.
Qed.

Lemma split_free sep a b :
  free_of sep a = true ->
  split sep (a +:+ String sep b) = a :: split sep b.
Proof.
  induction a as [|x a IH].
  - intros _. change ("" +:+ String sep b) with (String sep b).
    cbn [split]. by rewrite Ascii.eqb_refl.
  - change (String x a +:+ String sep b)
      with (String x (a +:+ String sep b)).
    cbn [free_of split].
    intros [Hx Ha]%andb_true_iff. apply negb_true_iff in Hx.
    by rewrite Hx, IH.
Qed.

Lemma substring_repeat k c :
  String.substring 0 k (repeat_string k (String c "")) = repeat_string k (String c "").
Proof.
  induction k as [|k IH]; [done|].
  change (repeat_string (S k) (String c ""))
    with (String c (repeat_string k (String c ""))).
  cbn [String.substring]. by rewrite IH.
Qed.

Lemma padStart_zeros w s :
  padStart w "0" s = repeat_string (w - String.length s) "0" +:+ s.
Proof.
  unfold padStart. destruct (w - String.length s)%nat as [|k] eqn:Hk.
  - done.
  - cbn [Nat.eqb orb]. change (String.eqb "0" "") with false. cbn [orb].
    by rewrite substring_repeat.
Qed.

Lemma iso_free_spec c :
  iso_free c ->
  Forall (fun x => Ascii.eqb x c = false)
    ["0"; "1"; "2"; "3"; "4"; "5"; "6"; "7"; "8"; "9"; "-"; "+"]%char.
Proof.
  unfold iso_free. cbn [free_of]. intros Hc.
  repeat (apply andb_true_iff in Hc as [?%negb_true_iff Hc]).
  by repeat constructor.
Qed.

Lemma free_of_decimal c d :
  iso_free c -> free_of c (NilEmpty.string_of_uint d) = true.
Proof.
  intros Hc%iso_free_spec.
  repeat (apply Forall_cons in Hc as [? Hc]).
  induction d; cbn [NilEmpty.string_of_uint free_of]; [done|..];
    rewrite IHd, andb_true_r; by apply negb_true_iff.
Qed.

Lemma free_of_zeros c k :
  iso_free c -> free_of c (repeat_string k "0") = true.
Proof.
  intros Hc%iso_free_spec. apply Forall_cons in Hc as [H0 _].
  induction k as [|k IH]; [done|].
  change (repeat_string (S k) "0") with (String "0" (repeat_string k "0")).
  cbn [free_of]. by rewrite H0, IH.
Qed.

Lemma free_of_digits c w n : iso_free c -> free_of c (digits w n) = true.
Proof.
  intros Hc. unfold digits, String_of_index.
  rewrite padStart_zeros, free_of_app, free_of_zeros by done.
  cbn [andb]. pose proof (free_of_zeros c 1 Hc) as H0.
  destruct (Nat.to_uint (Z.to_nat n)); [exact H0|..];
    match goal with
    | |- free_of c (NilZero.string_of_uint ?d) = true =>
        exact (free_of_decimal c d Hc)
    end.
Qed.

Lemma free_of_year c y : iso_free c -> free_of c (year_text y) = true.
Proof.
  intros Hc. unfold year_text.
  destruct (_ && _); [by apply free_of_digits|].
  rewrite free_of_app, free_of_digits by done.
  apply iso_free_spec in Hc.
  repeat (apply Forall_cons in Hc as [? Hc]).
  destruct (y <? 0); cbn [free_of]; rewrite !andb_true_r;
    by apply negb_true_iff.
Qed.

Lemma app_string_assoc (a b c : string) :
  (a +:+ b) +:+ c = a +:+ (b +:+ c).
Proof.
  induction a as [|x a IH]; [done|].
  change (String x a +:+ b) with (String x (a +:+ b)).
  change (String x (a +:+ b) +:+ c) with (String x ((a +:+ b) +:+ c)).
  change (String x a +:+ (b +:+ c)) with (String x (a +:+ (b +:+ c))).
  by rewrite IH.
Qed.

(** The model of [toISOString] on dates whose ISO strings are known. *)
Lemma toISOString_samples :
  toISOString 0 = "1970-01-01T00:00:00.000Z" /\
  toISOString (-1) = "1969-12-31T23:59:59.999Z" /\
  toISOString 951782400000 = "2000-02-29T00:00:00.000Z" /\
  toISOString 1700000000000 = "2023-11-14T22:13:20.000Z" /\
  toISOString 8640000000000000 = "+275760-09-13T00:00:00.000Z" /\
  toISOString (-8640000000000000) = "-271821-04-20T00:00:00.000Z".
Proof. split_and!; vm_compute; reflexivity. Qed.

Lemma toISOString_parts t :
  exists date,
    free_of "T" date = true /\
    toISOString t
    = date +:+ String "T" (hms t +:+ String "." (digits 3 (msFromTime t) +:+ "Z")).
Proof.
  unfold toISOString. destruct (civil (Day t)) as [[y m] d].
  exists (year_text y +:+ "-" +:+ digits 2 m +:+ "-" +:+ digits 2 d). split.
  - rewrite !free_of_app, free_of_year, !free_of_digits by reflexivity.
    reflexivity.
  - unfold hms. rewrite !app_string_assoc. reflexivity.
Qed.

Lemma free_of_hms c t :
  iso_free c -> c <> ":"%char -> free_of c (hms t) = true.
Proof.
  intros Hc Hne. unfold hms.
  rewrite !free_of_app, !free_of_digits by done.
  cbn [free_of andb].
  assert (Ascii.eqb ":" c = false) as -> by (apply Ascii.eqb_neq; congruence).
  reflexivity.
Qed.

Lemma length_two_digits n :
  0 <= n < 60 -> String.length (digits 2 n) = 2%nat.
Proof.
  intros Hn. replace n with (Z.of_nat (Z.to_nat n)) by lia.
  assert (Z.to_nat n < 60)%nat as Hk by lia.
  generalize dependent (Z.to_nat n). clear. intros k Hk.
  do 60 (destruct k as [|k]; [reflexivity|]). lia.
Qed.

End Clock.

(** X26. The clock of the overlay always gets a text: for every time
    value the two [split]s find their pieces, and the text is the UTC
    time of day as two-digit hours, minutes and seconds, followed by
    [UTC]: twelve characters that depend on the time of day only, not on
    the date and not on the milliseconds. *)
Theorem hud_clock_shows_utc_time_of_day t :
  HudOverlay.updateTime t
  = Some ((HudOverlay.digits 2 (HudOverlay.HourFromTime t) +:+ ":"
           +:+ HudOverlay.digits 2 (HudOverlay.MinFromTime t) +:+ ":"
           +:+ HudOverlay.digits 2 (HudOverlay.SecFromTime t)) +:+ " UTC") /\
  (0 <= HudOverlay.HourFromTime t < 24 /\
   0 <= HudOverlay.MinFromTime t < 60 /\
   0 <= HudOverlay.SecFromTime t < 60) /\
  (forall s, HudOverlay.updateTime t = Some s -> String.length s = 12%nat) /\
  (forall t', t / 1000 mod 86400 = t' / 1000 mod 86400 ->
     HudOverlay.updateTime t' = HudOverlay.updateTime t).
Proof.
  assert (forall u, HudOverlay.updateTime u = Some (hms u +:+ " UTC")) as Hall.
  { intros u. unfold HudOverlay.updateTime.
    destruct (toISOString_parts u) as (date & Hdate & ->).
    rewrite split_free by done.
    rewrite split_free_end.
    2: { change (String "." ?x) with ("." +:+ x).
         rewrite !free_of_app, free_of_hms, free_of_digits by done.
         reflexivity. }
    cbn [lookup list_lookup]. rewrite split_free.
    2: { by apply free_of_hms. }
    reflexivity. }
  assert (0 <= HudOverlay.HourFromTime t < 24 /\
          0 <= HudOverlay.MinFromTime t < 60 /\
          0 <= HudOverlay.SecFromTime t < 60) as Hrange.
  { unfold HudOverlay.HourFromTime, HudOverlay.MinFromTime,
      HudOverlay.SecFromTime.
    split_and!; apply Z.mod_pos_bound; lia. }
  split_and!; try apply Hrange.
  - apply Hall.
  - intros s. rewrite Hall. intros [= <-]. unfold hms.
    destruct Hrange as (Hh & Hm & Hs).
    assert (0 <= HudOverlay.HourFromTime t < 60) as Hh' by lia.
    rewrite !length_app_string, !length_two_digits by done. reflexivity.
  - intros t' Heq. rewrite !Hall. unfold hms.
    assert (HudOverlay.HourFromTime t' = HudOverlay.HourFromTime t /\
            HudOverlay.MinFromTime t' = HudOverlay.MinFromTime t /\
            HudOverlay.SecFromTime t' = HudOverlay.SecFromTime t)
      as (-> & -> & ->); [|done].
    unfold HudOverlay.HourFromTime, HudOverlay.MinFromTime,
      HudOverlay.SecFromTime.
    revert Heq. Z.to_euclidean_division_equations. lia.
Qed.
